(** * Remote process supervision of the moltworker control plane

    A shallow embedding of [src/gateway/r2.ts], [src/gateway/sync.ts] and
    [src/routes/debug.ts]: the mount detector, its configuration wrapper,
    and the debug endpoints that poll a remote process and interpret its
    captured output.

    JavaScript strings are sequences of UTF-16 code units; asynchronous
    code is written in a small monad that threads a world (elapsed time,
    number of processes started, observable events) and delivers either a
    value or a thrown exception. *)

From Stdlib Require Import List NArith ZArith Bool String Ascii Lia.
From Stdlib Require Import Sorted Permutation SpecFloat.
Import ListNotations.

Set Implicit Arguments.

(* ------------------------------------------------------------------ *)
(** * JavaScript strings *)
(* ------------------------------------------------------------------ *)

Module Js.

(** A string value: its UTF-16 code units. *)
Definition str := list N.

(** The code units of an ASCII literal of the source. *)
Definition lit (s : string) : str :=
  map N_of_ascii (list_ascii_of_string s).

(** The double quote, U+0022. *)
Definition dquote : str := [34%N].

Fixpoint eqb (a b : str) : bool :=
  match a, b with
  | [], [] => true
  | c :: a', d :: b' => N.eqb c d && eqb a' b'
  | _, _ => false
  end.

(** [s.startsWith(m)] *)
Fixpoint startsWith (s m : str) {struct m} : bool :=
  match m, s with
  | [], _ => true
  | _ :: _, [] => false
  | c :: m', d :: s' => N.eqb c d && startsWith s' m'
  end.

(** [s.includes(m)]: [m] occurs in [s] at some position. *)
Fixpoint includes (s m : str) : bool :=
  startsWith s m ||
  match s with
  | [] => false
  | _ :: s' => includes s' m
  end.

(** [s.slice(0, n)] *)
Definition slice0 (n : nat) (s : str) : str := firstn n s.

(** WhiteSpace and LineTerminator code points of ECMAScript, the ones
    [String.prototype.trim] strips. *)
Definition isWhiteSpace (c : N) : bool :=
  (N.leb 9 c && N.leb c 13)            (* TAB LF VT FF CR *)
  || N.eqb c 32                        (* SP *)
  || N.eqb c 160                       (* NBSP *)
  || N.eqb c 5760                      (* U+1680 *)
  || (N.leb 8192 c && N.leb c 8202)    (* U+2000 .. U+200A *)
  || N.eqb c 8232 || N.eqb c 8233      (* LS PS *)
  || N.eqb c 8239                      (* U+202F *)
  || N.eqb c 8287                      (* U+205F *)
  || N.eqb c 12288                     (* U+3000 *)
  || N.eqb c 65279.                    (* U+FEFF *)

Fixpoint trimStart (s : str) : str :=
  match s with
  | [] => []
  | c :: s' => if isWhiteSpace c then trimStart s' else s
  end.

Definition trimEnd (s : str) : str := rev (trimStart (rev s)).

(** [s.trim()] *)
Definition trim (s : str) : str := trimEnd (trimStart s).

(** Truthiness of a string: every string but the empty one. *)
Definition truthy (s : str) : bool :=
  match s with [] => false | _ :: _ => true end.

(** Truthiness of a value that is a string or [undefined]. *)
Definition truthy_opt (o : option str) : bool :=
  match o with Some s => truthy s | None => false end.

(** [o || d] for a string-or-undefined [o] and a string [d]. *)
Definition or_else (o : option str) (d : str) : str :=
  match o with
  | Some s => if truthy s then s else d
  | None => d
  end.

End Js.

(* ------------------------------------------------------------------ *)
(** * The sandbox backend as seen by the worker *)
(* ------------------------------------------------------------------ *)

(** A value thrown or used to reject a promise: an [Error] instance with
    its [message], or any other value. *)
Inductive Exn :=
| ErrorInstance (message : Js.str)
| NonError (value : Js.str).

(** How a call completes: normally with a value, or abruptly. *)
Inductive Result (A : Type) :=
| Ok (a : A)
| Err (e : Exn).
Arguments Ok {A} a.
Arguments Err {A} e.

(** A log snapshot; either stream may be [undefined]. *)
Record Logs := {
  stdout : option Js.str;
  stderr : option Js.str
}.

(** A process handle of the sandbox SDK.  [proc_status] and [proc_getLogs]
    are what the handle shows [t] milliseconds after the worker obtained
    it; [proc_startTime] and [proc_endTime] stand for the ISO-8601
    rendering of the optional dates. *)
Record Process := {
  proc_id : Js.str;
  proc_command : Js.str;
  proc_status : Z -> Js.str;
  proc_startTime : option Js.str;
  proc_endTime : option Js.str;
  proc_exitCode : Z -> option Z;
  proc_getLogs : Z -> Result Logs
}.

(** The sandbox: its answer to the [k]-th [startProcess] call and to
    [listProcesses]. *)
Record Sandbox := {
  sb_startProcess : nat -> Js.str -> Result Process;
  sb_listProcesses : Result (list Process)
}.

(** Worker environment bindings read by the mount check. *)
Record MoltbotEnv := {
  R2_ACCESS_KEY_ID : option Js.str;
  R2_SECRET_ACCESS_KEY : option Js.str;
  CF_ACCOUNT_ID : option Js.str
}.

(** An argument of [console.log]. *)
Inductive LogArg :=
| LStr (s : Js.str)
| LBool (b : bool)
| LUndefined
| LExn (e : Exn).

(** What a run does that can be observed from outside. *)
Inductive Event :=
| EvStartProcess (cmd : Js.str)
| EvListProcesses
| EvStatus (pid : Js.str)
| EvGetLogs (pid : Js.str)
| EvWaitForProcess (pid : Js.str) (timeoutMs waited : Z)
| EvSleep (ms : Z)
| EvConsoleLog (args : list LogArg).

(** Events that involve the sandbox or one of its process handles. *)
Definition remote_call (ev : Event) : bool :=
  match ev with
  | EvStartProcess _ | EvListProcesses | EvStatus _ | EvGetLogs _
  | EvWaitForProcess _ _ _ => true
  | EvSleep _ | EvConsoleLog _ => false
  end.

Definition timed_wait (ev : Event) : bool :=
  match ev with
  | EvSleep _ => true
  | _ => false
  end.

Record World := {
  clock : Z;            (* milliseconds elapsed *)
  started : nat;        (* startProcess calls made so far *)
  trace : list Event    (* events, oldest first *)
}.

(** A handle in the worker's hands: the process and when it was obtained. *)
Record Handle := {
  h_proc : Process;
  h_born : Z
}.

(* ------------------------------------------------------------------ *)
(** * The monad of asynchronous computations *)
(* ------------------------------------------------------------------ *)

Definition M (A : Type) : Type := World -> Result A * World.

Definition ret {A} (a : A) : M A := fun w => (Ok a, w).

Definition throw {A} (e : Exn) : M A := fun w => (Err e, w).

Definition bind {A B} (m : M A) (k : A -> M B) : M B :=
  fun w =>
    match m w with
    | (Ok a, w') => k a w'
    | (Err e, w') => (Err e, w')
    end.

(** [try { m } catch (err) { h err }] *)
Definition try_catch {A} (m : M A) (h : Exn -> M A) : M A :=
  fun w =>
    match m w with
    | (Ok a, w') => (Ok a, w')
    | (Err e, w') => h e w'
    end.

Declare Scope async_scope.
Delimit Scope async_scope with async.
Notation "x <- m ;; k" := (bind m (fun x => k))
  (at level 61, m at next level, right associativity) : async_scope.
Notation "m ;; k" := (bind m (fun _ => k))
  (at level 61, right associativity) : async_scope.
Open Scope async_scope.

Definition emit (ev : Event) : M unit :=
  fun w => (Ok tt, {| clock := clock w; started := started w;
                      trace := trace w ++ [ev] |}).

(** Settle a promise whose outcome is already determined. *)
Definition settle {A} (r : Result A) : M A := fun w => (r, w).

Definition elapsed (h : Handle) (w : World) : Z := (clock w - h_born h)%Z.

(** [await sandbox.startProcess(cmd)] *)
Definition startProcess (sb : Sandbox) (cmd : Js.str) : M Handle :=
  fun w =>
    let w' := {| clock := clock w; started := S (started w);
                 trace := trace w ++ [EvStartProcess cmd] |} in
    match sb_startProcess sb (started w) cmd with
    | Ok p => (Ok {| h_proc := p; h_born := clock w |}, w')
    | Err e => (Err e, w')
    end.

(** [await sandbox.listProcesses()] *)
Definition listProcesses (sb : Sandbox) : M (list Handle) :=
  fun w =>
    let w' := {| clock := clock w; started := started w;
                 trace := trace w ++ [EvListProcesses] |} in
    match sb_listProcesses sb with
    | Ok ps => (Ok (map (fun p => {| h_proc := p; h_born := clock w |}) ps), w')
    | Err e => (Err e, w')
    end.

(** [await new Promise(r => setTimeout(r, ms))] *)
Definition sleep (ms : Z) : M unit :=
  fun w => (Ok tt, {| clock := (clock w + ms)%Z; started := started w;
                      trace := trace w ++ [EvSleep ms] |}).

(** [proc.status] *)
Definition status (h : Handle) : M Js.str :=
  fun w => (Ok (proc_status (h_proc h) (elapsed h w)),
            {| clock := clock w; started := started w;
               trace := trace w ++ [EvStatus (proc_id (h_proc h))] |}).

(** [proc.exitCode] *)
Definition exitCode (h : Handle) : M (option Z) :=
  fun w => (Ok (proc_exitCode (h_proc h) (elapsed h w)), w).

(** [await proc.getLogs()] *)
Definition getLogs (h : Handle) : M Logs :=
  fun w => (proc_getLogs (h_proc h) (elapsed h w),
            {| clock := clock w; started := started w;
               trace := trace w ++ [EvGetLogs (proc_id (h_proc h))] |}).

(** [console.log(...args)] *)
Definition console_log (args : list LogArg) : M unit :=
  emit (EvConsoleLog args).

(** The value a run delivers from the initial world, and what it does. *)
Definition initial : World := {| clock := 0%Z; started := 0; trace := [] |}.
Definition returned {A} (r : Result A * World) : Result A := fst r.
Definition events {A} (r : Result A * World) : list Event := trace (snd r).

Definition running : Js.str := Js.lit "running".
Definition is_running (s : Js.str) : bool := Js.eqb s running.

(** [err instanceof Error ? err.message : 'Unknown error'] *)
Definition errorMessage (err : Exn) : Js.str :=
  match err with
  | ErrorInstance m => m
  | NonError _ => Js.lit "Unknown error"
  end.

(* ------------------------------------------------------------------ *)
(** * gateway/r2.ts and gateway/sync.ts *)
(* ------------------------------------------------------------------ *)

Definition tigrisfs : Js.str := Js.lit "tigrisfs".

(** [logs.stdout && logs.stdout.includes('tigrisfs')], as a boolean. *)
Definition stdout_has_marker (logs : Logs) : bool :=
  match stdout logs with
  | Some s => Js.truthy s && Js.includes s tigrisfs
  | None => false
  end.

(** [logs.stdout?.slice(0, 100)] *)
Definition stdout_head (logs : Logs) : LogArg :=
  match stdout logs with
  | Some s => LStr (Js.slice0 100 s)
  | None => LUndefined
  end.

(** The credential guard shared by [mountR2Storage] and [syncToR2]:
    [!env.R2_ACCESS_KEY_ID || !env.R2_SECRET_ACCESS_KEY || !env.CF_ACCOUNT_ID] *)
Definition not_configured (env : MoltbotEnv) : bool :=
  negb (Js.truthy_opt (R2_ACCESS_KEY_ID env))
  || negb (Js.truthy_opt (R2_SECRET_ACCESS_KEY env))
  || negb (Js.truthy_opt (CF_ACCOUNT_ID env)).

Record SyncResult := {
  success : bool;
  lastSync : option Js.str;
  error : option Js.str;
  details : option Js.str
}.

Definition msg_not_configured_log : Js.str :=
  Js.lit "R2 storage not configured (missing R2_ACCESS_KEY_ID, R2_SECRET_ACCESS_KEY, or CF_ACCOUNT_ID)".

Section Gateway.

(** [R2_MOUNT_PATH] of [../config], which the sources at hand import but
    do not contain. *)
Variable R2_MOUNT_PATH : Js.str.

(** [waitForProcess] of [./utils], which the sources at hand import but
    do not contain.  It is handed the process and a time budget only, so
    it is taken as any function of the status the handle shows over time
    (counted from the call) and of the budget, telling for how long the
    caller is suspended and whether the call throws. *)
Variable waitForProcess : (Z -> Js.str) -> Z -> Z * Result unit.

(** The command of the template literal
    [mount | grep "tigrisfs on ${R2_MOUNT_PATH}"]. *)
Definition mount_command : Js.str :=
  Js.lit "mount | grep " ++ Js.dquote ++ Js.lit "tigrisfs on "
    ++ R2_MOUNT_PATH ++ Js.dquote.

(** [while (proc.status === 'running' && attempts < 10) { sleep 200; attempts++ }]
    with [remaining = 10 - attempts]: the status is read before the bound
    is looked at. *)
Fixpoint isR2Mounted_wait (proc : Handle) (remaining : nat) : M unit :=
  st <- status proc ;;
  match remaining with
  | O => ret tt
  | S r => if is_running st
           then sleep 200 ;; isR2Mounted_wait proc r
           else ret tt
  end.

Definition isR2Mounted (sandbox : Sandbox) : M bool :=
  try_catch
    (proc <- startProcess sandbox mount_command ;;
     isR2Mounted_wait proc 10 ;;
     logs <- getLogs proc ;;
     let mounted := stdout_has_marker logs in
     console_log [LStr (Js.lit "isR2Mounted check:"); LBool mounted;
                  LStr (Js.lit "stdout:"); stdout_head logs] ;;
     ret mounted)
    (fun err =>
       console_log [LStr (Js.lit "isR2Mounted error:"); LExn err] ;;
       ret false).

Definition mountR2Storage (sandbox : Sandbox) (env : MoltbotEnv) : M bool :=
  if not_configured env then
    console_log [LStr msg_not_configured_log] ;;
    ret false
  else
    mounted <- isR2Mounted sandbox ;;
    if mounted then
      console_log [LStr (Js.lit "R2 FUSE mount active at"); LStr R2_MOUNT_PATH] ;;
      ret true
    else
      console_log [LStr (Js.lit "R2 FUSE mount not yet active - container may be starting")] ;;
      ret false.

(** [await waitForProcess(proc, timeoutMs)] *)
Definition await_waitForProcess (proc : Handle) (timeoutMs : Z) : M unit :=
  fun w =>
    let seen := fun t => proc_status (h_proc proc) (elapsed proc w + t)%Z in
    let '(waited, r) := waitForProcess seen timeoutMs in
    (r, {| clock := (clock w + waited)%Z; started := started w;
           trace := trace w ++ [EvWaitForProcess (proc_id (h_proc proc))
                                                 timeoutMs waited] |}).

Definition sync_not_configured : SyncResult :=
  {| success := false; lastSync := None;
     error := Some (Js.lit "R2 storage is not configured");
     details := None |}.

Definition sync_mounted : SyncResult :=
  {| success := true;
     lastSync := Some (Js.lit "live (FUSE mount active)");
     error := None;
     details := Some (Js.lit "Data is written directly to R2 via FUSE mount") |}.

Definition sync_not_mounted : SyncResult :=
  {| success := false; lastSync := None;
     error := Some (Js.lit "R2 FUSE mount not active");
     details := Some (Js.lit "The container may need to be restarted to mount R2") |}.

Definition sync_failed (err : Exn) : SyncResult :=
  {| success := false; lastSync := None;
     error := Some (Js.lit "Failed to check mount status");
     details := Some (errorMessage err) |}.

Definition syncToR2 (sandbox : Sandbox) (env : MoltbotEnv) : M SyncResult :=
  if not_configured env then
    ret sync_not_configured
  else
    try_catch
      (proc <- startProcess sandbox mount_command ;;
       await_waitForProcess proc 5000 ;;
       logs <- getLogs proc ;;
       if stdout_has_marker logs
       then ret sync_mounted
       else ret sync_not_mounted)
      (fun err => ret (sync_failed err)).

End Gateway.

(* ------------------------------------------------------------------ *)
(** * routes/debug.ts *)
(* ------------------------------------------------------------------ *)

(** ** GET /debug/version *)

Inductive VersionResponse :=
| VersionInfo (clawdbot_version node_version : Js.str)
| VersionError (message : Js.str).                  (* HTTP 500 *)

(** [(versionLogs.stdout || versionLogs.stderr || '').trim()] *)
Definition clawdbotVersion_of (versionLogs : Logs) : Js.str :=
  Js.trim (Js.or_else (stdout versionLogs)
                      (Js.or_else (stderr versionLogs) [])).

(** [(nodeLogs.stdout || '').trim()] *)
Definition nodeVersion_of (nodeLogs : Logs) : Js.str :=
  Js.trim (Js.or_else (stdout nodeLogs) []).

Definition version (sandbox : Sandbox) : M VersionResponse :=
  try_catch
    (versionProcess <- startProcess sandbox (Js.lit "clawdbot --version") ;;
     sleep 500 ;;
     versionLogs <- getLogs versionProcess ;;
     let clawdbotVersion := clawdbotVersion_of versionLogs in
     nodeProcess <- startProcess sandbox (Js.lit "node --version") ;;
     sleep 500 ;;
     nodeLogs <- getLogs nodeProcess ;;
     let nodeVersion := nodeVersion_of nodeLogs in
     ret (VersionInfo clawdbotVersion nodeVersion))
    (fun error =>
       ret (VersionError (Js.lit "Failed to get version info: "
                            ++ errorMessage error))).

(** ** GET /debug/processes *)

(** One entry of [processData]; a field that was never assigned is
    [None] and is left out of the JSON body. *)
Record ProcessData := {
  d_id : Js.str;
  d_command : Js.str;
  d_status : Js.str;
  d_startTime : option Js.str;
  d_endTime : option Js.str;
  d_exitCode : option Z;
  d_stdout : option Js.str;
  d_stderr : option Js.str;
  d_logs_error : option Js.str
}.

Inductive ProcessesResponse :=
| ProcessList (count : nat) (processes : list ProcessData)
| ProcessesError (error : Js.str).                   (* HTTP 500 *)

Definition with_logs (data : ProcessData) (logs : Logs) : ProcessData :=
  {| d_id := d_id data; d_command := d_command data;
     d_status := d_status data; d_startTime := d_startTime data;
     d_endTime := d_endTime data; d_exitCode := d_exitCode data;
     d_stdout := Some (Js.or_else (stdout logs) []);
     d_stderr := Some (Js.or_else (stderr logs) []);
     d_logs_error := d_logs_error data |}.

Definition with_logs_error (data : ProcessData) : ProcessData :=
  {| d_id := d_id data; d_command := d_command data;
     d_status := d_status data; d_startTime := d_startTime data;
     d_endTime := d_endTime data; d_exitCode := d_exitCode data;
     d_stdout := d_stdout data; d_stderr := d_stderr data;
     d_logs_error := Some (Js.lit "Failed to retrieve logs") |}.

(** The callback handed to [processes.map]. *)
Definition describe (includeLogs : bool) (p : Handle) : M ProcessData :=
  st <- status p ;;
  code <- exitCode p ;;
  let data :=
    {| d_id := proc_id (h_proc p); d_command := proc_command (h_proc p);
       d_status := st;
       d_startTime := proc_startTime (h_proc p);
       d_endTime := proc_endTime (h_proc p);
       d_exitCode := code;
       d_stdout := None; d_stderr := None; d_logs_error := None |} in
  if includeLogs then
    try_catch
      (logs <- getLogs p ;; ret (with_logs data logs))
      (fun _ => ret (with_logs_error data))
  else ret data.

(** [await Promise.all(xs.map(f))]: the results in the order of [xs]. *)
Fixpoint promise_all_map {A B} (f : A -> M B) (xs : list A) : M (list B) :=
  match xs with
  | [] => ret []
  | x :: xs' =>
      y <- f x ;;
      ys <- promise_all_map f xs' ;;
      ret (y :: ys)
  end.

(** The own properties of the object literal [statusOrder]. *)
Definition statusOrder : list (Js.str * Z) :=
  [ (Js.lit "running", 0%Z); (Js.lit "starting", 1%Z);
    (Js.lit "completed", 2%Z); (Js.lit "failed", 3%Z) ].

(** The properties of [Object.prototype] in ECMAScript, the legacy
    accessors included; every object literal inherits them. *)
Definition Object_prototype : list Js.str :=
  map Js.lit
    [ "constructor"; "hasOwnProperty"; "isPrototypeOf";
      "propertyIsEnumerable"; "toLocaleString"; "toString"; "valueOf";
      "__proto__"; "__defineGetter__"; "__defineSetter__";
      "__lookupGetter__"; "__lookupSetter__" ]%string.

(** [key] names a member of [Object.prototype]. *)
Definition inherited (key : Js.str) : bool :=
  existsb (Js.eqb key) Object_prototype.

(** What reading a property of such a literal yields: a number of its
    own, or the member of [Object.prototype] of that name -- a
    built-in function, and the prototype itself for [__proto__]; two
    names stand for two objects. *)
Inductive Value :=
| VNumber (n : Z)
| VInherited (name : Js.str).

(** The own property [key] of [obj]. *)
Fixpoint getOwnProperty (key : Js.str) (obj : list (Js.str * Z)) : option Z :=
  match obj with
  | [] => None
  | (k, v) :: obj' => if Js.eqb key k then Some v else getOwnProperty key obj'
  end.

(** [obj[key]]: the own property, else the one found on
    [Object.prototype], else [undefined]. *)
Definition lookup (key : Js.str) (obj : list (Js.str * Z)) : option Value :=
  match getOwnProperty key obj with
  | Some n => Some (VNumber n)
  | None => if inherited key then Some (VInherited key) else None
  end.

(** [statusOrder[status] ?? 99]: only [undefined] gives way to 99. *)
Definition statusRank (st : Js.str) : Value :=
  match lookup st statusOrder with
  | Some v => v
  | None => VNumber 99
  end.

(** A number as a comparator returns it. *)
Inductive JsNumber :=
| Finite (z : Z)
| NaN.

(** [a !== b]: numbers by value, objects by identity. *)
Definition strict_neq (a b : Value) : bool :=
  match a, b with
  | VNumber x, VNumber y => negb (x =? y)%Z
  | VInherited m, VInherited n => negb (Js.eqb m n)
  | _, _ => true
  end.

(** [a - b]: a function or [Object.prototype] converts to NaN. *)
Definition minus (a b : Value) : JsNumber :=
  match a, b with
  | VNumber x, VNumber y => Finite (x - y)
  | _, _ => NaN
  end.

(** How [Array.prototype.sort] reads what its comparator returns
    (SortCompare): NaN counts as +0. *)
Definition sortOrder (v : JsNumber) : Z :=
  match v with
  | Finite z => z
  | NaN => 0%Z
  end.

Section Sorting.

Variable A : Type.
Variable compareFn : A -> A -> Z.

(** [Array.prototype.sort(compareFn)], which ECMAScript requires to be
    stable: an element goes before the first one it does not compare
    greater than, the elements being taken last to first.  ECMAScript
    fixes the result for a comparator that is consistent on the
    elements sorted, and leaves it to the implementation otherwise. *)
Fixpoint sort_insert (x : A) (l : list A) : list A :=
  match l with
  | [] => [x]
  | y :: l' => if (compareFn x y <=? 0)%Z then x :: l
               else y :: sort_insert x l'
  end.

Fixpoint sort (l : list A) : list A :=
  match l with
  | [] => []
  | x :: l' => sort_insert x (sort l')
  end.

End Sorting.

(** JSON values as [JSON.parse] builds them; numbers are IEEE 754
    doubles. *)
#[warnings="-register-all"]
Inductive JsonValue :=
| JNull
| JBool (b : bool)
| JNumber (x : spec_float)
| JString (s : Js.str)
| JArray (items : list JsonValue)
| JObject (members : list (Js.str * JsonValue)).

(** Truthiness of a parsed value. *)
Definition json_truthy (v : JsonValue) : bool :=
  match v with
  | JNull => false
  | JBool b => b
  | JNumber (S754_zero _) | JNumber S754_nan => false
  | JNumber _ => true
  | JString s => Js.truthy s
  | JArray _ | JObject _ => true
  end.

Inductive CliResponse :=
| CliResult (command status : Js.str) (exitCode : option Z)
            (attempts : nat) (stdout stderr : Js.str)
| CliError (error command : Js.str).                 (* HTTP 500 *)

Inductive ConfigResponse :=
| ConfigResult (status : Js.str) (exitCode : option Z)
               (config : JsonValue) (raw : option Js.str) (stderr : Js.str)
| ConfigError (error : Js.str).                      (* HTTP 500 *)

(** The loop of /debug/cli and /debug/container-config,
    [while (attempts < bound) { sleep interval; if (proc.status !== 'running') break; attempts++ }]
    with [remaining = bound - attempts]; it delivers [attempts]. *)
Fixpoint sleep_then_check (interval : Z) (proc : Handle)
                          (remaining attempts : nat) : M nat :=
  match remaining with
  | O => ret attempts
  | S r =>
      sleep interval ;;
      st <- status proc ;;
      if negb (is_running st) then ret attempts
      else sleep_then_check interval proc r (S attempts)
  end.

Section Debug.

(** [String.prototype.localeCompare], a built-in of the runtime. *)
Variable localeCompare : Js.str -> Js.str -> Z.

(** [JSON.parse], a built-in of the runtime: the value, or the
    [SyntaxError] it throws. *)
Variable JSON_parse : Js.str -> Result JsonValue.

(** The arrow function handed to [processData.sort]. *)
Definition comparator (a b : ProcessData) : JsNumber :=
  let statusA := statusRank (d_status a) in
  let statusB := statusRank (d_status b) in
  if strict_neq statusA statusB then minus statusA statusB
  else
    let timeA := Js.or_else (d_startTime a) [] in
    let timeB := Js.or_else (d_startTime b) [] in
    Finite (localeCompare timeB timeA).

(** That function as [sort] reads it. *)
Definition compareProcesses (a b : ProcessData) : Z :=
  sortOrder (comparator a b).

(** [c.req.query('logs') === 'true'] *)
Definition includeLogs_of (query_logs : option Js.str) : bool :=
  match query_logs with
  | Some s => Js.eqb s (Js.lit "true")
  | None => false
  end.

Definition processes (sandbox : Sandbox) (query_logs : option Js.str)
  : M ProcessesResponse :=
  try_catch
    (procs <- listProcesses sandbox ;;
     let includeLogs := includeLogs_of query_logs in
     processData <- promise_all_map (describe includeLogs) procs ;;
     ret (ProcessList (List.length procs) (sort compareProcesses processData)))
    (fun error => ret (ProcessesError (errorMessage error))).

(** ** GET /debug/cli *)

Definition cli (sandbox : Sandbox) (query_cmd : option Js.str)
  : M CliResponse :=
  let cmd := Js.or_else query_cmd (Js.lit "clawdbot --help") in
  try_catch
    (proc <- startProcess sandbox cmd ;;
     attempts <- sleep_then_check 500 proc 30 0 ;;
     logs <- getLogs proc ;;
     st <- status proc ;;
     code <- exitCode proc ;;
     ret (CliResult cmd st code attempts
                    (Js.or_else (stdout logs) [])
                    (Js.or_else (stderr logs) [])))
    (fun error => ret (CliError (errorMessage error) cmd)).

(** ** GET /debug/container-config *)

(** [let config = null; try { config = JSON.parse(stdout) } catch { }] *)
Definition parse_or_null (text : Js.str) : M JsonValue :=
  try_catch (settle (JSON_parse text)) (fun _ => ret JNull).

Definition container_config (sandbox : Sandbox) : M ConfigResponse :=
  try_catch
    (proc <- startProcess sandbox (Js.lit "cat /root/.clawdbot/clawdbot.json") ;;
     sleep_then_check 200 proc 10 0 ;;
     logs <- getLogs proc ;;
     let out := Js.or_else (stdout logs) [] in
     let err := Js.or_else (stderr logs) [] in
     config <- parse_or_null out ;;
     st <- status proc ;;
     code <- exitCode proc ;;
     ret (ConfigResult st code config
                       (if json_truthy config then None else Some out)
                       err))
    (fun error => ret (ConfigError (errorMessage error))).

End Debug.

(* ------------------------------------------------------------------ *)
(** * What the poll loops do, as functions of the status shown *)
(* ------------------------------------------------------------------ *)

(** Number of 200 ms waits of the loop of [isR2Mounted] when the handle
    shows [seen] over time, [t] being the time of the next check. *)
Fixpoint wait_count (seen : Z -> Js.str) (remaining : nat) (t : Z) : nat :=
  match remaining with
  | O => O
  | S r => if is_running (seen t)
           then S (wait_count seen r (t + 200)%Z)
           else O
  end.

(** The events of that loop: a status read before every wait and a
    last one. *)
Fixpoint wait_events (pid : Js.str) (waits : nat) : list Event :=
  match waits with
  | O => [EvStatus pid]
  | S k => EvStatus pid :: EvSleep 200 :: wait_events pid k
  end.

(** Rounds (a wait, then a check) of [sleep_then_check], and the number
    of rounds that found the process still running. *)
Fixpoint check_rounds (interval : Z) (seen : Z -> Js.str)
                      (remaining : nat) (t : Z) : nat * nat :=
  match remaining with
  | O => (O, O)
  | S r =>
      if negb (is_running (seen (t + interval)%Z)) then (1, O)
      else let '(rounds, busy) := check_rounds interval seen r (t + interval)%Z in
           (S rounds, S busy)
  end.

Fixpoint check_events (interval : Z) (pid : Js.str) (rounds : nat) : list Event :=
  match rounds with
  | O => []
  | S k => EvSleep interval :: EvStatus pid :: check_events interval pid k
  end.

(** The moment, counted from [startProcess], at which [isR2Mounted]
    fetches the logs of [p]. *)
Definition isR2Mounted_fetch_time (p : Process) : Z :=
  (200 * Z.of_nat (wait_count (proc_status p) 10 0))%Z.

(** The same for the two polling debug routes. *)
Definition check_fetch_time (interval : Z) (bound : nat) (p : Process) : Z :=
  (interval * Z.of_nat (fst (check_rounds interval (proc_status p) bound 0)))%Z.

(** The world after [ms] more milliseconds and the events [evs]. *)
Definition advance (w : World) (ms : Z) (evs : list Event) : World :=
  {| clock := (clock w + ms)%Z; started := started w;
     trace := trace w ++ evs |}.

(** Number of timed waits among the events. *)
Definition count_waits (evs : list Event) : nat :=
  List.length (filter timed_wait evs).

(** The events from the first status read onwards. *)
Fixpoint from_first_status (evs : list Event) : list Event :=
  match evs with
  | [] => []
  | EvStatus pid :: rest => EvStatus pid :: rest
  | _ :: rest => from_first_status rest
  end.

(** The events up to the first log fetch, that fetch included. *)
Fixpoint until_getLogs (evs : list Event) : list Event :=
  match evs with
  | [] => []
  | EvGetLogs pid :: _ => [EvGetLogs pid]
  | ev :: rest => ev :: until_getLogs rest
  end.

(** ** The mount detector as a function of the sandbox's answers *)

Definition log_check (logs : Logs) : Event :=
  EvConsoleLog [LStr (Js.lit "isR2Mounted check:");
                LBool (stdout_has_marker logs);
                LStr (Js.lit "stdout:"); stdout_head logs].

Definition log_error (err : Exn) : Event :=
  EvConsoleLog [LStr (Js.lit "isR2Mounted error:"); LExn err].

(** What [isR2Mounted] makes of the sandbox's answer to [startProcess]:
    the verdict, the time spent and the events. *)
Definition isR2Mounted_of (cmd : Js.str) (answer : Result Process)
  : bool * Z * list Event :=
  match answer with
  | Err e => (false, 0%Z, [EvStartProcess cmd; log_error e])
  | Ok p =>
      let k := wait_count (proc_status p) 10 0 in
      let polled := EvStartProcess cmd :: wait_events (proc_id p) k
                      ++ [EvGetLogs (proc_id p)] in
      match proc_getLogs p (isR2Mounted_fetch_time p) with
      | Ok logs =>
          (stdout_has_marker logs, isR2Mounted_fetch_time p,
           polled ++ [log_check logs])
      | Err e =>
          (false, isR2Mounted_fetch_time p, polled ++ [log_error e])
      end
  end.

(** The same for the part of [syncToR2] behind the credential guard,
    given the poller [waitForProcess]. *)
Definition syncToR2_of (waitForProcess : (Z -> Js.str) -> Z -> Z * Result unit)
                       (cmd : Js.str) (answer : Result Process)
  : SyncResult * Z * list Event :=
  match answer with
  | Err e => (sync_failed e, 0%Z, [EvStartProcess cmd])
  | Ok p =>
      let '(waited, r) := waitForProcess (proc_status p) 5000%Z in
      let polled := [EvStartProcess cmd;
                     EvWaitForProcess (proc_id p) 5000 waited] in
      match r with
      | Err e => (sync_failed e, waited, polled)
      | Ok _ =>
          match proc_getLogs p waited with
          | Ok logs =>
              (if stdout_has_marker logs then sync_mounted else sync_not_mounted,
               waited, polled ++ [EvGetLogs (proc_id p)])
          | Err e =>
              (sync_failed e, waited, polled ++ [EvGetLogs (proc_id p)])
          end
      end
  end.

(** ** The polling debug routes as functions of the sandbox's answers *)

Definition cli_of (cmd : Js.str) (answer : Result Process)
  : CliResponse * Z * list Event :=
  match answer with
  | Err e => (CliError (errorMessage e) cmd, 0%Z, [EvStartProcess cmd])
  | Ok p =>
      let '(rounds, busy) := check_rounds 500 (proc_status p) 30 0 in
      let at_fetch := check_fetch_time 500 30 p in
      let polled := EvStartProcess cmd :: check_events 500 (proc_id p) rounds
                      ++ [EvGetLogs (proc_id p)] in
      match proc_getLogs p at_fetch with
      | Ok logs =>
          (CliResult cmd (proc_status p at_fetch) (proc_exitCode p at_fetch)
                     busy (Js.or_else (stdout logs) [])
                     (Js.or_else (stderr logs) []),
           at_fetch, polled ++ [EvStatus (proc_id p)])
      | Err e => (CliError (errorMessage e) cmd, at_fetch, polled)
      end
  end.

(** [config] and [raw] of the container-config body. *)
Definition config_of (JSON_parse : Js.str -> Result JsonValue) (out : Js.str)
  : JsonValue :=
  match JSON_parse out with
  | Ok v => v
  | Err _ => JNull
  end.

Definition raw_of (config : JsonValue) (out : Js.str) : option Js.str :=
  if json_truthy config then None else Some out.

Definition config_command : Js.str :=
  Js.lit "cat /root/.clawdbot/clawdbot.json".

Definition container_config_of (JSON_parse : Js.str -> Result JsonValue)
                               (answer : Result Process)
  : ConfigResponse * Z * list Event :=
  match answer with
  | Err e => (ConfigError (errorMessage e), 0%Z, [EvStartProcess config_command])
  | Ok p =>
      let rounds := fst (check_rounds 200 (proc_status p) 10 0) in
      let at_fetch := check_fetch_time 200 10 p in
      let polled := EvStartProcess config_command
                      :: check_events 200 (proc_id p) rounds
                      ++ [EvGetLogs (proc_id p)] in
      match proc_getLogs p at_fetch with
      | Ok logs =>
          let out := Js.or_else (stdout logs) [] in
          let config := config_of JSON_parse out in
          (ConfigResult (proc_status p at_fetch) (proc_exitCode p at_fetch)
                        config (raw_of config out)
                        (Js.or_else (stderr logs) []),
           at_fetch, polled ++ [EvStatus (proc_id p)])
      | Err e => (ConfigError (errorMessage e), at_fetch, polled)
      end
  end.

(** [text] is syntactically valid JSON: [JSON.parse] returns a value
    for it instead of throwing. *)
Definition valid_json (JSON_parse : Js.str -> Result JsonValue)
                      (text : Js.str) : Prop :=
  exists v, JSON_parse text = Ok v.

(** ** The process listing as a function of the sandbox's answers *)

(** A handle as [listProcesses] hands it out at time [c]. *)
Definition listed (c : Z) (p : Process) : Handle :=
  {| h_proc := p; h_born := c |}.

(** The record [describe] builds for a process that was just listed. *)
Definition describe_of (includeLogs : bool) (p : Process) : ProcessData :=
  let data :=
    {| d_id := proc_id p; d_command := proc_command p;
       d_status := proc_status p 0;
       d_startTime := proc_startTime p; d_endTime := proc_endTime p;
       d_exitCode := proc_exitCode p 0;
       d_stdout := None; d_stderr := None; d_logs_error := None |} in
  if includeLogs then
    match proc_getLogs p 0 with
    | Ok logs => with_logs data logs
    | Err _ => with_logs_error data
    end
  else data.

Definition describe_events (includeLogs : bool) (p : Process) : list Event :=
  EvStatus (proc_id p) :: if includeLogs then [EvGetLogs (proc_id p)] else [].

(** ** Text extraction, in the words of the specification *)

(** The trimmed first non-empty stream among stdout and stderr,
    stdout first; the empty string when both are empty or undefined. *)
Definition trimmed_first_nonempty (out err : option Js.str) : Js.str :=
  match out with
  | Some (c :: s) => Js.trim (c :: s)
  | _ =>
      match err with
      | Some (c :: s) => Js.trim (c :: s)
      | _ => []
      end
  end.

(** [compareFn(x, y)] is zero: neither goes before the other. *)
Definition tied {A} (compareFn : A -> A -> Z) (x y : A) : bool :=
  (compareFn x y =? 0)%Z.

(** ** The order of the listing *)

(** [a.startTime || ''] *)
Definition time_key (a : ProcessData) : Js.str :=
  Js.or_else (d_startTime a) [].

Definition rank_key (a : ProcessData) : Value := statusRank (d_status a).

(** One rank is a number below the other. *)
Definition rank_below (u v : Value) : Prop :=
  match u, v with
  | VNumber x, VNumber y => (x < y)%Z
  | _, _ => False
  end.

(** The two-key order: a lower status rank first; within one rank, a
    start time that does not compare below the other's first. *)
Definition listed_before (localeCompare : Js.str -> Js.str -> Z)
                         (a b : ProcessData) : Prop :=
  rank_below (rank_key a) (rank_key b)
  \/ (rank_key a = rank_key b
      /\ (localeCompare (time_key b) (time_key a) <= 0)%Z).

(** A record whose status names no member of [Object.prototype]. *)
Definition plain (a : ProcessData) : Prop := inherited (d_status a) = false.



(** A string of white space and line terminators only. *)
Definition blank (s : Js.str) : Prop :=
  Forall (fun c => Js.isWhiteSpace c = true) s.

(** [m] occurs in [s]: at some position, as a contiguous run of code
    units, compared exactly. *)
Definition contains (s m : Js.str) : Prop :=
  exists pre post, s = pre ++ m ++ post.

(** One of the three credentials is absent from the environment. *)
Definition credential_absent (env : MoltbotEnv) : Prop :=
  R2_ACCESS_KEY_ID env = None
  \/ R2_SECRET_ACCESS_KEY env = None
  \/ CF_ACCOUNT_ID env = None.

(* ------------------------------------------------------------------ *)
(** * Instances used in examples *)
(* ------------------------------------------------------------------ *)

(** Modelled from the spec: [waitForProcess] of [gateway/utils], absent
    from the sources at hand, after the Bounded Poller of section 4.1:
    the status is sampled at a fixed interval until it leaves
    [running] or the budget is used up; it never throws. *)
Fixpoint poll_until (interval : Z) (seen : Z -> Js.str)
                    (checks : nat) (t : Z) : Z :=
  match checks with
  | O => t
  | S r => if is_running (seen t)
           then poll_until interval seen r (t + interval)%Z
           else t
  end.

Definition boundedPoller (seen : Z -> Js.str) (timeoutMs : Z)
  : Z * Result unit :=
  (poll_until 500 seen (Z.to_nat (timeoutMs / 500)) 0, Ok tt).

(** Comparison of strings by code units, which is how [localeCompare]
    orders the timestamps that [toISOString] renders: digits in fixed
    positions. *)
Fixpoint codeUnitCompare (a b : Js.str) : Z :=
  match a, b with
  | [], [] => 0
  | [], _ :: _ => -1
  | _ :: _, [] => 1
  | c :: a', d :: b' =>
      match N.compare c d with
      | Lt => -1
      | Gt => 1
      | Eq => codeUnitCompare a' b'
      end
  end%Z.

(** A process that has finished with the given output. *)
Definition finished (pid cmd out : Js.str) : Process :=
  {| proc_id := pid; proc_command := cmd;
     proc_status := fun _ => Js.lit "completed";
     proc_startTime := None; proc_endTime := None;
     proc_exitCode := fun _ => Some 0%Z;
     proc_getLogs := fun _ => Ok {| stdout := Some out; stderr := Some [] |} |}.

(** A sandbox in which every command has finished with output [out]. *)
Definition sandbox_printing (out : Js.str) : Sandbox :=
  {| sb_startProcess := fun _ cmd => Ok (finished (Js.lit "proc-1") cmd out);
     sb_listProcesses := Ok [] |}.

(** A sandbox whose [startProcess] rejects with [e]. *)
Definition sandbox_rejecting (e : Exn) : Sandbox :=
  {| sb_startProcess := fun _ _ => Err e;
     sb_listProcesses := Err e |}.

Definition env_with_r2 : MoltbotEnv :=
  {| R2_ACCESS_KEY_ID := Some (Js.lit "key123");
     R2_SECRET_ACCESS_KEY := Some (Js.lit "secret");
     CF_ACCOUNT_ID := Some (Js.lit "account123") |}.

Definition data_moltbot : Js.str := Js.lit "/data/moltbot".

Definition command_failed : Exn := ErrorInstance (Js.lit "Command failed").

(** A process that has finished having written to stderr only. *)
Definition finished_on_stderr (pid cmd err : Js.str) : Process :=
  {| proc_id := pid; proc_command := cmd;
     proc_status := fun _ => Js.lit "completed";
     proc_startTime := None; proc_endTime := None;
     proc_exitCode := fun _ => Some 0%Z;
     proc_getLogs := fun _ => Ok {| stdout := Some []; stderr := Some err |} |}.

Definition sandbox_printing_stderr (err : Js.str) : Sandbox :=
  {| sb_startProcess :=
       fun _ cmd => Ok (finished_on_stderr (Js.lit "proc-1") cmd err);
     sb_listProcesses := Ok [] |}.

(** A stand-in for [JSON.parse] on the texts of the examples: it knows
    the three literal names of JSON and throws on anything else. *)
Definition parse_literal_names (text : Js.str) : Result JsonValue :=
  if Js.eqb text (Js.lit "null") then Ok JNull
  else if Js.eqb text (Js.lit "true") then Ok (JBool true)
  else if Js.eqb text (Js.lit "false") then Ok (JBool false)
  else Err (ErrorInstance (Js.lit "Unexpected token")).

Definition not_json : Js.str := Js.lit "cat: /root/.clawdbot/clawdbot.json: No such file".

(** A process with the given status and start time whose log fetch
    is rejected. *)
Definition unreadable (pid st : Js.str) (start : option Js.str) : Process :=
  {| proc_id := pid; proc_command := Js.lit "sleep 60";
     proc_status := fun _ => st;
     proc_startTime := start; proc_endTime := None;
     proc_exitCode := fun _ => None;
     proc_getLogs := fun _ => Err (ErrorInstance (Js.lit "Process not found")) |}.

(** A process with the given status and start time whose logs can be
    read. *)
Definition readable (pid st : Js.str) (start : option Js.str) (out : Js.str)
  : Process :=
  {| proc_id := pid; proc_command := Js.lit "clawdbot gateway";
     proc_status := fun _ => st;
     proc_startTime := start; proc_endTime := None;
     proc_exitCode := fun _ => None;
     proc_getLogs := fun _ => Ok {| stdout := Some out; stderr := None |} |}.

Definition sandbox_listing (ps : list Process) : Sandbox :=
  {| sb_startProcess :=
       fun _ _ => Err (ErrorInstance (Js.lit "Container not running"));
     sb_listProcesses := Ok ps |}.

(** A listing that mixes statuses, start times and absent start
    times. *)
Definition jan (day : string) : option Js.str :=
  Some (Js.lit "2024-01-" ++ Js.lit day ++ Js.lit "T00:00:00.000Z").

Definition mixed_listing : list Process :=
  [ unreadable (Js.lit "p1") (Js.lit "failed") (jan "01");
    unreadable (Js.lit "p2") (Js.lit "running") None;
    unreadable (Js.lit "p3") (Js.lit "running") (jan "02");
    unreadable (Js.lit "p4") (Js.lit "killed") (jan "09");
    unreadable (Js.lit "p5") (Js.lit "running") (jan "03");
    unreadable (Js.lit "p6") (Js.lit "starting") None;
    unreadable (Js.lit "p7") (Js.lit "running") (jan "02");
    unreadable (Js.lit "p8") (Js.lit "running") None ].

(** A listing in which a status names a member of [Object.prototype]. *)
Definition inherited_listing : list Process :=
  [ unreadable (Js.lit "p1") (Js.lit "constructor") (jan "01");
    unreadable (Js.lit "p2") (Js.lit "running") (jan "02") ].

Definition env_without_access_key : MoltbotEnv :=
  {| R2_ACCESS_KEY_ID := None;
     R2_SECRET_ACCESS_KEY := Some (Js.lit "secret");
     CF_ACCOUNT_ID := Some (Js.lit "account123") |}.

(** Lines of a mount table, ended by a line feed. *)
Definition line (s : string) : Js.str := Js.lit s ++ [10%N].

Definition tigrisfs_line : Js.str :=
  line "tigrisfs on /data/moltbot type fuse.tigrisfs".

Definition s3fs_line : Js.str :=
  line "s3fs on /data/moltbot type fuse.s3fs".

Definition other_path_line : Js.str :=
  line "tigrisfs on /other/path type fuse.tigrisfs".

Definition uppercase_line : Js.str :=
  line "TIGRISFS on /data/moltbot type fuse.TIGRISFS".

Definition node_banner : Js.str := line "v20.11.0".

Definition error_text : Js.str :=
  line "grep: tigrisfs.log: No such file or directory".

(* ------------------------------------------------------------------ *)
(** * The remaining debug routes *)
(* ------------------------------------------------------------------ *)

(** ** GET /debug/logs *)

(** The bodies of /debug/logs.  [stdout] and [stderr] are the empty
    string in every body but the [ok] one. *)
Inductive LogsResponse :=
| LogsNotFound (message : Js.str)          (* status 'not_found', HTTP 404 *)
| LogsNoProcess                            (* status 'no_process', HTTP 200 *)
| LogsOk (process_id process_status stdout stderr : Js.str)
| LogsError (message : Js.str).            (* status 'error', HTTP 500 *)

(** [processes.find(p => p.id === processId)] *)
Definition find_by_id (processId : Js.str) (processes : list Handle)
  : option Handle :=
  find (fun p => Js.eqb (proc_id (h_proc p)) processId) processes.

(** The tail of the handler, once a process is in hand. *)
Definition respond_with_logs (process : Handle) : M LogsResponse :=
  logs <- getLogs process ;;
  st <- status process ;;
  ret (LogsOk (proc_id (h_proc process)) st
              (Js.or_else (stdout logs) [])
              (Js.or_else (stderr logs) [])).

Section LogsRoute.

(** [findExistingClawdbotProcess] of [../gateway], which the sources at
    hand import but do not contain: any computation that delivers a
    handle or nothing. *)
Variable findExistingClawdbotProcess : Sandbox -> M (option Handle).

Definition debug_logs (sandbox : Sandbox) (query_id : option Js.str)
  : M LogsResponse :=
  try_catch
    (if Js.truthy_opt query_id then
       let processId := Js.or_else query_id [] in
       processes <- listProcesses sandbox ;;
       match find_by_id processId processes with
       | None =>
           ret (LogsNotFound (Js.lit "Process " ++ processId
                                ++ Js.lit " not found"))
       | Some process => respond_with_logs process
       end
     else
       found <- findExistingClawdbotProcess sandbox ;;
       match found with
       | None => ret LogsNoProcess
       | Some process => respond_with_logs process
       end)
    (fun error =>
       ret (LogsError (Js.lit "Failed to get logs: " ++ errorMessage error))).

End LogsRoute.

(** ** GET /debug/env *)

(** The bindings /debug/env reads.  The three the mount check reads are
    kept as the [MoltbotEnv] they form; the others stand beside them. *)
Record Bindings := {
  ANTHROPIC_API_KEY : option Js.str;
  OPENAI_API_KEY : option Js.str;
  CLAWDBOT_GATEWAY_TOKEN : option Js.str;
  r2_bindings : MoltbotEnv;
  DEV_MODE : option Js.str;
  DEBUG_ROUTES : option Js.str;
  CLAWDBOT_BIND_MODE : option Js.str;
  CF_ACCESS_TEAM_DOMAIN : option Js.str;
  CF_ACCESS_AUD : option Js.str
}.

Record EnvResponse := {
  has_anthropic_key : bool;
  has_openai_key : bool;
  has_gateway_token : bool;
  has_r2_access_key : bool;
  has_r2_secret_key : bool;
  has_cf_account_id : bool;
  dev_mode : option Js.str;
  debug_routes : option Js.str;
  bind_mode : option Js.str;
  cf_access_team_domain : option Js.str;
  has_cf_access_aud : bool
}.

(** [!!x] on a binding. *)
Definition debug_env (env : Bindings) : EnvResponse :=
  {| has_anthropic_key := Js.truthy_opt (ANTHROPIC_API_KEY env);
     has_openai_key := Js.truthy_opt (OPENAI_API_KEY env);
     has_gateway_token := Js.truthy_opt (CLAWDBOT_GATEWAY_TOKEN env);
     has_r2_access_key := Js.truthy_opt (R2_ACCESS_KEY_ID (r2_bindings env));
     has_r2_secret_key := Js.truthy_opt (R2_SECRET_ACCESS_KEY (r2_bindings env));
     has_cf_account_id := Js.truthy_opt (CF_ACCOUNT_ID (r2_bindings env));
     dev_mode := DEV_MODE env;
     debug_routes := DEBUG_ROUTES env;
     bind_mode := CLAWDBOT_BIND_MODE env;
     cf_access_team_domain := CF_ACCESS_TEAM_DOMAIN env;
     has_cf_access_aud := Js.truthy_opt (CF_ACCESS_AUD env) |}.

(** ** GET /debug/gateway-api *)

(** What the handler reads of the [Response]: its status, its
    [content-type] header if any, and what [json()] and [text()]
    deliver. *)
Record FetchResponse := {
  resp_status : Z;
  resp_content_type : option Js.str;
  resp_json : Result JsonValue;
  resp_text : Result Js.str
}.

Inductive GatewayBody :=
| BodyJson (v : JsonValue)
| BodyText (s : Js.str).

Inductive GatewayApiResponse :=
| GatewayApiResult (path : Js.str) (status : Z) (contentType : Js.str)
                   (body : GatewayBody)
| GatewayApiError (error path : Js.str).    (* HTTP 500 *)

Definition CLAWDBOT_PORT : Z := 18789.

(** [`http://localhost:${CLAWDBOT_PORT}${path}`] *)
Definition gateway_url (path : Js.str) : Js.str :=
  Js.lit "http://localhost:" ++ Js.lit "18789" ++ path.

Section GatewayApi.

(** [sandbox.containerFetch(new Request(url), port)]: the response, or
    what building the request or fetching it throws. *)
Variable containerFetch : Js.str -> Z -> Result FetchResponse.

Definition gateway_api (query_path : option Js.str) : M GatewayApiResponse :=
  let path := Js.or_else query_path (Js.lit "/") in
  try_catch
    (let url := gateway_url path in
     response <- settle (containerFetch url CLAWDBOT_PORT) ;;
     let contentType := Js.or_else (resp_content_type response) [] in
     body <- (if Js.includes contentType (Js.lit "application/json")
              then v <- settle (resp_json response) ;; ret (BodyJson v)
              else s <- settle (resp_text response) ;; ret (BodyText s)) ;;
     ret (GatewayApiResult path (resp_status response) contentType body))
    (fun error => ret (GatewayApiError (errorMessage error) path)).

End GatewayApi.

(* ------------------------------------------------------------------ *)
(** * Counting what a run does *)
(* ------------------------------------------------------------------ *)

Definition is_start (ev : Event) : bool :=
  match ev with EvStartProcess _ => true | _ => false end.

Definition is_fetch (ev : Event) : bool :=
  match ev with EvGetLogs _ => true | _ => false end.

Definition is_status_read (ev : Event) : bool :=
  match ev with EvStatus _ => true | _ => false end.

Definition is_listing (ev : Event) : bool :=
  match ev with EvListProcesses => true | _ => false end.

Definition count (f : Event -> bool) (evs : list Event) : nat :=
  List.length (filter f evs).

(** All three credentials are set to a non-empty string. *)
Definition credentials_set (env : MoltbotEnv) : Prop :=
  exists a b c,
    R2_ACCESS_KEY_ID env = Some a /\ a <> []
    /\ R2_SECRET_ACCESS_KEY env = Some b /\ b <> []
    /\ CF_ACCOUNT_ID env = Some c /\ c <> [].

(** The console line [mountR2Storage] adds to the verdict of
    [isR2Mounted]. *)
Definition log_mount (R2_MOUNT_PATH : Js.str) (mounted : bool) : Event :=
  if mounted
  then EvConsoleLog [LStr (Js.lit "R2 FUSE mount active at"); LStr R2_MOUNT_PATH]
  else EvConsoleLog
         [LStr (Js.lit "R2 FUSE mount not yet active - container may be starting")].

(** What /debug/version makes of the sandbox's answers to its two
    [startProcess] calls. *)
Definition version_of (first second : Result Process)
  : VersionResponse * Z * nat * list Event :=
  let failed e := VersionError (Js.lit "Failed to get version info: "
                                  ++ errorMessage e) in
  let c1 := Js.lit "clawdbot --version" in
  let c2 := Js.lit "node --version" in
  match first with
  | Err e => (failed e, 0%Z, 1%nat, [EvStartProcess c1])
  | Ok p1 =>
      let ev1 := [EvStartProcess c1; EvSleep 500; EvGetLogs (proc_id p1)] in
      match proc_getLogs p1 500 with
      | Err e => (failed e, 500%Z, 1%nat, ev1)
      | Ok versionLogs =>
          match second with
          | Err e => (failed e, 500%Z, 2%nat, ev1 ++ [EvStartProcess c2])
          | Ok p2 =>
              let ev2 := ev1 ++ [EvStartProcess c2; EvSleep 500;
                                 EvGetLogs (proc_id p2)] in
              match proc_getLogs p2 500 with
              | Err e => (failed e, 1000%Z, 2%nat, ev2)
              | Ok nodeLogs =>
                  (VersionInfo (clawdbotVersion_of versionLogs)
                               (nodeVersion_of nodeLogs),
                   1000%Z, 2%nat, ev2)
              end
          end
      end
  end.

(** The comparator of the listing on the processes themselves: it looks
    at the status and the start time only. *)
Definition compareListed (localeCompare : Js.str -> Js.str -> Z)
                         (p q : Process) : Z :=
  compareProcesses localeCompare (describe_of false p) (describe_of false q).

(** A process that shows [running] until [t0] milliseconds after it was
    obtained, and [completed] from then on. *)
Definition stops_at (t0 : Z) (pid cmd out : Js.str) : Process :=
  {| proc_id := pid; proc_command := cmd;
     proc_status := fun t => if (t <? t0)%Z then running else Js.lit "completed";
     proc_startTime := None; proc_endTime := None;
     proc_exitCode := fun t => if (t <? t0)%Z then None else Some 0%Z;
     proc_getLogs := fun _ => Ok {| stdout := Some out; stderr := Some [] |} |}.

Definition sandbox_busy_until (t0 : Z) (out : Js.str) : Sandbox :=
  {| sb_startProcess := fun _ cmd => Ok (stops_at t0 (Js.lit "proc-1") cmd out);
     sb_listProcesses := Ok [] |}.

(** A process that never leaves [running]. *)
Definition never_ending (pid cmd out : Js.str) : Process :=
  {| proc_id := pid; proc_command := cmd;
     proc_status := fun _ => running;
     proc_startTime := None; proc_endTime := None;
     proc_exitCode := fun _ => None;
     proc_getLogs := fun _ => Ok {| stdout := Some out; stderr := Some [] |} |}.

Definition sandbox_hanging (out : Js.str) : Sandbox :=
  {| sb_startProcess := fun _ cmd => Ok (never_ending (Js.lit "proc-1") cmd out);
     sb_listProcesses := Ok [] |}.

(** A process whose log fetch is rejected with [e]. *)
Definition without_logs (pid cmd : Js.str) (e : Exn) : Process :=
  {| proc_id := pid; proc_command := cmd;
     proc_status := fun _ => Js.lit "completed";
     proc_startTime := None; proc_endTime := None;
     proc_exitCode := fun _ => Some 0%Z;
     proc_getLogs := fun _ => Err e |}.

Definition sandbox_without_logs (e : Exn) : Sandbox :=
  {| sb_startProcess := fun _ cmd => Ok (without_logs (Js.lit "proc-1") cmd e);
     sb_listProcesses := Ok [] |}.

Definition env_empty_secret : MoltbotEnv :=
  {| R2_ACCESS_KEY_ID := Some (Js.lit "key123");
     R2_SECRET_ACCESS_KEY := Some [];
     CF_ACCOUNT_ID := Some (Js.lit "account123") |}.

(** Modelled from the spec: the Named Process Locator of section 4.5,
    as an instance of [findExistingClawdbotProcess] for examples: the
    first listed handle whose command contains the signature, or
    nothing. *)
Definition locate_by_command (signature : Js.str) (sandbox : Sandbox)
  : M (option Handle) :=
  processes <- listProcesses sandbox ;;
  ret (find (fun p => Js.includes (proc_command (h_proc p)) signature)
            processes).

(** A poller that gives up by throwing once the budget is spent. *)
Definition throwingPoller (seen : Z -> Js.str) (timeoutMs : Z)
  : Z * Result unit :=
  (timeoutMs, Err (ErrorInstance (Js.lit "Process timed out"))).

Definition timed_out : Exn := ErrorInstance (Js.lit "Process timed out").

Definition bindings_with (secret : Js.str) : Bindings :=
  {| ANTHROPIC_API_KEY := Some secret;
     OPENAI_API_KEY := None;
     CLAWDBOT_GATEWAY_TOKEN := Some secret;
     r2_bindings := {| R2_ACCESS_KEY_ID := Some secret;
                       R2_SECRET_ACCESS_KEY := Some secret;
                       CF_ACCOUNT_ID := Some (Js.lit "account123") |};
     DEV_MODE := Some (Js.lit "true");
     DEBUG_ROUTES := None;
     CLAWDBOT_BIND_MODE := Some (Js.lit "lan");
     CF_ACCESS_TEAM_DOMAIN := None;
     CF_ACCESS_AUD := None |}.

Definition bindings_without_secret : Bindings :=
  {| ANTHROPIC_API_KEY := None;
     OPENAI_API_KEY := None;
     CLAWDBOT_GATEWAY_TOKEN := None;
     r2_bindings := env_empty_secret;
     DEV_MODE := None;
     DEBUG_ROUTES := None;
     CLAWDBOT_BIND_MODE := None;
     CF_ACCESS_TEAM_DOMAIN := None;
     CF_ACCESS_AUD := None |}.

(** A gateway that answers every request with the JSON literal [true]. *)
Definition fetch_true (url : Js.str) (port : Z) : Result FetchResponse :=
  Ok {| resp_status := 200;
        resp_content_type := Some (Js.lit "application/json; charset=utf-8");
        resp_json := Ok (JBool true);
        resp_text := Ok (Js.lit "true") |}.

(** A listing in which two processes share an id. *)
Definition two_with_one_id : list Process :=
  [ readable (Js.lit "p1") (Js.lit "completed") None (Js.lit "first");
    readable (Js.lit "p2") (Js.lit "failed") None (Js.lit "second");
    readable (Js.lit "p2") (Js.lit "running") None (Js.lit "third") ].

Definition blank_stdout : Logs :=
  {| stdout := Some [10%N]; stderr := Some (Js.lit "clawdbot 1.2.3") |}.

(* ================================================================== *)
(** * Properties *)
(* ================================================================== *)

Unset Implicit Arguments.

(** ** Strings *)

Lemma Js_eqb_eq (a b : Js.str) : Js.eqb a b = true <-> a = b.
Proof.
  revert b; induction a as [|c a IH]; intros [|d b]; simpl;
    try (split; congruence).
  rewrite andb_true_iff, N.eqb_eq, IH. split.
  - intros [-> ->]; reflexivity.
  - intros H; injection H; auto.
Qed.

Lemma Js_eqb_refl (a : Js.str) : Js.eqb a a = true.
Proof. apply Js_eqb_eq; reflexivity. Qed.

Lemma startsWith_spec (s m : Js.str) :
  Js.startsWith s m = true <-> exists post, s = m ++ post.
Proof.
  revert s; induction m as [|c m IH]; intros s; simpl.
  - split; [intros _; exists s; reflexivity | reflexivity].
  - destruct s as [|d s].
    + split; [discriminate | intros [post H]; discriminate].
    + rewrite andb_true_iff, N.eqb_eq, IH. split.
      * intros [-> [post ->]]. exists post; reflexivity.
      * intros [post H]. injection H as -> ->. split; eauto.
Qed.

(** [includes] finds exactly the strings that have the marker as a
    contiguous part. *)
Lemma includes_spec (s m : Js.str) :
  Js.includes s m = true <-> exists pre post, s = pre ++ m ++ post.
Proof.
  induction s as [|d s IH].
  - simpl. rewrite orb_false_r, startsWith_spec. split.
    + intros [post H]. exists [], post. exact H.
    + intros [pre [post H]]. destruct pre; simpl in H.
      * exists post; exact H.
      * discriminate.
  - cbn [Js.includes]. rewrite orb_true_iff, startsWith_spec, IH. split.
    + intros [[post H] | [pre [post H]]].
      * exists [], post. exact H.
      * exists (d :: pre), post. simpl. rewrite H. reflexivity.
    + intros [pre [post H]]. destruct pre as [|c pre]; simpl in H.
      * left. exists post. exact H.
      * right. injection H as _ H. exists pre, post. exact H.
Qed.

(** The guard [logs.stdout && ...] adds nothing to the substring test:
    the empty string does not contain the marker. *)
Lemma stdout_has_marker_includes (logs : Logs) (s : Js.str) :
  stdout logs = Some s -> stdout_has_marker logs = Js.includes s tigrisfs.
Proof.
  unfold stdout_has_marker. intros ->. destruct s; reflexivity.
Qed.

Lemma trimStart_decompose (s : Js.str) :
  exists pre, s = pre ++ Js.trimStart s /\ blank pre.
Proof.
  induction s as [|c s [pre [E B]]]; cbn [Js.trimStart].
  - exists []. split; [reflexivity | constructor].
  - destruct (Js.isWhiteSpace c) eqn:W.
    + exists (c :: pre). split; [cbn [app]; congruence|].
      constructor; assumption.
    + exists []. split; [reflexivity | constructor].
Qed.

Lemma trimStart_head (s : Js.str) (c : N) (t : Js.str) :
  Js.trimStart s = c :: t -> Js.isWhiteSpace c = false.
Proof.
  induction s as [|d s IH]; cbn [Js.trimStart]; [discriminate|].
  destruct (Js.isWhiteSpace d) eqn:W; [exact IH|].
  intros E. injection E as <- _. exact W.
Qed.

Lemma trimEnd_decompose (s : Js.str) :
  exists post, s = Js.trimEnd s ++ post /\ blank post.
Proof.
  unfold Js.trimEnd. destruct (trimStart_decompose (rev s)) as [pre [E B]].
  exists (rev pre). split.
  - rewrite <- rev_app_distr, <- E. symmetry. apply rev_involutive.
  - apply Forall_rev, B.
Qed.

Lemma trimEnd_last (s t : Js.str) (c : N) :
  Js.trimEnd s = t ++ [c] -> Js.isWhiteSpace c = false.
Proof.
  unfold Js.trimEnd. intros E.
  apply (f_equal (@rev N)) in E.
  rewrite rev_involutive, rev_app_distr in E. cbn [rev app] in E.
  exact (trimStart_head _ _ _ E).
Qed.

(** [trim] removes a blank prefix and a blank suffix and leaves a string
    that neither starts nor ends with white space. *)
Lemma trim_spec (s : Js.str) :
  (exists pre post, s = pre ++ Js.trim s ++ post /\ blank pre /\ blank post)
  /\ (forall c t, Js.trim s = c :: t -> Js.isWhiteSpace c = false)
  /\ (forall t c, Js.trim s = t ++ [c] -> Js.isWhiteSpace c = false).
Proof.
  unfold Js.trim.
  destruct (trimStart_decompose s) as [pre [E1 B1]].
  destruct (trimEnd_decompose (Js.trimStart s)) as [post [E2 B2]].
  split; [|split].
  - exists pre, post. split; [|split; assumption].
    rewrite <- E2. exact E1.
  - intros c t E. rewrite E in E2. cbn [app] in E2.
    exact (trimStart_head _ _ _ E2).
  - intros t c E. exact (trimEnd_last _ _ _ E).
Qed.

(** ** The poll loops *)

Lemma world_eq c c' n n' t t' :
  c = c' -> n = n' -> t = t' ->
  {| clock := c; started := n; trace := t |}
  = {| clock := c'; started := n'; trace := t' |}.
Proof. intros -> -> ->; reflexivity. Qed.

Lemma isR2Mounted_wait_run (proc : Handle) (n : nat) (w : World) :
  let k := wait_count (proc_status (h_proc proc)) n (elapsed proc w) in
  isR2Mounted_wait proc n w
  = (Ok tt, advance w (200 * Z.of_nat k) (wait_events (proc_id (h_proc proc)) k)).
Proof.
  revert w; induction n as [|n IH]; intros w; cbn zeta.
  - cbn [isR2Mounted_wait wait_count wait_events].
    unfold bind, status, ret, advance. f_equal.
    apply world_eq; cbn [clock started trace]; [lia | reflexivity | reflexivity].
  - cbn [isR2Mounted_wait wait_count].
    unfold bind at 1. unfold status at 1.
    destruct (is_running (proc_status (h_proc proc) (elapsed proc w))) eqn:E.
    + unfold bind at 1. unfold sleep at 1.
      rewrite IH. cbn zeta. unfold elapsed; cbn [clock started trace].
      replace (clock w + 200 - h_born proc)%Z
        with (clock w - h_born proc + 200)%Z by lia.
      cbn [wait_events]. unfold advance. f_equal.
      apply world_eq; cbn [clock started trace]; [lia | reflexivity |].
      rewrite <- !app_assoc. reflexivity.
    + cbn [wait_events]. unfold ret, advance. f_equal.
      apply world_eq; cbn [clock started trace]; [lia | reflexivity | reflexivity].
Qed.

Lemma sleep_then_check_run (interval : Z) (proc : Handle) (n a : nat) (w : World) :
  let rb := check_rounds interval (proc_status (h_proc proc)) n (elapsed proc w) in
  sleep_then_check interval proc n a w
  = (Ok (a + snd rb)%nat,
     advance w (interval * Z.of_nat (fst rb))
             (check_events interval (proc_id (h_proc proc)) (fst rb))).
Proof.
  revert a w; induction n as [|n IH]; intros a w; cbn zeta.
  - cbn [sleep_then_check check_rounds fst snd check_events].
    unfold ret, advance. rewrite Nat.add_0_r, app_nil_r. f_equal.
    destruct w as [c k t]; apply world_eq; cbn [clock started trace];
      [lia | reflexivity | reflexivity].
  - cbn [sleep_then_check check_rounds].
    unfold bind at 1. unfold sleep at 1.
    unfold bind at 1. unfold status at 1. unfold elapsed at 1.
    cbn [clock started trace].
    replace (clock w + interval - h_born proc)%Z
      with (elapsed proc w + interval)%Z by (unfold elapsed; lia).
    destruct (is_running (proc_status (h_proc proc) (elapsed proc w + interval))) eqn:E;
      cbn [negb].
    + match goal with |- sleep_then_check _ _ _ _ ?w1 = _ =>
        assert (Hel : elapsed proc w1 = (elapsed proc w + interval)%Z)
          by (unfold elapsed; cbn [clock]; lia)
      end.
      rewrite IH. cbn zeta. rewrite Hel.
      destruct (check_rounds interval (proc_status (h_proc proc)) n
                             (elapsed proc w + interval)) as [rounds busy].
      cbn [fst snd check_events]. unfold advance. f_equal; [f_equal; lia|].
      apply world_eq; cbn [clock started trace]; [lia | reflexivity |].
      rewrite <- !app_assoc. reflexivity.
    + cbn [fst snd check_events]. unfold ret, advance.
      rewrite Nat.add_0_r, <- app_assoc. f_equal.
      apply world_eq; cbn [clock started trace]; [lia | reflexivity | reflexivity].
Qed.

(** ** The mount detector *)

Section GatewayFacts.

Variable R2_MOUNT_PATH : Js.str.
Variable waitForProcess : (Z -> Js.str) -> Z -> Z * Result unit.

Local Abbreviation cmd := (mount_command R2_MOUNT_PATH).

(** One call of [isR2Mounted]: it always returns, and both its verdict
    and what it does are determined by the sandbox's answer to the
    [startProcess] call it makes. *)
Lemma isR2Mounted_run (sb : Sandbox) (w : World) :
  isR2Mounted R2_MOUNT_PATH sb w
  = let '(verdict, ms, evs) :=
        isR2Mounted_of cmd (sb_startProcess sb (started w) cmd) in
    (Ok verdict,
     {| clock := (clock w + ms)%Z; started := S (started w);
        trace := trace w ++ evs |}).
Proof.
  unfold isR2Mounted, isR2Mounted_of, try_catch.
  unfold bind at 1. unfold startProcess at 1.
  destruct (sb_startProcess sb (started w) cmd) as [p|e].
  - unfold bind at 1. rewrite isR2Mounted_wait_run. cbn zeta.
    unfold elapsed. cbn [clock h_born h_proc].
    rewrite !Z.sub_diag.
    unfold bind at 1. unfold getLogs at 1. unfold elapsed, advance.
    cbn [clock started trace h_born h_proc].
    replace (clock w + 200 * Z.of_nat (wait_count (proc_status p) 10 0) - clock w)%Z
      with (isR2Mounted_fetch_time p) by (unfold isR2Mounted_fetch_time; lia).
    destruct (proc_getLogs p (isR2Mounted_fetch_time p)) as [logs|e].
    + unfold bind, console_log, emit, ret, log_check.
      cbn [clock started trace]. f_equal.
      apply world_eq; [unfold isR2Mounted_fetch_time; lia | reflexivity |].
      cbn [app]. rewrite <- !app_assoc. reflexivity.
    + unfold bind, console_log, emit, ret, log_error.
      cbn [clock started trace]. f_equal.
      apply world_eq; [unfold isR2Mounted_fetch_time; lia | reflexivity |].
      cbn [app]. rewrite <- !app_assoc. reflexivity.
  - unfold bind, console_log, emit, ret, log_error.
    cbn [clock started trace]. f_equal.
    apply world_eq; [lia | reflexivity |].
    rewrite <- app_assoc. reflexivity.
Qed.

(** One call of [syncToR2] with the credentials in place. *)
Lemma syncToR2_run (sb : Sandbox) (env : MoltbotEnv) (w : World) :
  not_configured env = false ->
  syncToR2 R2_MOUNT_PATH waitForProcess sb env w
  = let '(result, ms, evs) :=
        syncToR2_of waitForProcess cmd (sb_startProcess sb (started w) cmd) in
    (Ok result,
     {| clock := (clock w + ms)%Z; started := S (started w);
        trace := trace w ++ evs |}).
Proof.
  intros Hcfg. unfold syncToR2, syncToR2_of, try_catch. rewrite Hcfg.
  unfold bind at 1. unfold startProcess at 1.
  destruct (sb_startProcess sb (started w) cmd) as [p|e].
  - unfold bind at 1. unfold await_waitForProcess at 1.
    unfold elapsed at 1. cbn [clock started trace h_born h_proc].
    rewrite Z.sub_diag.
    replace (fun t : Z => proc_status p (0 + t)) with (proc_status p).
    2:{ change (proc_status p = fun t => proc_status p (0 + t)%Z).
        reflexivity. }
    destruct (waitForProcess (proc_status p) 5000) as [waited [[]|e]].
    + unfold bind at 1. unfold getLogs at 1. unfold elapsed.
      cbn [clock started trace h_born h_proc].
      replace (clock w + waited - clock w)%Z with waited by lia.
      destruct (proc_getLogs p waited) as [logs|e].
      * destruct (stdout_has_marker logs); unfold ret; f_equal;
          (apply world_eq; [reflexivity | reflexivity |]);
          rewrite <- !app_assoc; reflexivity.
      * unfold ret. f_equal. apply world_eq; [reflexivity | reflexivity |].
        rewrite <- !app_assoc. reflexivity.
    + unfold ret. f_equal. apply world_eq; [reflexivity | reflexivity |].
      rewrite <- !app_assoc. reflexivity.
  - unfold ret. f_equal. apply world_eq; [lia | reflexivity | reflexivity].
Qed.

(** A missing credential trips the guard. *)
Lemma credential_absent_not_configured (env : MoltbotEnv) :
  credential_absent env -> not_configured env = true.
Proof.
  unfold credential_absent, not_configured.
  intros [H | [H | H]]; rewrite H; cbn [Js.truthy_opt negb orb].
  - reflexivity.
  - apply orb_true_iff; left; apply orb_true_r.
  - apply orb_true_r.
Qed.

(** C1.  When one of R2_ACCESS_KEY_ID, R2_SECRET_ACCESS_KEY, CF_ACCOUNT_ID
    is absent, [mountR2Storage] returns [false] and its only effect is
    the console message naming the missing configuration; [syncToR2]
    returns [success = false] with the error [R2 storage is not
    configured] and has no effect at all.  Neither starts a process,
    reads a status, fetches logs or waits: the clock and the count of
    started processes are those of the world before the call. *)
Theorem unconfigured_mount_check_is_local
    (sb : Sandbox) (env : MoltbotEnv) (w : World) :
  credential_absent env ->
  (exists evs,
      mountR2Storage R2_MOUNT_PATH sb env w
      = (Ok false, {| clock := clock w; started := started w;
                      trace := trace w ++ evs |})
      /\ evs = [EvConsoleLog [LStr msg_not_configured_log]]
      /\ filter remote_call evs = []
      /\ count_waits evs = 0%nat)
  /\ (exists r,
        syncToR2 R2_MOUNT_PATH waitForProcess sb env w = (Ok r, w)
        /\ success r = false
        /\ error r = Some (Js.lit "R2 storage is not configured")).
Proof.
  intros H. apply credential_absent_not_configured in H. split.
  - exists [EvConsoleLog [LStr msg_not_configured_log]].
    unfold mountR2Storage. rewrite H. repeat split.
  - exists sync_not_configured.
    unfold syncToR2. rewrite H. repeat split.
Qed.

Lemma stdout_has_marker_spec (logs : Logs) :
  stdout_has_marker logs = true
  <-> exists s, stdout logs = Some s /\ contains s tigrisfs.
Proof.
  unfold stdout_has_marker, contains. destruct (stdout logs) as [s|].
  - split.
    + intros H. exists s. split; [reflexivity|].
      apply includes_spec. apply andb_true_iff in H. apply H.
    + intros [s' [E H]]. injection E as <-.
      apply includes_spec in H. rewrite H, andb_true_r.
      destruct s; [discriminate H | reflexivity].
  - split; [discriminate | intros [s [E _]]; discriminate].
Qed.

(** C2.  Whatever log snapshot the detector captures, its verdict is
    positive exactly when the captured stdout contains the marker
    [tigrisfs], compared code unit by code unit: [isR2Mounted] returns
    [true] exactly then, and [syncToR2] (credentials in place, the
    poller having returned) reports [success] exactly then.  A stdout
    without the marker, such as another file system at the same path
    or the empty string, and an undefined stdout give a negative
    verdict. *)
Theorem verdict_iff_marker_in_stdout
    (sb : Sandbox) (env : MoltbotEnv) (w : World) (p : Process) :
  sb_startProcess sb (started w) (mount_command R2_MOUNT_PATH) = Ok p ->
  (forall logs,
      proc_getLogs p (isR2Mounted_fetch_time p) = Ok logs ->
      exists mounted,
        returned (isR2Mounted R2_MOUNT_PATH sb w) = Ok mounted
        /\ (mounted = true
            <-> exists s, stdout logs = Some s /\ contains s tigrisfs))
  /\ (forall waited logs,
        not_configured env = false ->
        waitForProcess (proc_status p) 5000 = (waited, Ok tt) ->
        proc_getLogs p waited = Ok logs ->
        exists r,
          returned (syncToR2 R2_MOUNT_PATH waitForProcess sb env w) = Ok r
          /\ (success r = true
              <-> exists s, stdout logs = Some s /\ contains s tigrisfs)).
Proof.
  intros Hstart. split.
  - intros logs Hlogs. exists (stdout_has_marker logs). split.
    + rewrite isR2Mounted_run, Hstart. unfold isR2Mounted_of.
      rewrite Hlogs. reflexivity.
    + apply stdout_has_marker_spec.
  - intros waited logs Hcfg Hwait Hlogs.
    exists (if stdout_has_marker logs then sync_mounted else sync_not_mounted).
    split.
    + rewrite syncToR2_run by exact Hcfg. rewrite Hstart.
      unfold syncToR2_of. rewrite Hwait, Hlogs. reflexivity.
    + rewrite <- stdout_has_marker_spec.
      destruct (stdout_has_marker logs); unfold sync_mounted, sync_not_mounted;
        cbn [success]; split; congruence.
Qed.


(** C5, as the code has it.  When [startProcess] rejects with [e],
    [syncToR2] (credentials in place) returns [success = false] with the
    error [Failed to check mount status] and, as details, the message of
    [e] when [e] is an [Error] instance and [Unknown error] otherwise;
    [isR2Mounted] returns the bare boolean [false] and hands [e] to
    [console.log].  Both return normally. *)
Theorem rejected_start_is_reported
    (sb : Sandbox) (env : MoltbotEnv) (w : World) (e : Exn) :
  sb_startProcess sb (started w) (mount_command R2_MOUNT_PATH) = Err e ->
  not_configured env = false ->
  (exists r,
      returned (syncToR2 R2_MOUNT_PATH waitForProcess sb env w) = Ok r
      /\ success r = false
      /\ error r = Some (Js.lit "Failed to check mount status")
      /\ details r = Some (match e with
                           | ErrorInstance message => message
                           | NonError _ => Js.lit "Unknown error"
                           end))
  /\ isR2Mounted R2_MOUNT_PATH sb w
     = (Ok false,
        {| clock := clock w; started := S (started w);
           trace := trace w ++
             [EvStartProcess (mount_command R2_MOUNT_PATH);
              EvConsoleLog [LStr (Js.lit "isR2Mounted error:"); LExn e]] |}).
Proof.
  intros Hstart Hcfg. split.
  - exists (sync_failed e). rewrite syncToR2_run by exact Hcfg.
    rewrite Hstart. cbn [syncToR2_of returned fst].
    repeat split.
  - rewrite isR2Mounted_run, Hstart. cbn [isR2Mounted_of].
    f_equal. apply world_eq; [lia | reflexivity | reflexivity].
Qed.

(** C9.  Two calls in succession to which the sandbox gives the same
    answer yield the same verdict, take the same time and do the same
    things: nothing is carried over from the first call to the second.
    This holds for [isR2Mounted] and for [syncToR2]. *)
Theorem detector_twice_same_verdict
    (sb : Sandbox) (env : MoltbotEnv) (w : World) :
  sb_startProcess sb (S (started w)) (mount_command R2_MOUNT_PATH)
  = sb_startProcess sb (started w) (mount_command R2_MOUNT_PATH) ->
  (let first := isR2Mounted R2_MOUNT_PATH sb w in
   let second := isR2Mounted R2_MOUNT_PATH sb (snd first) in
   returned second = returned first
   /\ exists ms evs,
       clock (snd first) = (clock w + ms)%Z
       /\ clock (snd second) = (clock (snd first) + ms)%Z
       /\ trace (snd first) = trace w ++ evs
       /\ trace (snd second) = trace (snd first) ++ evs)
  /\ (let first := syncToR2 R2_MOUNT_PATH waitForProcess sb env w in
      let second := syncToR2 R2_MOUNT_PATH waitForProcess sb env (snd first) in
      returned second = returned first
      /\ exists ms evs,
          clock (snd first) = (clock w + ms)%Z
          /\ clock (snd second) = (clock (snd first) + ms)%Z
          /\ trace (snd first) = trace w ++ evs
          /\ trace (snd second) = trace (snd first) ++ evs).
Proof.
  intros Hsame. split; cbn zeta.
  - rewrite (isR2Mounted_run sb w).
    destruct (isR2Mounted_of (mount_command R2_MOUNT_PATH)
                (sb_startProcess sb (started w) (mount_command R2_MOUNT_PATH)))
      as [[verdict ms] evs] eqn:E.
    rewrite isR2Mounted_run. cbn [snd started]. rewrite Hsame, E.
    split; [reflexivity|]. exists ms, evs. repeat split.
  - destruct (not_configured env) eqn:Hcfg.
    + unfold syncToR2. rewrite Hcfg. unfold ret. cbn [snd fst returned].
      split; [reflexivity|]. exists 0%Z, []. rewrite app_nil_r.
      repeat split; lia.
    + rewrite (syncToR2_run sb env w Hcfg).
      destruct (syncToR2_of waitForProcess (mount_command R2_MOUNT_PATH)
                  (sb_startProcess sb (started w) (mount_command R2_MOUNT_PATH)))
        as [[result ms] evs] eqn:E.
      rewrite syncToR2_run by exact Hcfg. cbn [snd started].
      rewrite Hsame, E.
      split; [reflexivity|]. exists ms, evs. repeat split.
Qed.

End GatewayFacts.

(** ** The mount detector on concrete sandboxes *)

Lemma unconfigured_mount_check_is_local_witness :
  credential_absent env_without_access_key
  /\ returned (mountR2Storage data_moltbot (sandbox_printing tigrisfs_line)
                              env_without_access_key initial) = Ok false
  /\ events (syncToR2 data_moltbot boundedPoller (sandbox_printing tigrisfs_line)
                      env_without_access_key initial) = [].
Proof.
  assert (H : credential_absent env_without_access_key) by (left; reflexivity).
  split; [exact H|].
  destruct (unconfigured_mount_check_is_local data_moltbot boundedPoller
              (sandbox_printing tigrisfs_line) env_without_access_key
              initial H)
    as [[evs [E1 _]] [r [E2 _]]].
  rewrite E1, E2. split; reflexivity.
Defined.

Example isR2Mounted_tigrisfs :
  returned (isR2Mounted data_moltbot (sandbox_printing tigrisfs_line) initial)
  = Ok true.
Proof. vm_compute. reflexivity. Qed.

Example isR2Mounted_s3fs :
  returned (isR2Mounted data_moltbot (sandbox_printing s3fs_line) initial)
  = Ok false.
Proof. vm_compute. reflexivity. Qed.

Example isR2Mounted_empty :
  returned (isR2Mounted data_moltbot (sandbox_printing []) initial) = Ok false.
Proof. vm_compute. reflexivity. Qed.

Example isR2Mounted_uppercase :
  returned (isR2Mounted data_moltbot (sandbox_printing uppercase_line) initial)
  = Ok false.
Proof. vm_compute. reflexivity. Qed.

Example syncToR2_tigrisfs :
  returned (syncToR2 data_moltbot boundedPoller
                     (sandbox_printing tigrisfs_line) env_with_r2 initial)
  = Ok sync_mounted.
Proof. vm_compute. reflexivity. Qed.

Example syncToR2_s3fs :
  returned (syncToR2 data_moltbot boundedPoller
                     (sandbox_printing s3fs_line) env_with_r2 initial)
  = Ok sync_not_mounted.
Proof. vm_compute. reflexivity. Qed.

Example syncToR2_empty :
  returned (syncToR2 data_moltbot boundedPoller
                     (sandbox_printing []) env_with_r2 initial)
  = Ok sync_not_mounted.
Proof. vm_compute. reflexivity. Qed.

(** The marker at another path, and inside an error message. *)
Example isR2Mounted_other_path :
  returned (isR2Mounted data_moltbot (sandbox_printing other_path_line) initial)
  = Ok true.
Proof. vm_compute. reflexivity. Qed.

Example syncToR2_error_text :
  returned (syncToR2 data_moltbot boundedPoller
                     (sandbox_printing error_text) env_with_r2 initial)
  = Ok sync_mounted.
Proof. vm_compute. reflexivity. Qed.

Lemma verdict_iff_marker_in_stdout_witness :
  sb_startProcess (sandbox_printing s3fs_line) (started initial)
                  (mount_command data_moltbot)
  = Ok (finished (Js.lit "proc-1") (mount_command data_moltbot) s3fs_line)
  /\ exists mounted,
      returned (isR2Mounted data_moltbot (sandbox_printing s3fs_line) initial)
      = Ok mounted
      /\ (mounted = true
          <-> exists s, Some s3fs_line = Some s /\ contains s tigrisfs).
Proof.
  split; [reflexivity|].
  exact (proj1 (verdict_iff_marker_in_stdout data_moltbot boundedPoller
                  (sandbox_printing s3fs_line) env_with_r2 initial
                  (finished (Js.lit "proc-1") (mount_command data_moltbot)
                            s3fs_line) eq_refl)
               {| stdout := Some s3fs_line; stderr := Some [] |} eq_refl).
Defined.





Lemma rejected_start_is_reported_witness :
  sb_startProcess (sandbox_rejecting command_failed) (started initial)
                  (mount_command data_moltbot) = Err command_failed
  /\ not_configured env_with_r2 = false
  /\ exists r,
      returned (syncToR2 data_moltbot boundedPoller
                         (sandbox_rejecting command_failed) env_with_r2 initial)
      = Ok r
      /\ details r = Some (Js.lit "Command failed").
Proof.
  split; [reflexivity|]. split; [reflexivity|].
  destruct (rejected_start_is_reported data_moltbot boundedPoller
              (sandbox_rejecting command_failed) env_with_r2 initial
              command_failed eq_refl eq_refl)
    as [[r [E [_ [_ D]]]] _].
  exists r. split; assumption.
Defined.

(** The value [isR2Mounted] returns when [startProcess] rejects is the
    same for every error: however a detail is read off the returned
    boolean, it cannot contain the message of every error. *)
Lemma isR2Mounted_returns_no_detail :
  ~ exists detail : bool -> Js.str,
      forall message,
        exists verdict,
          returned (isR2Mounted data_moltbot
                      (sandbox_rejecting (ErrorInstance message)) initial)
          = Ok verdict
          /\ contains (detail verdict) message.
Proof.
  intros [detail H].
  destruct (H (detail false ++ [0%N])) as [verdict [E [pre [post C]]]].
  rewrite isR2Mounted_run in E. cbn in E. injection E as <-.
  apply (f_equal (@List.length N)) in C.
  rewrite !length_app in C. cbn [List.length] in C. lia.
Qed.

Lemma detector_twice_same_verdict_witness :
  sb_startProcess (sandbox_printing tigrisfs_line) (S (started initial))
                  (mount_command data_moltbot)
  = sb_startProcess (sandbox_printing tigrisfs_line) (started initial)
                    (mount_command data_moltbot)
  /\ (let first := isR2Mounted data_moltbot (sandbox_printing tigrisfs_line)
                               initial in
      returned (isR2Mounted data_moltbot (sandbox_printing tigrisfs_line)
                            (snd first))
      = returned first).
Proof.
  split; [reflexivity|].
  exact (proj1 (proj1 (detector_twice_same_verdict data_moltbot boundedPoller
                         (sandbox_printing tigrisfs_line) env_with_r2 initial
                         eq_refl))).
Defined.

(** ** The polling debug routes *)

Lemma cli_run (sb : Sandbox) (query_cmd : option Js.str) (w : World) :
  let cmd := Js.or_else query_cmd (Js.lit "clawdbot --help") in
  cli sb query_cmd w
  = let '(response, ms, evs) :=
        cli_of cmd (sb_startProcess sb (started w) cmd) in
    (Ok response,
     {| clock := (clock w + ms)%Z; started := S (started w);
        trace := trace w ++ evs |}).
Proof.
  cbn zeta. unfold cli, cli_of, try_catch.
  set (cmd := Js.or_else query_cmd (Js.lit "clawdbot --help")).
  unfold bind at 1. unfold startProcess at 1.
  destruct (sb_startProcess sb (started w) cmd) as [p|e].
  - unfold bind at 1. rewrite sleep_then_check_run. cbn zeta.
    unfold elapsed. cbn [clock h_born h_proc]. rewrite !Z.sub_diag.
    unfold check_fetch_time.
    destruct (check_rounds 500 (proc_status p) 30 0) as [rounds busy].
    cbn [fst snd]. unfold advance. cbn [clock started trace].
    unfold bind at 1. unfold getLogs at 1. unfold elapsed.
    cbn [clock started trace h_born h_proc].
    replace (clock w + 500 * Z.of_nat rounds - clock w)%Z
      with (500 * Z.of_nat rounds)%Z by lia.
    destruct (proc_getLogs p (500 * Z.of_nat rounds)) as [logs|e].
    + unfold bind, status, exitCode, ret, elapsed.
      cbn [clock started trace h_born h_proc].
      replace (clock w + 500 * Z.of_nat rounds - clock w)%Z
        with (500 * Z.of_nat rounds)%Z by lia.
      f_equal. apply world_eq; [reflexivity | reflexivity |].
      cbn [app]. rewrite <- !app_assoc. reflexivity.
    + unfold ret. f_equal. apply world_eq; [reflexivity | reflexivity |].
      cbn [app]. rewrite <- !app_assoc. reflexivity.
  - unfold ret. f_equal. apply world_eq; [lia | reflexivity | reflexivity].
Qed.

Section ContainerConfigFacts.

Variable JSON_parse : Js.str -> Result JsonValue.

Lemma parse_or_null_run (text : Js.str) (w : World) :
  parse_or_null JSON_parse text w = (Ok (config_of JSON_parse text), w).
Proof.
  unfold parse_or_null, config_of, try_catch, settle, ret.
  destruct (JSON_parse text); reflexivity.
Qed.

Lemma container_config_run (sb : Sandbox) (w : World) :
  container_config JSON_parse sb w
  = let '(response, ms, evs) :=
        container_config_of JSON_parse
          (sb_startProcess sb (started w) config_command) in
    (Ok response,
     {| clock := (clock w + ms)%Z; started := S (started w);
        trace := trace w ++ evs |}).
Proof.
  unfold container_config, container_config_of, try_catch.
  fold config_command.
  unfold bind at 1. unfold startProcess at 1.
  destruct (sb_startProcess sb (started w) config_command) as [p|e].
  - unfold bind at 1. rewrite sleep_then_check_run. cbn zeta.
    unfold elapsed. cbn [clock h_born h_proc]. rewrite !Z.sub_diag.
    unfold check_fetch_time.
    destruct (check_rounds 200 (proc_status p) 10 0) as [rounds busy].
    cbn [fst snd]. unfold advance. cbn [clock started trace].
    unfold bind at 1. unfold getLogs at 1. unfold elapsed.
    cbn [clock started trace h_born h_proc].
    replace (clock w + 200 * Z.of_nat rounds - clock w)%Z
      with (200 * Z.of_nat rounds)%Z by lia.
    destruct (proc_getLogs p (200 * Z.of_nat rounds)) as [logs|e].
    + unfold bind at 1. rewrite parse_or_null_run.
      unfold bind, status, exitCode, ret, elapsed, raw_of.
      cbn [clock started trace h_born h_proc].
      replace (clock w + 200 * Z.of_nat rounds - clock w)%Z
        with (200 * Z.of_nat rounds)%Z by lia.
      f_equal. apply world_eq; [reflexivity | reflexivity |].
      cbn [app]. rewrite <- !app_assoc. reflexivity.
    + unfold ret. f_equal. apply world_eq; [reflexivity | reflexivity |].
      cbn [app]. rewrite <- !app_assoc. reflexivity.
  - unfold ret. f_equal. apply world_eq; [lia | reflexivity | reflexivity].
Qed.

End ContainerConfigFacts.

Lemma not_running (st : Js.str) : st <> running -> is_running st = false.
Proof.
  intros H. unfold is_running. destruct (Js.eqb st running) eqn:E.
  - apply Js_eqb_eq in E. contradiction.
  - reflexivity.
Qed.

(** C4.  In each of the three poll loops, when the first status check
    finds the process not [running], the logs are fetched right after
    that check: no timed wait (and no further check) lies between the
    two.  The mount check makes its first check straight after
    [startProcess]; /debug/cli and /debug/container-config make theirs
    after the one wait (500 ms, 200 ms) that opens each round of their
    loop, and /debug/cli then reports [attempts = 0]. *)
Theorem terminal_at_first_check_fetches_at_once
    (R2_MOUNT_PATH : Js.str) (JSON_parse : Js.str -> Result JsonValue)
    (sb : Sandbox) (w : World) :
  (forall p,
      sb_startProcess sb (started w) (mount_command R2_MOUNT_PATH) = Ok p ->
      proc_status p 0 <> running ->
      exists evs,
        trace (snd (isR2Mounted R2_MOUNT_PATH sb w)) = trace w ++ evs
        /\ until_getLogs evs
           = [EvStartProcess (mount_command R2_MOUNT_PATH);
              EvStatus (proc_id p); EvGetLogs (proc_id p)]
        /\ count_waits (from_first_status (until_getLogs evs)) = 0%nat)
  /\ (forall query_cmd p,
        let cmd := Js.or_else query_cmd (Js.lit "clawdbot --help") in
        sb_startProcess sb (started w) cmd = Ok p ->
        proc_status p 500 <> running ->
        exists evs,
          trace (snd (cli sb query_cmd w)) = trace w ++ evs
          /\ until_getLogs evs
             = [EvStartProcess cmd; EvSleep 500;
                EvStatus (proc_id p); EvGetLogs (proc_id p)]
          /\ count_waits (from_first_status (until_getLogs evs)) = 0%nat
          /\ forall logs,
              proc_getLogs p 500 = Ok logs ->
              returned (cli sb query_cmd w)
              = Ok (CliResult cmd (proc_status p 500) (proc_exitCode p 500) 0
                              (Js.or_else (stdout logs) [])
                              (Js.or_else (stderr logs) [])))
  /\ (forall p,
        sb_startProcess sb (started w) config_command = Ok p ->
        proc_status p 200 <> running ->
        exists evs,
          trace (snd (container_config JSON_parse sb w)) = trace w ++ evs
          /\ until_getLogs evs
             = [EvStartProcess config_command; EvSleep 200;
                EvStatus (proc_id p); EvGetLogs (proc_id p)]
          /\ count_waits (from_first_status (until_getLogs evs)) = 0%nat).
Proof.
  split; [|split].
  - intros p Hstart Hterm. apply not_running in Hterm.
    rewrite isR2Mounted_run, Hstart. unfold isR2Mounted_of.
    cbn [wait_count]. rewrite Hterm. cbn [wait_events].
    destruct (proc_getLogs p (isR2Mounted_fetch_time p)) as [logs|e];
      cbn [snd trace]; eexists; (split; [reflexivity|]); split; reflexivity.
  - intros query_cmd p cmd Hstart Hterm. apply not_running in Hterm.
    pose proof (cli_run sb query_cmd w) as Hrun. cbn zeta in Hrun.
    fold cmd in Hrun. rewrite Hstart in Hrun. unfold cli_of in Hrun.
    unfold check_fetch_time in Hrun. cbn [check_rounds] in Hrun.
    change (0 + 500)%Z with 500%Z in Hrun. rewrite Hterm in Hrun.
    cbn [negb fst check_events] in Hrun.
    change (500 * Z.of_nat 1)%Z with 500%Z in Hrun.
    destruct (proc_getLogs p 500) as [logs|e]; rewrite Hrun;
      cbn [snd trace]; eexists; (split; [reflexivity|]);
      (split; [reflexivity|]); (split; [reflexivity|]).
    + intros logs' E. injection E as <-. reflexivity.
    + intros logs' E. discriminate E.
  - intros p Hstart Hterm. apply not_running in Hterm.
    rewrite container_config_run, Hstart. unfold container_config_of.
    unfold check_fetch_time. cbn [check_rounds].
    change (0 + 200)%Z with 200%Z. rewrite Hterm.
    cbn [negb fst check_events].
    destruct (proc_getLogs p (200 * Z.of_nat 1)) as [logs|e];
      cbn [snd trace]; eexists; (split; [reflexivity|]); split; reflexivity.
Qed.

(** ** The container-config reader *)

(** C6.  The container-config reader never throws, whatever the sandbox
    does.  With the captured stdout in hand ([logs.stdout || '']):
    when it is not valid JSON, [config] is [null] and [raw] is that
    stdout, unchanged; [config] is other than [null] only when the
    stdout is valid JSON, and it is then the parsed value. *)
Theorem parse_failure_is_data (JSON_parse : Js.str -> Result JsonValue) :
  (forall sb w, exists response,
        returned (container_config JSON_parse sb w) = Ok response)
  /\ (forall sb w p logs,
        sb_startProcess sb (started w) config_command = Ok p ->
        proc_getLogs p (check_fetch_time 200 10 p) = Ok logs ->
        let out := Js.or_else (stdout logs) [] in
        exists st code config raw err,
          returned (container_config JSON_parse sb w)
          = Ok (ConfigResult st code config raw err)
          /\ (~ valid_json JSON_parse out -> config = JNull /\ raw = Some out)
          /\ (config <> JNull -> JSON_parse out = Ok config)).
Proof.
  split.
  - intros sb w. rewrite container_config_run.
    destruct (container_config_of JSON_parse
                (sb_startProcess sb (started w) config_command))
      as [[response ms] evs].
    exists response. reflexivity.
  - intros sb w p logs Hstart Hlogs out.
    rewrite container_config_run, Hstart. unfold container_config_of.
    rewrite Hlogs. cbn zeta. fold out.
    do 5 eexists. split; [reflexivity|]. unfold config_of, raw_of, valid_json.
    destruct (JSON_parse out) as [v|e]; split.
    + intros H. exfalso. apply H. exists v. reflexivity.
    + reflexivity.
    + intros _. split; reflexivity.
    + intros H. exfalso. apply H. reflexivity.
Qed.

Lemma parse_failure_is_data_witness :
  sb_startProcess (sandbox_printing not_json) (started initial) config_command
  = Ok (finished (Js.lit "proc-1") config_command not_json)
  /\ exists st code err,
      returned (container_config parse_literal_names
                                 (sandbox_printing not_json) initial)
      = Ok (ConfigResult st code JNull (Some not_json) err).
Proof.
  split; [reflexivity|].
  destruct (proj2 (parse_failure_is_data parse_literal_names)
              (sandbox_printing not_json) initial
              (finished (Js.lit "proc-1") config_command not_json)
              {| stdout := Some not_json; stderr := Some [] |}
              eq_refl eq_refl)
    as [st [code [config [raw [err [E [Hbad _]]]]]]].
  destruct Hbad as [-> ->].
  - intros [v Hv]. vm_compute in Hv. discriminate Hv.
  - exists st, code, err. exact E.
Defined.

(** Valid JSON that parses to [null] leaves [config] null and keeps the
    text in [raw]. *)
Example container_config_null :
  returned (container_config parse_literal_names
                             (sandbox_printing (Js.lit "null")) initial)
  = Ok (ConfigResult (Js.lit "completed") (Some 0%Z) JNull
                     (Some (Js.lit "null")) []).
Proof. vm_compute. reflexivity. Qed.

Example container_config_true :
  returned (container_config parse_literal_names
                             (sandbox_printing (Js.lit "true")) initial)
  = Ok (ConfigResult (Js.lit "completed") (Some 0%Z) (JBool true) None []).
Proof. vm_compute. reflexivity. Qed.

(** ** The process listing *)

Lemma describe_run (b : bool) (p : Process) (w : World) :
  describe b (listed (clock w) p) w
  = (Ok (describe_of b p), advance w 0 (describe_events b p)).
Proof.
  unfold describe, describe_of, describe_events.
  unfold bind at 1. unfold status at 1.
  unfold bind at 1. unfold exitCode at 1.
  unfold elapsed, listed. cbn [clock started trace h_born h_proc].
  rewrite Z.sub_diag. destruct b.
  - unfold try_catch, bind, getLogs, elapsed.
    cbn [clock started trace h_born h_proc]. rewrite Z.sub_diag.
    destruct (proc_getLogs p 0) as [logs|e]; unfold ret, advance; f_equal;
      (apply world_eq; cbn [clock started trace]; [lia | reflexivity |]);
      rewrite <- app_assoc; reflexivity.
  - unfold ret, advance. f_equal.
    apply world_eq; cbn [clock started trace]; [lia | reflexivity | reflexivity].
Qed.

Lemma promise_all_map_describe (b : bool) (ps : list Process) (w : World) :
  promise_all_map (describe b) (map (listed (clock w)) ps) w
  = (Ok (map (describe_of b) ps),
     advance w 0 (flat_map (describe_events b) ps)).
Proof.
  revert w; induction ps as [|p ps IH]; intros w.
  - cbn [map flat_map promise_all_map]. unfold ret, advance. f_equal.
    destruct w as [c k t]. apply world_eq; cbn [clock started trace];
      [lia | reflexivity | apply eq_sym, app_nil_r].
  - cbn [map flat_map promise_all_map].
    unfold bind at 1. rewrite describe_run.
    unfold bind at 1.
    replace (clock w) with (clock (advance w 0 (describe_events b p)))
      by (unfold advance; cbn [clock]; lia).
    rewrite IH. unfold ret. f_equal.
    unfold advance. apply world_eq; cbn [clock started trace];
      [lia | reflexivity | apply eq_sym, app_assoc].
Qed.

Lemma sort_insert_perm {A} (cmp : A -> A -> Z) (x : A) (l : list A) :
  Permutation (x :: l) (sort_insert cmp x l).
Proof.
  induction l as [|y l IH]; cbn [sort_insert].
  - apply Permutation_refl.
  - destruct (cmp x y <=? 0)%Z.
    + apply Permutation_refl.
    + eapply perm_trans; [apply perm_swap|]. apply perm_skip, IH.
Qed.

(** Sorting rearranges: nothing is lost, nothing is added. *)
Lemma sort_perm {A} (cmp : A -> A -> Z) (l : list A) :
  Permutation l (sort cmp l).
Proof.
  induction l as [|x l IH]; cbn [sort].
  - apply perm_nil.
  - eapply perm_trans; [apply perm_skip, IH | apply sort_insert_perm].
Qed.

Lemma processes_run (localeCompare : Js.str -> Js.str -> Z)
      (sb : Sandbox) (query_logs : option Js.str) (w : World) (ps : list Process) :
  sb_listProcesses sb = Ok ps ->
  returned (processes localeCompare sb query_logs w)
  = Ok (ProcessList (List.length ps)
          (sort (compareProcesses localeCompare)
                (map (describe_of (includeLogs_of query_logs)) ps))).
Proof.
  intros Hlist. unfold processes, try_catch.
  unfold bind at 1. unfold listProcesses at 1. rewrite Hlist.
  unfold bind at 1.
  match goal with |- context [promise_all_map _ _ ?w1] =>
    pose proof (promise_all_map_describe (includeLogs_of query_logs) ps w1)
      as Hall
  end.
  cbn [clock] in Hall. unfold listed in Hall. rewrite Hall.
  unfold ret, returned. cbn [fst].
  rewrite length_map. reflexivity.
Qed.

(** C7.  With [logs=true], a log fetch that fails for one process does
    not fail the listing: the response lists every process ([count]
    and the number of records equal the number of handles, each handle
    having its record), the record of a process whose fetch failed
    carries [logs_error] and neither [stdout] nor [stderr], and the
    record of every other process carries [stdout] and [stderr] and no
    [logs_error]. *)
Theorem log_failure_marks_one_record
    (localeCompare : Js.str -> Js.str -> Z)
    (sb : Sandbox) (w : World) (ps : list Process) :
  sb_listProcesses sb = Ok ps ->
  exists records,
    returned (processes localeCompare sb (Some (Js.lit "true")) w)
    = Ok (ProcessList (List.length ps) records)
    /\ List.length records = List.length ps
    /\ Permutation (map (describe_of true) ps) records
    /\ forall p, In p ps ->
         let record := describe_of true p in
         In record records
         /\ d_id record = proc_id p
         /\ (forall e, proc_getLogs p 0 = Err e ->
               d_logs_error record = Some (Js.lit "Failed to retrieve logs")
               /\ d_stdout record = None /\ d_stderr record = None)
         /\ (forall logs, proc_getLogs p 0 = Ok logs ->
               d_stdout record = Some (Js.or_else (stdout logs) [])
               /\ d_stderr record = Some (Js.or_else (stderr logs) [])
               /\ d_logs_error record = None).
Proof.
  intros Hlist.
  exists (sort (compareProcesses localeCompare) (map (describe_of true) ps)).
  pose proof (sort_perm (compareProcesses localeCompare)
                        (map (describe_of true) ps)) as Hperm.
  split; [exact (processes_run localeCompare sb _ w ps Hlist)|].
  split; [rewrite <- (Permutation_length Hperm); apply length_map|].
  split; [exact Hperm|].
  intros p Hin record. split.
  - eapply Permutation_in; [exact Hperm|]. apply in_map, Hin.
  - split; [unfold record, describe_of; destruct (proc_getLogs p 0); reflexivity|].
    split.
    + intros e He. unfold record, describe_of. rewrite He. repeat split.
    + intros logs Hl. unfold record, describe_of. rewrite Hl. repeat split.
Qed.

Lemma log_failure_marks_one_record_witness :
  let bad := unreadable (Js.lit "p1") (Js.lit "failed") None in
  let good := readable (Js.lit "p2") running None (Js.lit "listening") in
  sb_listProcesses (sandbox_listing [bad; good]) = Ok [bad; good]
  /\ returned (processes codeUnitCompare (sandbox_listing [bad; good])
                         (Some (Js.lit "true")) initial)
     = Ok (ProcessList 2 [describe_of true good; describe_of true bad])
  /\ d_logs_error (describe_of true bad) = Some (Js.lit "Failed to retrieve logs")
  /\ d_stdout (describe_of true good) = Some (Js.lit "listening").
Proof.
  intros bad good. split; [reflexivity|].
  destruct (log_failure_marks_one_record codeUnitCompare
              (sandbox_listing [bad; good]) initial [bad; good] eq_refl)
    as [records [E [_ [_ H]]]].
  split.
  - vm_compute. reflexivity.
  - split.
    + apply (H bad (or_introl eq_refl)) with
        (e := ErrorInstance (Js.lit "Process not found")). reflexivity.
    + apply (H good (or_intror (or_introl eq_refl))) with
        (logs := {| stdout := Some (Js.lit "listening"); stderr := None |}).
      reflexivity.
Defined.

(** ** The version endpoint *)

Lemma clawdbotVersion_of_spec (logs : Logs) :
  clawdbotVersion_of logs
  = trimmed_first_nonempty (stdout logs) (stderr logs).
Proof.
  unfold clawdbotVersion_of, trimmed_first_nonempty, Js.or_else.
  destruct (stdout logs) as [[|c s]|], (stderr logs) as [[|d e]|];
    reflexivity.
Qed.

Lemma nodeVersion_of_spec (logs : Logs) :
  nodeVersion_of logs = trimmed_first_nonempty (stdout logs) None.
Proof.
  unfold nodeVersion_of, trimmed_first_nonempty, Js.or_else.
  destruct (stdout logs) as [[|c s]|]; reflexivity.
Qed.

(** C8, as the code has it.  In the response of the version endpoint,
    [clawdbot_version] is the trimmed first non-empty stream among the
    stdout and stderr of [clawdbot --version], stdout first, and the
    empty string when both are empty; [node_version] is the trimmed
    stdout of [node --version] when that is non-empty and the empty
    string otherwise, its stderr not being looked at. *)
Theorem version_extraction
    (sb : Sandbox) (w : World) (p1 p2 : Process) (logs1 logs2 : Logs) :
  sb_startProcess sb (started w) (Js.lit "clawdbot --version") = Ok p1 ->
  proc_getLogs p1 500 = Ok logs1 ->
  sb_startProcess sb (S (started w)) (Js.lit "node --version") = Ok p2 ->
  proc_getLogs p2 500 = Ok logs2 ->
  returned (version sb w)
  = Ok (VersionInfo
          (trimmed_first_nonempty (stdout logs1) (stderr logs1))
          (trimmed_first_nonempty (stdout logs2) None)).
Proof.
  intros Hs1 Hl1 Hs2 Hl2.
  rewrite <- clawdbotVersion_of_spec, <- nodeVersion_of_spec.
  unfold version, try_catch.
  unfold bind at 1. unfold startProcess at 1. rewrite Hs1.
  unfold bind at 1. unfold sleep at 1.
  unfold bind at 1. unfold getLogs at 1. unfold elapsed at 1.
  cbn [clock started trace h_born h_proc].
  replace (clock w + 500 - clock w)%Z with 500%Z by lia. rewrite Hl1.
  unfold bind at 1. unfold startProcess at 1.
  cbn [clock started trace]. rewrite Hs2.
  unfold bind at 1. unfold sleep at 1.
  unfold bind at 1. unfold getLogs at 1. unfold elapsed at 1.
  cbn [clock started trace h_born h_proc].
  replace (clock w + 500 + 500 - (clock w + 500))%Z with 500%Z by lia.
  rewrite Hl2. reflexivity.
Qed.

Lemma version_extraction_witness :
  sb_startProcess (sandbox_printing node_banner) (started initial)
                  (Js.lit "clawdbot --version")
  = Ok (finished (Js.lit "proc-1") (Js.lit "clawdbot --version") node_banner)
  /\ returned (version (sandbox_printing node_banner) initial)
     = Ok (VersionInfo (Js.lit "v20.11.0") (Js.lit "v20.11.0")).
Proof.
  split; [reflexivity|].
  exact (version_extraction (sandbox_printing node_banner) initial
           (finished (Js.lit "proc-1") (Js.lit "clawdbot --version") node_banner)
           (finished (Js.lit "proc-1") (Js.lit "node --version") node_banner)
           {| stdout := Some node_banner; stderr := Some [] |}
           {| stdout := Some node_banner; stderr := Some [] |}
           eq_refl eq_refl eq_refl eq_refl).
Defined.

(** With the version banner on stderr only, the endpoint answers with
    the banner as [clawdbot_version] and with the empty string as
    [node_version], which is not the trimmed first non-empty stream of
    [node --version]. *)
Lemma node_version_ignores_stderr :
  returned (version (sandbox_printing_stderr node_banner) initial)
  = Ok (VersionInfo (Js.lit "v20.11.0") [])
  /\ trimmed_first_nonempty (Some []) (Some node_banner) = Js.lit "v20.11.0"
  /\ ([] : Js.str) <> trimmed_first_nonempty (Some []) (Some node_banner).
Proof.
  split; [vm_compute; reflexivity|].
  split; [vm_compute; reflexivity|].
  vm_compute. discriminate.
Qed.

(** ** Sorting *)

Section SortFacts.

Variable A : Type.
Variable cmp : A -> A -> Z.

(** The elements on which [cmp] is known to be a consistent
    comparator. *)
Variable dom : A -> Prop.

Local Abbreviation le := (fun a b => (cmp a b <= 0)%Z).

Hypothesis cmp_total :
  forall a b, dom a -> dom b -> (cmp a b <= 0)%Z \/ (cmp b a <= 0)%Z.
Hypothesis cmp_trans :
  forall a b c, dom a -> dom b -> dom c ->
                (cmp a b <= 0)%Z -> (cmp b c <= 0)%Z -> (cmp a c <= 0)%Z.

Lemma sort_insert_hd (x y : A) (l : list A) :
  le y x -> HdRel le y l -> HdRel le y (sort_insert cmp x l).
Proof.
  intros Hyx Hhd. destruct l as [|z l]; cbn [sort_insert].
  - constructor. exact Hyx.
  - destruct (cmp x z <=? 0)%Z; constructor.
    + exact Hyx.
    + inversion Hhd; assumption.
Qed.

Lemma sort_insert_sorted (x : A) (l : list A) :
  dom x -> Forall dom l -> Sorted le l -> Sorted le (sort_insert cmp x l).
Proof.
  intros Dx Dl Hs. induction Hs as [|y l Hs IH Hhd]; cbn [sort_insert].
  - repeat constructor.
  - apply Forall_cons_iff in Dl. destruct Dl as [Dy Dl].
    destruct (cmp x y <=? 0)%Z eqn:E.
    + apply Z.leb_le in E. repeat constructor; assumption.
    + apply Z.leb_gt in E. constructor; [exact (IH Dl)|].
      apply sort_insert_hd; [|exact Hhd].
      destruct (cmp_total y x Dy Dx) as [H|H]; [exact H | cbv beta in *; lia].
Qed.

Lemma sort_dom (l : list A) : Forall dom l -> Forall dom (sort cmp l).
Proof. intros H. exact (Permutation_Forall (sort_perm cmp l) H). Qed.

Lemma sort_sorted (l : list A) : Forall dom l -> Sorted le (sort cmp l).
Proof.
  induction l as [|x l IH]; cbn [sort]; intros Dl.
  - constructor.
  - apply Forall_cons_iff in Dl. destruct Dl as [Dx Dl].
    apply sort_insert_sorted; [exact Dx | apply sort_dom, Dl | apply IH, Dl].
Qed.

Lemma Sorted_StronglySorted_on (l : list A) :
  Forall dom l -> Sorted le l -> StronglySorted le l.
Proof.
  intros Dl Hs. induction Hs as [|a l Hs IH Hhd]; [constructor|].
  apply Forall_cons_iff in Dl. destruct Dl as [Da Dl].
  specialize (IH Dl). constructor; [exact IH|].
  destruct Hhd as [|b l Hab]; [constructor|].
  apply StronglySorted_inv in IH. destruct IH as [_ Hall].
  apply Forall_cons_iff in Dl. destruct Dl as [Db Dl].
  constructor; [exact Hab|].
  rewrite Forall_forall in *. intros c Hc.
  apply (cmp_trans a b c Da Db (Dl c Hc) Hab (Hall c Hc)).
Qed.

Lemma sort_strongly_sorted (l : list A) :
  Forall dom l -> StronglySorted le (sort cmp l).
Proof.
  intros Dl. apply Sorted_StronglySorted_on; [apply sort_dom, Dl|].
  apply sort_sorted, Dl.
Qed.

End SortFacts.

Section Stability.

Variable A : Type.
Variable cmp : A -> A -> Z.
Variable dom : A -> Prop.
Variable P : A -> bool.

(** Any two elements picked out by [P] compare equal or in order. *)
Hypothesis P_tied :
  forall a b, dom a -> dom b -> P a = true -> P b = true -> (cmp a b <= 0)%Z.

Lemma sort_insert_filter (x : A) (l : list A) :
  dom x -> Forall dom l ->
  filter P (sort_insert cmp x l) = filter P (x :: l).
Proof.
  intros Dx Dl.
  induction l as [|y l IH]; cbn [sort_insert]; [reflexivity|].
  apply Forall_cons_iff in Dl. destruct Dl as [Dy Dl]. specialize (IH Dl).
  destruct (cmp x y <=? 0)%Z eqn:E; [reflexivity|].
  apply Z.leb_gt in E. cbn [filter] in *.
  destruct (P y) eqn:Py.
  - destruct (P x) eqn:Px.
    + pose proof (P_tied x y Dx Dy Px Py). lia.
    + rewrite IH. reflexivity.
  - exact IH.
Qed.

(** The elements picked out by [P] leave the sort in the order in which
    they entered it. *)
Lemma sort_filter (l : list A) :
  Forall dom l -> filter P (sort cmp l) = filter P l.
Proof.
  induction l as [|x l IH]; cbn [sort]; intros Dl; [reflexivity|].
  apply Forall_cons_iff in Dl. destruct Dl as [Dx Dl].
  rewrite sort_insert_filter;
    [| exact Dx | exact (Permutation_Forall (sort_perm cmp l) Dl)].
  cbn [filter]. rewrite (IH Dl). reflexivity.
Qed.

End Stability.

Section StableSortIsUnique.

Variable A : Type.
Variable cmp : A -> A -> Z.
Variable dom : A -> Prop.

Local Abbreviation le := (fun a b => (cmp a b <= 0)%Z).

(** [cmp] is a consistent comparator on [dom]. *)
Hypothesis cmp_flip :
  forall a b, dom a -> dom b -> Z.sgn (cmp a b) = (- Z.sgn (cmp b a))%Z.
Hypothesis cmp_trans :
  forall a b c, dom a -> dom b -> dom c ->
                (cmp a b <= 0)%Z -> (cmp b c <= 0)%Z -> (cmp a c <= 0)%Z.

Lemma cmp_refl (a : A) : dom a -> cmp a a = 0%Z.
Proof.
  intros Da. pose proof (cmp_flip a a Da Da) as H.
  destruct (cmp a a); cbn [Z.sgn Z.opp] in H;
    [reflexivity | discriminate H | discriminate H].
Qed.

Lemma cmp_sym (a b : A) : dom a -> dom b -> cmp a b = 0%Z -> cmp b a = 0%Z.
Proof.
  intros Da Db H. pose proof (cmp_flip b a Db Da) as F. rewrite H in F.
  destruct (cmp b a); cbn [Z.sgn Z.opp] in F;
    [reflexivity | discriminate F | discriminate F].
Qed.

Lemma cmp_total_of_flip (a b : A) :
  dom a -> dom b -> (cmp a b <= 0)%Z \/ (cmp b a <= 0)%Z.
Proof.
  intros Da Db. pose proof (cmp_flip a b Da Db) as F.
  destruct (cmp a b) eqn:E; [left; lia | right | left; lia].
  destruct (cmp b a); cbn [Z.sgn Z.opp] in F; [discriminate F | discriminate F | lia].
Qed.

Lemma cmp_both_le (a b : A) :
  dom a -> dom b -> (cmp a b <= 0)%Z -> (cmp b a <= 0)%Z -> cmp a b = 0%Z.
Proof.
  intros Da Db H1 H2. pose proof (cmp_flip a b Da Db) as F.
  destruct (cmp a b); [reflexivity | lia |].
  destruct (cmp b a); cbn [Z.sgn Z.opp] in F; [discriminate F | lia | discriminate F].
Qed.

Lemma tied_refl (a : A) : dom a -> tied cmp a a = true.
Proof. intros Da. unfold tied. rewrite (cmp_refl a Da). reflexivity. Qed.

Lemma tied_sym (a b : A) : dom a -> dom b -> tied cmp a b = tied cmp b a.
Proof.
  intros Da Db.
  unfold tied. destruct (cmp a b =? 0)%Z eqn:E1, (cmp b a =? 0)%Z eqn:E2;
    try reflexivity.
  - apply Z.eqb_eq in E1. apply (cmp_sym _ _ Da Db) in E1.
    apply Z.eqb_neq in E2. contradiction.
  - apply Z.eqb_eq in E2. apply (cmp_sym _ _ Db Da) in E2.
    apply Z.eqb_neq in E1. contradiction.
Qed.

Lemma tied_le (x a b : A) :
  dom x -> dom a -> dom b ->
  tied cmp x a = true -> tied cmp x b = true -> (cmp a b <= 0)%Z.
Proof.
  unfold tied. intros Dx Da Db Ha Hb. apply Z.eqb_eq in Ha, Hb.
  apply (cmp_trans a x b Da Dx Db); [|lia].
  rewrite (cmp_sym _ _ Dx Da Ha). lia.
Qed.

Lemma filter_head_in (P : A -> bool) (l r : list A) (a : A) :
  filter P l = a :: r -> In a l.
Proof.
  intros H. assert (Hin : In a (filter P l)) by (rewrite H; left; reflexivity).
  apply filter_In in Hin. apply Hin.
Qed.

(** Two sorted lists in which tied elements come in the same order are
    the same list. *)
Lemma sorted_stable_unique (l1 l2 : list A) :
  Forall dom l1 -> Forall dom l2 ->
  StronglySorted le l1 -> StronglySorted le l2 ->
  (forall x, dom x -> filter (tied cmp x) l1 = filter (tied cmp x) l2) ->
  l1 = l2.
Proof.
  revert l2; induction l1 as [|a l1 IH]; intros [|b l2] D1 D2 S1 S2 H.
  - reflexivity.
  - apply Forall_cons_iff in D2. destruct D2 as [Db D2].
    specialize (H b Db). cbn [filter] in H.
    rewrite (tied_refl b Db) in H. discriminate H.
  - apply Forall_cons_iff in D1. destruct D1 as [Da D1].
    specialize (H a Da). cbn [filter] in H.
    rewrite (tied_refl a Da) in H. discriminate H.
  - apply Forall_cons_iff in D1, D2.
    destruct D1 as [Da D1], D2 as [Db D2].
    apply StronglySorted_inv in S1, S2.
    destruct S1 as [S1 F1], S2 as [S2 F2].
    rewrite Forall_forall in F1, F2.
    assert (Hab : a = b).
    { pose proof (H a Da) as Ha. pose proof (H b Db) as Hb.
      cbn [filter] in Ha, Hb.
      rewrite (tied_refl a Da) in Ha. rewrite (tied_refl b Db) in Hb.
      rewrite (tied_sym b a Db Da) in Hb.
      destruct (tied cmp a b) eqn:T.
      - injection Ha as Ha _. exact Ha.
      - symmetry in Ha. apply filter_head_in in Ha.
        apply filter_head_in in Hb.
        pose proof (cmp_both_le a b Da Db (F1 b Hb) (F2 a Ha)) as Z0.
        unfold tied in T. rewrite Z0 in T. discriminate T. }
    subst b. f_equal. apply IH; [exact D1 | exact D2 | exact S1 | exact S2 |].
    intros x Dx. specialize (H x Dx). cbn [filter] in H.
    destruct (tied cmp x a); [injection H as H; exact H | exact H].
Qed.

(** Whatever algorithm [Array.prototype.sort] runs, a result that is
    sorted and stable is the one [sort] computes. *)
Lemma sort_is_the_stable_sort (l out : list A) :
  Forall dom l -> Forall dom out ->
  StronglySorted le out ->
  (forall x, dom x -> filter (tied cmp x) out = filter (tied cmp x) l) ->
  out = sort cmp l.
Proof.
  intros Dl Dout Hs Hst. apply sorted_stable_unique.
  - exact Dout.
  - exact (Permutation_Forall (sort_perm cmp l) Dl).
  - exact Hs.
  - apply (sort_strongly_sorted A cmp dom);
      [apply cmp_total_of_flip | exact cmp_trans | exact Dl].
  - intros x Dx. rewrite (Hst x Dx). symmetry.
    apply (sort_filter A cmp dom); [|exact Dl].
    intros a b Da Db. apply (tied_le x a b Dx Da Db).
Qed.

End StableSortIsUnique.

Lemma StronglySorted_pair {A} (R : A -> A -> Prop) (l1 l2 l3 : list A) (a b : A) :
  StronglySorted R (l1 ++ a :: l2 ++ b :: l3) -> R a b.
Proof.
  induction l1 as [|c l1 IH]; cbn [app]; intros H;
    apply StronglySorted_inv in H; destruct H as [Hs Hall].
  - rewrite Forall_forall in Hall. apply Hall, in_elt.
  - apply IH, Hs.
Qed.

(** ** The order of the process listing *)

Lemma inherited_lit_false (st : Js.str) (k : string) :
  inherited (Js.lit k) = false -> inherited st = true ->
  Js.eqb st (Js.lit k) = false.
Proof.
  intros Hk Hst. destruct (Js.eqb st (Js.lit k)) eqn:E; [|reflexivity].
  apply Js_eqb_eq in E. subst st. congruence.
Qed.

(** A status that names a member of [Object.prototype] is ranked by
    that member, not by a number. *)
Lemma statusRank_inherited (st : Js.str) :
  inherited st = true -> statusRank st = VInherited st.
Proof.
  intros H. unfold statusRank, lookup, statusOrder. cbn [getOwnProperty].
  rewrite (inherited_lit_false st "running" eq_refl H),
          (inherited_lit_false st "starting" eq_refl H),
          (inherited_lit_false st "completed" eq_refl H),
          (inherited_lit_false st "failed" eq_refl H), H.
  reflexivity.
Qed.

(** Every other status is ranked by a number between 0 and 99. *)
Lemma statusRank_number (st : Js.str) :
  inherited st = false ->
  exists n, statusRank st = VNumber n /\ (0 <= n <= 99)%Z.
Proof.
  intros H. unfold statusRank, lookup, statusOrder. cbn [getOwnProperty].
  rewrite H.
  repeat match goal with
         | |- context [Js.eqb st ?k] => destruct (Js.eqb st k)
         end; eexists; (split; [reflexivity | lia]).
Qed.


Lemma statusRank_zero (st : Js.str) :
  statusRank st = VNumber 0 -> st = running.
Proof.
  unfold statusRank, lookup, statusOrder. cbn [getOwnProperty].
  destruct (Js.eqb st (Js.lit "running")) eqn:E.
  - intros _. apply Js_eqb_eq, E.
  - repeat match goal with
           | |- context [Js.eqb st ?k] => destruct (Js.eqb st k)
           end; try discriminate.
    destruct (inherited st); discriminate.
Qed.

Lemma statusRank_known (st : Js.str) (n : Z) :
  statusRank st = VNumber n -> (n < 99)%Z ->
  st = Js.lit "running" \/ st = Js.lit "starting"
  \/ st = Js.lit "completed" \/ st = Js.lit "failed".
Proof.
  unfold statusRank, lookup, statusOrder. cbn [getOwnProperty].
  destruct (Js.eqb st (Js.lit "running")) eqn:E1;
    [intros _ _; left; apply Js_eqb_eq, E1|].
  destruct (Js.eqb st (Js.lit "starting")) eqn:E2;
    [intros _ _; right; left; apply Js_eqb_eq, E2|].
  destruct (Js.eqb st (Js.lit "completed")) eqn:E3;
    [intros _ _; right; right; left; apply Js_eqb_eq, E3|].
  destruct (Js.eqb st (Js.lit "failed")) eqn:E4;
    [intros _ _; right; right; right; apply Js_eqb_eq, E4|].
  destruct (inherited st); [discriminate|].
  intros H. injection H as <-. lia.
Qed.

Lemma strict_neq_refl (v : Value) : strict_neq v v = false.
Proof.
  destruct v; cbn [strict_neq].
  - rewrite Z.eqb_refl. reflexivity.
  - rewrite Js_eqb_refl. reflexivity.
Qed.

Lemma strict_neq_false (u v : Value) : strict_neq u v = false -> u = v.
Proof.
  destruct u as [x|m], v as [y|n]; cbn [strict_neq]; try discriminate;
    intros H; apply negb_false_iff in H.
  - apply Z.eqb_eq in H. congruence.
  - apply Js_eqb_eq in H. congruence.
Qed.

Lemma strict_neq_true (u v : Value) : strict_neq u v = true -> u <> v.
Proof.
  intros H E. subst v. rewrite strict_neq_refl in H. discriminate H.
Qed.

Lemma strict_neq_sym (u v : Value) : strict_neq u v = strict_neq v u.
Proof.
  destruct (strict_neq u v) eqn:E1, (strict_neq v u) eqn:E2; try reflexivity.
  - apply strict_neq_false in E2. apply strict_neq_true in E1. congruence.
  - apply strict_neq_false in E1. apply strict_neq_true in E2. congruence.
Qed.




Section ListingOrder.

Variable localeCompare : Js.str -> Js.str -> Z.

(** [localeCompare] is a consistent comparator, as ECMAScript requires:
    swapping the operands flips the sign, and the order is transitive. *)
Hypothesis localeCompare_flip :
  forall a b, Z.sgn (localeCompare a b) = (- Z.sgn (localeCompare b a))%Z.
Hypothesis localeCompare_trans :
  forall a b c, (localeCompare a b <= 0)%Z -> (localeCompare b c <= 0)%Z ->
                (localeCompare a c <= 0)%Z.

Local Abbreviation cmp := (compareProcesses localeCompare).


(** On two records whose statuses name no member of [Object.prototype]
    the comparator subtracts two numbers or compares the start
    times. *)
Lemma compareProcesses_plain (a b : ProcessData) :
  plain a -> plain b ->
  exists x y,
    rank_key a = VNumber x /\ rank_key b = VNumber y
    /\ comparator localeCompare a b
       = Finite (if negb (x =? y)%Z then (x - y)%Z
                 else localeCompare (time_key b) (time_key a)).
Proof.
  intros Pa Pb.
  destruct (statusRank_number _ Pa) as [x [Hx _]].
  destruct (statusRank_number _ Pb) as [y [Hy _]].
  exists x, y. unfold rank_key, comparator, time_key.
  rewrite Hx, Hy. cbn [strict_neq minus].
  split; [reflexivity|]. split; [reflexivity|].
  destruct (negb (x =? y)%Z); reflexivity.
Qed.

Lemma compareProcesses_le (a b : ProcessData) :
  plain a -> plain b ->
  (cmp a b <= 0)%Z <-> listed_before localeCompare a b.
Proof.
  intros Pa Pb.
  destruct (compareProcesses_plain a b Pa Pb) as [x [y [Hx [Hy Hc]]]].
  unfold compareProcesses, listed_before. rewrite Hc, Hx, Hy.
  cbn [sortOrder rank_below].
  destruct (x =? y)%Z eqn:E; cbn [negb].
  - apply Z.eqb_eq in E. subst y. split.
    + intros H. right. split; [reflexivity | exact H].
    + intros [H | [_ H]]; [lia | exact H].
  - apply Z.eqb_neq in E. split.
    + intros H. left. lia.
    + intros [H | [H _]]; [lia | congruence].
Qed.

(** Swapping the operands flips the sign, whatever the statuses: a NaN
    result is one in both directions. *)
Lemma compareProcesses_flip (a b : ProcessData) :
  Z.sgn (cmp a b) = (- Z.sgn (cmp b a))%Z.
Proof.
  unfold compareProcesses, comparator.
  rewrite (strict_neq_sym (statusRank (d_status b))).
  destruct (strict_neq (statusRank (d_status a)) (statusRank (d_status b))).
  - destruct (statusRank (d_status a)) as [x|m],
             (statusRank (d_status b)) as [y|n];
      cbn [minus sortOrder]; try reflexivity.
    replace (x - y)%Z with (- (y - x))%Z by lia. apply Z.sgn_opp.
  - cbn [sortOrder]. apply localeCompare_flip.
Qed.

Lemma compareProcesses_total (a b : ProcessData) :
  (cmp a b <= 0)%Z \/ (cmp b a <= 0)%Z.
Proof.
  pose proof (compareProcesses_flip a b) as F.
  destruct (cmp a b) eqn:E; [left; lia | right | left; lia].
  destruct (cmp b a); cbn [Z.sgn Z.opp] in F;
    [discriminate F | discriminate F | lia].
Qed.

Lemma compareProcesses_trans (a b c : ProcessData) :
  plain a -> plain b -> plain c ->
  (cmp a b <= 0)%Z -> (cmp b c <= 0)%Z -> (cmp a c <= 0)%Z.
Proof.
  intros Pa Pb Pc.
  rewrite (compareProcesses_le a b Pa Pb), (compareProcesses_le b c Pb Pc),
          (compareProcesses_le a c Pa Pc).
  unfold listed_before, rank_key.
  destruct (statusRank_number _ Pa) as [x [-> _]].
  destruct (statusRank_number _ Pb) as [y [-> _]].
  destruct (statusRank_number _ Pc) as [z [-> _]].
  cbn [rank_below].
  intros [H1 | [H1 T1]] [H2 | [H2 T2]].
  - left. lia.
  - left. injection H2 as <-. exact H1.
  - left. injection H1 as ->. exact H2.
  - right. split; [congruence|].
    apply localeCompare_trans with (b := time_key b); assumption.
Qed.


Lemma describe_of_startTime (includeLogs : bool) (p : Process) :
  d_startTime (describe_of includeLogs p) = proc_startTime p.
Proof.
  unfold describe_of. destruct includeLogs; [|reflexivity].
  destruct (proc_getLogs p 0); reflexivity.
Qed.

(** The listing of records whose statuses name no member of
    [Object.prototype] is sorted by the comparator. *)
Lemma listing_sorted (records : list ProcessData) :
  Forall plain records ->
  StronglySorted (listed_before localeCompare) (sort cmp records).
Proof.
  intros Hplain.
  pose proof (sort_strongly_sorted _ cmp plain
                (fun a b _ _ => compareProcesses_total a b)
                compareProcesses_trans records Hplain) as H.
  pose proof (sort_dom _ cmp plain records Hplain) as D.
  induction H as [|a l Hs IH Hall]; constructor.
  - apply IH. apply Forall_cons_iff in D. apply D.
  - apply Forall_cons_iff in D. destruct D as [Da D].
    rewrite Forall_forall in *. intros b Hb.
    apply (compareProcesses_le a b Da (D b Hb)), Hall, Hb.
Qed.

(** The order of such a listing does not depend on how the runtime
    sorts: every arrangement of the records that is sorted by the
    comparator and keeps tied records in input order is the one [sort]
    yields. *)
Lemma listing_order_is_forced (records out : list ProcessData) :
  Forall plain records -> Forall plain out ->
  StronglySorted (fun a b => (cmp a b <= 0)%Z) out ->
  (forall x, plain x ->
             filter (tied cmp x) out = filter (tied cmp x) records) ->
  out = sort cmp records.
Proof.
  apply (sort_is_the_stable_sort _ cmp plain).
  - intros a b _ _. apply compareProcesses_flip.
  - exact compareProcesses_trans.
Qed.


End ListingOrder.

(** ** Comparison by code units is a comparator of the required kind *)

Lemma codeUnitCompare_flip (a b : Js.str) :
  Z.sgn (codeUnitCompare a b) = (- Z.sgn (codeUnitCompare b a))%Z.
Proof.
  revert b; induction a as [|c a IH]; intros [|d b]; cbn [codeUnitCompare];
    try reflexivity.
  rewrite (N.compare_antisym c d).
  destruct (N.compare c d); cbn [CompOpp]; [apply IH | reflexivity | reflexivity].
Qed.

Lemma codeUnitCompare_trans (a b c : Js.str) :
  (codeUnitCompare a b <= 0)%Z -> (codeUnitCompare b c <= 0)%Z ->
  (codeUnitCompare a c <= 0)%Z.
Proof.
  revert b c; induction a as [|x a IH]; intros [|y b] [|z c];
    cbn [codeUnitCompare]; try lia.
  destruct (N.compare_spec x y), (N.compare_spec y z), (N.compare_spec x z);
    subst; try lia.
  apply IH.
Qed.


Example mixed_listing_sorted :
  match returned (processes codeUnitCompare (sandbox_listing mixed_listing)
                            None initial) with
  | Ok (ProcessList count records) =>
      count = 8%nat
      /\ map d_id records
         = map Js.lit ["p5"; "p3"; "p7"; "p2"; "p8"; "p6"; "p1"; "p4"]%string
  | _ => False
  end.
Proof. vm_compute. split; reflexivity. Qed.

Lemma mixed_listing_plain :
  Forall plain (map (describe_of false) mixed_listing).
Proof. repeat constructor. Qed.


(** ** A status that names a member of [Object.prototype] *)


Lemma filter_all {A} (P : A -> bool) (l : list A) :
  Forall (fun x => P x = true) l -> filter P l = l.
Proof.
  induction 1 as [|x l Hx _ IH]; cbn [filter]; [reflexivity|].
  rewrite Hx, IH. reflexivity.
Qed.

(** That order is not left to the implementation: the two records tie
    in both directions, so any arrangement of them that keeps tied
    records in input order is the listed one. *)
Lemma inherited_listing_order_is_forced (out : list ProcessData) :
  let records := map (describe_of false) inherited_listing in
  Forall (fun x => In x records) out ->
  (forall x, In x records ->
             filter (tied (compareProcesses codeUnitCompare) x) out
             = filter (tied (compareProcesses codeUnitCompare) x) records) ->
  out = records.
Proof.
  intros records Hin Hstable.
  specialize (Hstable (describe_of false (nth 0 inherited_listing (finished [] [] [])))
                      (or_introl eq_refl)).
  rewrite (filter_all _ out) in Hstable; [exact Hstable|].
  eapply Forall_impl; [|exact Hin].
  intros x [<- | [<- | []]]; vm_compute; reflexivity.
Qed.

(** Through such a status the comparator is not transitive: a [failed]
    record ties with a [constructor] one, which ties with a [running]
    one, and yet [failed] compares above [running]. *)
Example comparator_not_transitive :
  let failed := describe_of false (unreadable (Js.lit "p1") (Js.lit "failed") None) in
  let constructor :=
    describe_of false (unreadable (Js.lit "p2") (Js.lit "constructor") None) in
  let running := describe_of false (unreadable (Js.lit "p3") running None) in
  compareProcesses codeUnitCompare failed constructor = 0%Z
  /\ compareProcesses codeUnitCompare constructor running = 0%Z
  /\ compareProcesses codeUnitCompare failed running = 3%Z.
Proof. vm_compute. repeat split. Qed.

(** Two records of one such status are still ordered by start time. *)
Example inherited_status_ordered_by_time :
  let older := unreadable (Js.lit "p1") (Js.lit "toString") (jan "01") in
  let newer := unreadable (Js.lit "p2") (Js.lit "toString") (jan "02") in
  returned (processes codeUnitCompare (sandbox_listing [older; newer])
                      None initial)
  = Ok (ProcessList 2 [describe_of false newer; describe_of false older]).
Proof. vm_compute. reflexivity. Qed.

(** ** The poll loops on a process that has already finished *)

Lemma completed_not_running : Js.lit "completed" <> running.
Proof. intros H. vm_compute in H. discriminate H. Qed.

Lemma terminal_at_first_check_fetches_at_once_witness :
  let cmd := Js.lit "clawdbot --help" in
  let p := finished (Js.lit "proc-1") cmd (Js.lit "usage") in
  sb_startProcess (sandbox_printing (Js.lit "usage")) (started initial) cmd = Ok p
  /\ proc_status p 500 <> running
  /\ returned (cli (sandbox_printing (Js.lit "usage")) None initial)
     = Ok (CliResult cmd (Js.lit "completed") (Some 0%Z) 0 (Js.lit "usage") []).
Proof.
  intros cmd p.
  split; [reflexivity|]. split; [exact completed_not_running|].
  destruct (proj1 (proj2 (terminal_at_first_check_fetches_at_once
                            data_moltbot parse_literal_names
                            (sandbox_printing (Js.lit "usage")) initial))
                  None p eq_refl completed_not_running)
    as [evs [_ [_ [_ Hret]]]].
  exact (Hret {| stdout := Some (Js.lit "usage"); stderr := Some [] |} eq_refl).
Defined.

Example isR2Mounted_events_finished :
  events (isR2Mounted data_moltbot (sandbox_printing tigrisfs_line) initial)
  = [EvStartProcess (mount_command data_moltbot);
     EvStatus (Js.lit "proc-1"); EvGetLogs (Js.lit "proc-1");
     log_check {| stdout := Some tigrisfs_line; stderr := Some [] |}].
Proof. vm_compute. reflexivity. Qed.

Example cli_events_finished :
  events (cli (sandbox_printing (Js.lit "usage")) None initial)
  = [EvStartProcess (Js.lit "clawdbot --help"); EvSleep 500;
     EvStatus (Js.lit "proc-1"); EvGetLogs (Js.lit "proc-1");
     EvStatus (Js.lit "proc-1")].
Proof. vm_compute. reflexivity. Qed.

Example container_config_events_finished :
  events (container_config parse_literal_names
                           (sandbox_printing (Js.lit "null")) initial)
  = [EvStartProcess config_command; EvSleep 200;
     EvStatus (Js.lit "proc-1"); EvGetLogs (Js.lit "proc-1");
     EvStatus (Js.lit "proc-1")].
Proof. vm_compute. reflexivity. Qed.

(* ================================================================== *)
(** * Further properties of the gateway *)
(* ================================================================== *)

Lemma count_app (f : Event -> bool) (a b : list Event) :
  count f (a ++ b) = (count f a + count f b)%nat.
Proof. unfold count. rewrite filter_app, length_app. reflexivity. Qed.

Lemma count_waits_app (a b : list Event) :
  count_waits (a ++ b) = (count_waits a + count_waits b)%nat.
Proof. unfold count_waits. rewrite filter_app, length_app. reflexivity. Qed.

Lemma wait_count_le (seen : Z -> Js.str) (n : nat) (t : Z) :
  (wait_count seen n t <= n)%nat.
Proof.
  revert t; induction n as [|n IH]; intros t; cbn [wait_count]; [lia|].
  destruct (is_running (seen t)); [|lia].
  specialize (IH (t + 200)%Z). lia.
Qed.

Lemma wait_events_counts (pid : Js.str) (k : nat) :
  count_waits (wait_events pid k) = k
  /\ count is_start (wait_events pid k) = 0%nat
  /\ count is_fetch (wait_events pid k) = 0%nat
  /\ count is_status_read (wait_events pid k) = S k.
Proof.
  unfold count_waits, count.
  induction k as [|k [H1 [H2 [H3 H4]]]]; cbn [wait_events filter timed_wait
    is_start is_fetch is_status_read List.length].
  - repeat split.
  - rewrite H1, H2, H3, H4. repeat split.
Qed.

(** The loop of [isR2Mounted] waits until the first check that does not
    find [running], and for [n] rounds at most. *)
Lemma wait_count_first_stop (seen : Z -> Js.str) (n k : nat) (t : Z) :
  (k <= n)%nat ->
  (forall j, (j < k)%nat -> seen (t + 200 * Z.of_nat j)%Z = running) ->
  (k = n \/ seen (t + 200 * Z.of_nat k)%Z <> running) ->
  wait_count seen n t = k.
Proof.
  revert k t; induction n as [|n IH]; intros k t Hk Hrun Hstop.
  - cbn [wait_count]. lia.
  - cbn [wait_count]. destruct k as [|k].
    + destruct Hstop as [H | H]; [discriminate H|].
      replace (t + 200 * Z.of_nat 0)%Z with t in H by lia.
      rewrite (not_running _ H). reflexivity.
    + pose proof (Hrun 0%nat ltac:(lia)) as H0.
      replace (t + 200 * Z.of_nat 0)%Z with t in H0 by lia.
      unfold is_running. rewrite H0, Js_eqb_refl. f_equal.
      apply IH.
      * lia.
      * intros j Hj. specialize (Hrun (S j) ltac:(lia)).
        replace (t + 200 + 200 * Z.of_nat j)%Z
          with (t + 200 * Z.of_nat (S j))%Z by lia.
        exact Hrun.
      * destruct Hstop as [H | H]; [left; lia | right].
        replace (t + 200 + 200 * Z.of_nat k)%Z
          with (t + 200 * Z.of_nat (S k))%Z by lia.
        exact H.
Qed.

Section GatewayMore.

Variable R2_MOUNT_PATH : Js.str.
Variable waitForProcess : (Z -> Js.str) -> Z -> Z * Result unit.

Local Abbreviation cmd := (mount_command R2_MOUNT_PATH).

(** One call of [mountR2Storage] with the credentials in place. *)
Lemma mountR2Storage_run (sb : Sandbox) (env : MoltbotEnv) (w : World) :
  not_configured env = false ->
  mountR2Storage R2_MOUNT_PATH sb env w
  = let '(verdict, ms, evs) :=
        isR2Mounted_of cmd (sb_startProcess sb (started w) cmd) in
    (Ok verdict,
     {| clock := (clock w + ms)%Z; started := S (started w);
        trace := trace w ++ evs ++ [log_mount R2_MOUNT_PATH verdict] |}).
Proof.
  intros Hcfg. unfold mountR2Storage. rewrite Hcfg. unfold bind at 1.
  rewrite isR2Mounted_run.
  destruct (isR2Mounted_of cmd (sb_startProcess sb (started w) cmd))
    as [[verdict ms] evs].
  destruct verdict; unfold bind, console_log, emit, ret, log_mount;
    cbn [clock started trace]; rewrite <- app_assoc; reflexivity.
Qed.

(** X1.  Whatever the sandbox does, one call of [isR2Mounted] starts one
    process, fetches logs at most once, and waits at most ten times
    200 ms: it is back after 2 seconds of waiting at the latest. *)
Theorem isR2Mounted_waits_at_most_ten (sb : Sandbox) (w : World) :
  let run := isR2Mounted R2_MOUNT_PATH sb w in
  exists evs,
    trace (snd run) = trace w ++ evs
    /\ (count_waits evs <= 10)%nat
    /\ clock (snd run) = (clock w + 200 * Z.of_nat (count_waits evs))%Z
    /\ (clock (snd run) <= clock w + 2000)%Z
    /\ count is_start evs = 1%nat
    /\ (count is_fetch evs <= 1)%nat.
Proof.
  cbn zeta. rewrite isR2Mounted_run. unfold isR2Mounted_of.
  destruct (sb_startProcess sb (started w) cmd) as [p|e].
  - pose proof (wait_count_le (proc_status p) 10 0) as Hle.
    destruct (wait_events_counts (proc_id p) (wait_count (proc_status p) 10 0))
      as [H1 [H2 [H3 _]]].
    unfold isR2Mounted_fetch_time.
    destruct (proc_getLogs p _) as [logs|e];
      generalize dependent (wait_count (proc_status p) 10 0); intros k Hle H1 H2 H3;
      cbn [snd trace clock];
      eexists; (split; [reflexivity|]);
      change (EvStartProcess cmd :: ?l) with ([EvStartProcess cmd] ++ l);
      rewrite !count_waits_app, !count_app, H1, H2, H3;
      unfold count_waits, count;
      cbn [filter timed_wait is_start is_fetch List.length log_check log_error];
      repeat split; lia.
  - cbn [snd trace clock]. eexists. split; [reflexivity|].
    cbn. repeat split; lia.
Qed.

(** X2.  [isR2Mounted] fetches the logs at the first 200 ms tick at
    which the process does not show [running], and after ten ticks
    (2 seconds) when it shows [running] at all of them; its verdict is
    read off the logs fetched at that moment, a rejected fetch giving
    [false]. *)
Theorem isR2Mounted_fetches_at_first_stop
    (sb : Sandbox) (w : World) (p : Process) (k : nat) :
  sb_startProcess sb (started w) (mount_command R2_MOUNT_PATH) = Ok p ->
  (k <= 10)%nat ->
  (forall j, (j < k)%nat -> proc_status p (200 * Z.of_nat j) = running) ->
  (k = 10%nat \/ proc_status p (200 * Z.of_nat k) <> running) ->
  let run := isR2Mounted R2_MOUNT_PATH sb w in
  clock (snd run) = (clock w + 200 * Z.of_nat k)%Z
  /\ returned run
     = Ok (match proc_getLogs p (200 * Z.of_nat k) with
           | Ok logs => stdout_has_marker logs
           | Err _ => false
           end).
Proof.
  intros Hstart Hk Hrun Hstop. cbn zeta.
  assert (Hcount : wait_count (proc_status p) 10 0 = k).
  { apply wait_count_first_stop; [exact Hk | exact Hrun | exact Hstop]. }
  rewrite isR2Mounted_run, Hstart. unfold isR2Mounted_of, isR2Mounted_fetch_time.
  rewrite Hcount.
  destruct (proc_getLogs p (200 * Z.of_nat k)); split; reflexivity.
Qed.

(** X3.  [isR2Mounted] and [mountR2Storage] never throw.  When the log
    fetch is rejected, [isR2Mounted] returns [false] and the last thing
    it does is to hand the error to [console.log]. *)
Theorem isR2Mounted_never_throws (sb : Sandbox) (env : MoltbotEnv) (w : World) :
  (exists mounted, returned (isR2Mounted R2_MOUNT_PATH sb w) = Ok mounted)
  /\ (exists mounted, returned (mountR2Storage R2_MOUNT_PATH sb env w) = Ok mounted)
  /\ (forall p e,
        sb_startProcess sb (started w) (mount_command R2_MOUNT_PATH) = Ok p ->
        proc_getLogs p (isR2Mounted_fetch_time p) = Err e ->
        returned (isR2Mounted R2_MOUNT_PATH sb w) = Ok false
        /\ exists evs,
            events (isR2Mounted R2_MOUNT_PATH sb w)
            = evs ++ [EvGetLogs (proc_id p);
                      EvConsoleLog [LStr (Js.lit "isR2Mounted error:"); LExn e]]).
Proof.
  assert (Hnever : forall w', exists mounted,
             returned (isR2Mounted R2_MOUNT_PATH sb w') = Ok mounted).
  { intros w'. rewrite isR2Mounted_run.
    destruct (isR2Mounted_of cmd (sb_startProcess sb (started w') cmd))
      as [[verdict ms] evs].
    exists verdict. reflexivity. }
  split; [apply Hnever|]. split.
  - unfold mountR2Storage. destruct (not_configured env).
    + exists false. reflexivity.
    + unfold bind at 1. rewrite isR2Mounted_run.
      destruct (isR2Mounted_of cmd (sb_startProcess sb (started w) cmd))
        as [[verdict ms] evs].
      destruct verdict; [exists true | exists false]; reflexivity.
  - intros p e Hstart Hlogs. rewrite isR2Mounted_run, Hstart.
    unfold isR2Mounted_of. rewrite Hlogs. split; [reflexivity|].
    unfold events, log_error. cbn [snd trace].
    exists (trace w ++ EvStartProcess cmd
              :: wait_events (proc_id p) (wait_count (proc_status p) 10 0)).
    cbn [app]. rewrite <- !app_assoc. cbn [app]. reflexivity.
Qed.

(** X4.  With the three credentials in place, [mountR2Storage] returns
    the verdict of [isR2Mounted] and does what [isR2Mounted] does,
    followed by one console line that tells the mount active at the
    configured path or not yet active. *)
Theorem mountR2Storage_is_isR2Mounted_and_a_line
    (sb : Sandbox) (env : MoltbotEnv) (w : World) :
  not_configured env = false ->
  let inner := isR2Mounted R2_MOUNT_PATH sb w in
  let outer := mountR2Storage R2_MOUNT_PATH sb env w in
  returned outer = returned inner
  /\ clock (snd outer) = clock (snd inner)
  /\ started (snd outer) = started (snd inner)
  /\ exists mounted,
      returned inner = Ok mounted
      /\ trace (snd outer)
         = trace (snd inner) ++ [log_mount R2_MOUNT_PATH mounted].
Proof.
  intros Hcfg. cbn zeta.
  pose proof (isR2Mounted_run R2_MOUNT_PATH sb w) as Hin.
  rewrite (mountR2Storage_run sb env w Hcfg), Hin.
  destruct (isR2Mounted_of cmd (sb_startProcess sb (started w) cmd))
    as [[verdict ms] evs].
  repeat split. exists verdict. split; [reflexivity|].
  cbn [snd trace]. apply app_assoc.
Qed.

End GatewayMore.

Lemma not_configured_false_iff (env : MoltbotEnv) :
  not_configured env = false <-> credentials_set env.
Proof.
  unfold not_configured, credentials_set. destruct env as [a b c].
  cbn [R2_ACCESS_KEY_ID R2_SECRET_ACCESS_KEY CF_ACCOUNT_ID]. split.
  - destruct a as [[|x a]|], b as [[|y b]|], c as [[|z c]|];
      cbn; try discriminate.
    intros _. do 3 eexists. repeat split; discriminate.
  - intros [a' [b' [c' [-> [Ha [-> [Hb [-> Hc]]]]]]]].
    destruct a', b', c'; try contradiction; reflexivity.
Qed.

Section GatewayGuard.

Variable R2_MOUNT_PATH : Js.str.
Variable waitForProcess : (Z -> Js.str) -> Z -> Z * Result unit.

Local Abbreviation cmd := (mount_command R2_MOUNT_PATH).

(** X5.  The mount check goes to the sandbox exactly when all three
    credentials are set to a non-empty string: then the first thing
    [mountR2Storage] and [syncToR2] do is to start the mount command;
    otherwise (a credential absent, or set to the empty string) neither
    touches the sandbox and both answer negatively. *)
Theorem mount_check_runs_iff_credentials_set
    (sb : Sandbox) (env : MoltbotEnv) (w : World) :
  (credentials_set env ->
     (exists rest,
         trace (snd (mountR2Storage R2_MOUNT_PATH sb env w))
         = trace w ++ EvStartProcess (mount_command R2_MOUNT_PATH) :: rest)
     /\ (exists rest,
           trace (snd (syncToR2 R2_MOUNT_PATH waitForProcess sb env w))
           = trace w ++ EvStartProcess (mount_command R2_MOUNT_PATH) :: rest))
  /\ (~ credentials_set env ->
        (exists evs,
            trace (snd (mountR2Storage R2_MOUNT_PATH sb env w)) = trace w ++ evs
            /\ filter remote_call evs = [])
        /\ returned (mountR2Storage R2_MOUNT_PATH sb env w) = Ok false
        /\ syncToR2 R2_MOUNT_PATH waitForProcess sb env w
           = (Ok sync_not_configured, w)).
Proof.
  split.
  - intros Hset. apply not_configured_false_iff in Hset. split.
    + rewrite (mountR2Storage_run R2_MOUNT_PATH sb env w Hset).
      unfold isR2Mounted_of.
      destruct (sb_startProcess sb (started w) cmd) as [p|e].
      * destruct (proc_getLogs p (isR2Mounted_fetch_time p)) as [logs|e];
          cbn [snd trace app]; eexists; reflexivity.
      * cbn [snd trace app]. eexists. reflexivity.
    + rewrite syncToR2_run by exact Hset. unfold syncToR2_of.
      destruct (sb_startProcess sb (started w) cmd) as [p|e].
      * destruct (waitForProcess (proc_status p) 5000) as [waited [[]|e]];
          [destruct (proc_getLogs p waited) as [logs|e]|];
          cbn [snd trace app]; eexists; reflexivity.
      * cbn [snd trace]. eexists. reflexivity.
  - intros Hunset.
    assert (Hcfg : not_configured env = true).
    { destruct (not_configured env) eqn:E; [reflexivity|].
      apply not_configured_false_iff in E. contradiction. }
    unfold mountR2Storage, syncToR2. rewrite Hcfg. repeat split.
    eexists. split; reflexivity.
Qed.

(** X6.  [syncToR2] never throws, and its result always has one of two
    shapes: success with [lastSync] set and no error, or failure with an
    error message and no [lastSync]. *)
Theorem syncToR2_result_shape (sb : Sandbox) (env : MoltbotEnv) (w : World) :
  exists r,
    returned (syncToR2 R2_MOUNT_PATH waitForProcess sb env w) = Ok r
    /\ ((success r = true /\ error r = None
         /\ lastSync r = Some (Js.lit "live (FUSE mount active)"))
        \/ (success r = false /\ lastSync r = None
            /\ exists message, error r = Some message)).
Proof.
  destruct (not_configured env) eqn:Hcfg.
  - unfold syncToR2. rewrite Hcfg. exists sync_not_configured.
    split; [reflexivity|]. right. repeat split. eexists. reflexivity.
  - rewrite syncToR2_run by exact Hcfg. unfold syncToR2_of.
    destruct (sb_startProcess sb (started w) cmd) as [p|e].
    + destruct (waitForProcess (proc_status p) 5000) as [waited [[]|e]].
      * destruct (proc_getLogs p waited) as [logs|e].
        -- destruct (stdout_has_marker logs); eexists; (split; [reflexivity|]).
           ++ left. repeat split.
           ++ right. repeat split. eexists. reflexivity.
        -- eexists. split; [reflexivity|]. right. repeat split.
           eexists. reflexivity.
      * eexists. split; [reflexivity|]. right. repeat split.
        eexists. reflexivity.
    + eexists. split; [reflexivity|]. right. repeat split.
      eexists. reflexivity.
Qed.

(** X7.  Once the mount command has started, a poller that throws and a
    log fetch that is rejected are both reported by [syncToR2] as
    [Failed to check mount status], the details being the message of
    the error (or [Unknown error] for a value that is no [Error]); when
    the poller throws, the logs are not fetched at all. *)
Theorem syncToR2_reports_check_failure
    (sb : Sandbox) (env : MoltbotEnv) (w : World) (p : Process)
    (waited : Z) (e : Exn) :
  not_configured env = false ->
  sb_startProcess sb (started w) (mount_command R2_MOUNT_PATH) = Ok p ->
  let run := syncToR2 R2_MOUNT_PATH waitForProcess sb env w in
  let failed r :=
      success r = false
      /\ error r = Some (Js.lit "Failed to check mount status")
      /\ details r = Some (errorMessage e) in
  (waitForProcess (proc_status p) 5000 = (waited, Err e) ->
   (exists r, returned run = Ok r /\ failed r)
   /\ exists evs, trace (snd run) = trace w ++ evs /\ count is_fetch evs = 0%nat)
  /\ (waitForProcess (proc_status p) 5000 = (waited, Ok tt) ->
      proc_getLogs p waited = Err e ->
      exists r, returned run = Ok r /\ failed r).
Proof.
  intros Hcfg Hstart. cbn zeta.
  rewrite syncToR2_run by exact Hcfg. rewrite Hstart. unfold syncToR2_of.
  split.
  - intros Hwait. rewrite Hwait. split.
    + exists (sync_failed e). repeat split.
    + cbn [snd trace]. eexists. split; reflexivity.
  - intros Hwait Hlogs. rewrite Hwait, Hlogs.
    exists (sync_failed e). repeat split.
Qed.

(** X8.  The two detectors agree: on a process whose log fetch gives
    the same outcome whenever it is made, and with a poller that does
    not throw, [syncToR2] reports success exactly when [isR2Mounted]
    returns [true]. *)
Theorem detectors_agree
    (sb : Sandbox) (env : MoltbotEnv) (w1 w2 : World) (p : Process)
    (outcome : Result Logs) :
  sb_startProcess sb (started w1) (mount_command R2_MOUNT_PATH) = Ok p ->
  sb_startProcess sb (started w2) (mount_command R2_MOUNT_PATH) = Ok p ->
  (forall t, proc_getLogs p t = outcome) ->
  snd (waitForProcess (proc_status p) 5000) = Ok tt ->
  not_configured env = false ->
  exists mounted r,
    returned (isR2Mounted R2_MOUNT_PATH sb w1) = Ok mounted
    /\ returned (syncToR2 R2_MOUNT_PATH waitForProcess sb env w2) = Ok r
    /\ success r = mounted.
Proof.
  intros H1 H2 Hlogs Hwait Hcfg.
  rewrite isR2Mounted_run, H1. rewrite syncToR2_run by exact Hcfg.
  rewrite H2. unfold isR2Mounted_of, syncToR2_of.
  destruct (waitForProcess (proc_status p) 5000) as [waited r].
  cbn [snd] in Hwait. subst r.
  rewrite !Hlogs. destruct outcome as [logs|e].
  - destruct (stdout_has_marker logs); do 2 eexists; repeat split.
  - do 2 eexists. repeat split.
Qed.

End GatewayGuard.

(* ================================================================== *)
(** * Further properties of the debug routes *)
(* ================================================================== *)

Lemma check_rounds_bounds (interval : Z) (seen : Z -> Js.str) (n : nat) (t : Z) :
  let rb := check_rounds interval seen n t in
  (fst rb <= n)%nat
  /\ ((fst rb = S (snd rb) /\ (snd rb < n)%nat)
      \/ (fst rb = n /\ snd rb = n)).
Proof.
  revert t; induction n as [|n IH]; intros t; cbn [check_rounds].
  - cbn [fst snd]. split; [lia | right; split; reflexivity].
  - destruct (negb (is_running (seen (t + interval)%Z))).
    + cbn [fst snd]. split; [lia | left; split; lia].
    + specialize (IH (t + interval)%Z). cbn zeta in IH.
      destruct (check_rounds interval seen n (t + interval)) as [rounds busy].
      cbn [fst snd] in *. lia.
Qed.

Lemma check_events_counts (interval : Z) (pid : Js.str) (rounds : nat) :
  count_waits (check_events interval pid rounds) = rounds
  /\ count is_start (check_events interval pid rounds) = 0%nat
  /\ count is_fetch (check_events interval pid rounds) = 0%nat.
Proof.
  unfold count_waits, count.
  induction rounds as [|k [H1 [H2 H3]]];
    cbn [check_events filter timed_wait is_start is_fetch List.length].
  - repeat split.
  - rewrite H1, H2, H3. repeat split.
Qed.

(** The loop of the debug routes stops at the first check that does not
    find [running]. *)
Lemma check_rounds_first_stop (interval : Z) (seen : Z -> Js.str)
      (n k : nat) (t : Z) :
  (k < n)%nat ->
  (forall j, (1 <= j <= k)%nat -> seen (t + interval * Z.of_nat j)%Z = running) ->
  seen (t + interval * Z.of_nat (S k))%Z <> running ->
  check_rounds interval seen n t = (S k, k).
Proof.
  revert k t; induction n as [|n IH]; intros k t Hk Hrun Hstop; [lia|].
  cbn [check_rounds]. destruct k as [|k].
  - replace (t + interval * Z.of_nat 1)%Z with (t + interval)%Z in Hstop by lia.
    rewrite (not_running _ Hstop). reflexivity.
  - pose proof (Hrun 1%nat ltac:(lia)) as H1.
    replace (t + interval * Z.of_nat 1)%Z with (t + interval)%Z in H1 by lia.
    unfold is_running at 1. rewrite H1, Js_eqb_refl. cbn [negb].
    rewrite (IH k (t + interval)%Z); [reflexivity | lia | |].
    + intros j Hj. specialize (Hrun (S j) ltac:(lia)).
      replace (t + interval + interval * Z.of_nat j)%Z
        with (t + interval * Z.of_nat (S j))%Z by lia.
      exact Hrun.
    + replace (t + interval + interval * Z.of_nat (S k))%Z
        with (t + interval * Z.of_nat (S (S k)))%Z by lia.
      exact Hstop.
Qed.

(** It gives up after [n] rounds that all found [running]. *)
Lemma check_rounds_exhausted (interval : Z) (seen : Z -> Js.str) (n : nat) (t : Z) :
  (forall j, (1 <= j <= n)%nat -> seen (t + interval * Z.of_nat j)%Z = running) ->
  check_rounds interval seen n t = (n, n).
Proof.
  revert t; induction n as [|n IH]; intros t Hrun; [reflexivity|].
  cbn [check_rounds].
  pose proof (Hrun 1%nat ltac:(lia)) as H1.
  replace (t + interval * Z.of_nat 1)%Z with (t + interval)%Z in H1 by lia.
  unfold is_running at 1. rewrite H1, Js_eqb_refl. cbn [negb].
  rewrite (IH (t + interval)%Z); [reflexivity|].
  intros j Hj. specialize (Hrun (S j) ltac:(lia)).
  replace (t + interval + interval * Z.of_nat j)%Z
    with (t + interval * Z.of_nat (S j))%Z by lia.
  exact Hrun.
Qed.

(** X9.  The two polling debug routes are bounded.  /debug/cli starts
    one process and waits at most 30 times 500 ms (15 seconds); the
    [attempts] it reports is the number of checks that found the
    process [running], one less than the number of waits when a check
    found it stopped and 30, like the waits, when none did.
    /debug/container-config starts one process and waits at most 10
    times 200 ms (2 seconds). *)
Theorem debug_polls_are_bounded
    (JSON_parse : Js.str -> Result JsonValue)
    (sb : Sandbox) (query_cmd : option Js.str) (w : World) :
  (let run := cli sb query_cmd w in
   exists evs,
     trace (snd run) = trace w ++ evs
     /\ (count_waits evs <= 30)%nat
     /\ clock (snd run) = (clock w + 500 * Z.of_nat (count_waits evs))%Z
     /\ count is_start evs = 1%nat
     /\ forall c st code attempts out err,
         returned run = Ok (CliResult c st code attempts out err) ->
         (count_waits evs = S attempts /\ (attempts < 30)%nat)
         \/ (count_waits evs = 30%nat /\ attempts = 30%nat))
  /\ (let run := container_config JSON_parse sb w in
      exists evs,
        trace (snd run) = trace w ++ evs
        /\ (count_waits evs <= 10)%nat
        /\ clock (snd run) = (clock w + 200 * Z.of_nat (count_waits evs))%Z
        /\ count is_start evs = 1%nat).
Proof.
  split; cbn zeta.
  - pose proof (cli_run sb query_cmd w) as Hrun. cbn zeta in Hrun.
    rewrite Hrun. clear Hrun. unfold cli_of, check_fetch_time.
    set (cmd := Js.or_else query_cmd (Js.lit "clawdbot --help")).
    destruct (sb_startProcess sb (started w) cmd) as [p|e].
    + pose proof (check_rounds_bounds 500 (proc_status p) 30 0) as Hb.
      cbn zeta in Hb.
      destruct (check_rounds 500 (proc_status p) 30 0) as [rounds busy].
      cbn [fst snd] in Hb |- *.
      destruct (check_events_counts 500 (proc_id p) rounds) as [H1 [H2 H3]].
      destruct (proc_getLogs p (500 * Z.of_nat rounds)) as [logs|e];
        cbn [snd trace clock returned fst];
        eexists; (split; [reflexivity|]);
        change (EvStartProcess cmd :: ?l) with ([EvStartProcess cmd] ++ l);
        rewrite !count_waits_app, !count_app, H1, H2;
        unfold count_waits, count;
        cbn [filter timed_wait is_start is_fetch List.length];
        (split; [lia|]); (split; [f_equal; lia|]); (split; [lia|]).
      * intros c st code attempts out err E. injection E as _ _ _ <- _ _. lia.
      * intros c st code attempts out err E. discriminate E.
    + cbn [snd trace clock returned fst]. eexists. split; [reflexivity|].
      unfold count_waits, count. cbn. repeat split; try lia.
      intros c st code attempts out err E. discriminate E.
  - rewrite container_config_run. unfold container_config_of, check_fetch_time.
    destruct (sb_startProcess sb (started w) config_command) as [p|e].
    + pose proof (check_rounds_bounds 200 (proc_status p) 10 0) as Hb.
      cbn zeta in Hb.
      destruct (check_rounds 200 (proc_status p) 10 0) as [rounds busy].
      cbn [fst snd] in Hb |- *.
      destruct (check_events_counts 200 (proc_id p) rounds) as [H1 [H2 H3]].
      destruct (proc_getLogs p (200 * Z.of_nat rounds)) as [logs|e];
        cbn [snd trace clock];
        eexists; (split; [reflexivity|]);
        change (EvStartProcess config_command :: ?l)
          with ([EvStartProcess config_command] ++ l);
        rewrite !count_waits_app, !count_app, H1, H2;
        unfold count_waits, count;
        cbn [filter timed_wait is_start is_fetch List.length];
        (split; [lia|]); (split; [f_equal; lia|]); lia.
    + cbn [snd trace clock]. eexists. split; [reflexivity|].
      unfold count_waits, count. cbn. repeat split; lia.
Qed.

(** X10.  /debug/cli fetches the logs at the first 500 ms tick at which
    the process does not show [running]: when the process shows
    [running] at ticks 1 to [k] and something else at tick [k + 1]
    ([k < 30]), the response reports [attempts = k] and the status,
    exit code and logs of [500 (k + 1)] ms after the start. *)
Theorem cli_reports_first_stop
    (sb : Sandbox) (query_cmd : option Js.str) (w : World)
    (p : Process) (k : nat) (logs : Logs) :
  let cmd := Js.or_else query_cmd (Js.lit "clawdbot --help") in
  let stop := (500 * Z.of_nat (S k))%Z in
  sb_startProcess sb (started w) cmd = Ok p ->
  (k < 30)%nat ->
  (forall j, (1 <= j <= k)%nat -> proc_status p (500 * Z.of_nat j) = running) ->
  proc_status p stop <> running ->
  proc_getLogs p stop = Ok logs ->
  returned (cli sb query_cmd w)
  = Ok (CliResult cmd (proc_status p stop) (proc_exitCode p stop) k
                  (Js.or_else (stdout logs) []) (Js.or_else (stderr logs) []))
  /\ clock (snd (cli sb query_cmd w)) = (clock w + stop)%Z.
Proof.
  intros cmd stop Hstart Hk Hrun Hstop Hlogs.
  pose proof (cli_run sb query_cmd w) as H. cbn zeta in H. fold cmd in H.
  rewrite H, Hstart. clear H. unfold cli_of, check_fetch_time.
  rewrite (check_rounds_first_stop 500 (proc_status p) 30 k 0 Hk Hrun Hstop).
  cbn [fst snd]. fold stop. rewrite Hlogs. split; reflexivity.
Qed.

(** X11.  A process that is still [running] when the bound is reached
    is not an error.  /debug/cli then stops waiting after 30 checks
    (15 seconds), fetches the logs all the same and answers with
    [attempts = 30] and the status [running]; /debug/container-config
    stops after 10 checks (2 seconds) and parses whatever stdout holds
    by then. *)
Theorem debug_polls_time_out_quietly
    (JSON_parse : Js.str -> Result JsonValue)
    (sb : Sandbox) (w : World) (p : Process) (logs : Logs) :
  (forall query_cmd,
      let cmd := Js.or_else query_cmd (Js.lit "clawdbot --help") in
      sb_startProcess sb (started w) cmd = Ok p ->
      (forall j, (1 <= j <= 30)%nat -> proc_status p (500 * Z.of_nat j) = running) ->
      proc_getLogs p 15000 = Ok logs ->
      returned (cli sb query_cmd w)
      = Ok (CliResult cmd running (proc_exitCode p 15000) 30
                      (Js.or_else (stdout logs) [])
                      (Js.or_else (stderr logs) []))
      /\ clock (snd (cli sb query_cmd w)) = (clock w + 15000)%Z)
  /\ (sb_startProcess sb (started w) config_command = Ok p ->
      (forall j, (1 <= j <= 10)%nat -> proc_status p (200 * Z.of_nat j) = running) ->
      proc_getLogs p 2000 = Ok logs ->
      let out := Js.or_else (stdout logs) [] in
      returned (container_config JSON_parse sb w)
      = Ok (ConfigResult running (proc_exitCode p 2000)
                         (config_of JSON_parse out)
                         (raw_of (config_of JSON_parse out) out)
                         (Js.or_else (stderr logs) []))
      /\ clock (snd (container_config JSON_parse sb w)) = (clock w + 2000)%Z).
Proof.
  split.
  - intros query_cmd cmd Hstart Hrun Hlogs.
    pose proof (cli_run sb query_cmd w) as H. cbn zeta in H. fold cmd in H.
    rewrite H, Hstart. clear H. unfold cli_of, check_fetch_time.
    rewrite (check_rounds_exhausted 500 (proc_status p) 30 0 Hrun).
    cbn [fst snd]. pose proof (Hrun 30%nat ltac:(lia)) as Hlast.
    change (500 * Z.of_nat 30)%Z with 15000%Z in *.
    rewrite Hlogs, Hlast. split; reflexivity.
  - intros Hstart Hrun Hlogs out.
    rewrite container_config_run, Hstart.
    unfold container_config_of, check_fetch_time.
    rewrite (check_rounds_exhausted 200 (proc_status p) 10 0 Hrun).
    cbn [fst snd]. pose proof (Hrun 10%nat ltac:(lia)) as Hlast.
    change (200 * Z.of_nat 10)%Z with 2000%Z in *.
    rewrite Hlogs, Hlast. split; reflexivity.
Qed.

(** X12.  /debug/cli never throws.  The command it starts is the [cmd]
    query parameter, and [clawdbot --help] when the parameter is absent
    or empty; a rejected [startProcess] or log fetch is answered with
    the message of the error and that same command. *)
Theorem cli_echoes_command_on_failure
    (sb : Sandbox) (query_cmd : option Js.str) (w : World) :
  let cmd := Js.or_else query_cmd (Js.lit "clawdbot --help") in
  (query_cmd = None \/ query_cmd = Some [] -> cmd = Js.lit "clawdbot --help")
  /\ (forall c s, query_cmd = Some (c :: s) -> cmd = c :: s)
  /\ (exists response rest,
         returned (cli sb query_cmd w) = Ok response
         /\ trace (snd (cli sb query_cmd w))
            = trace w ++ EvStartProcess cmd :: rest)
  /\ (forall e, sb_startProcess sb (started w) cmd = Err e ->
        returned (cli sb query_cmd w) = Ok (CliError (errorMessage e) cmd))
  /\ (forall p e, sb_startProcess sb (started w) cmd = Ok p ->
        proc_getLogs p (check_fetch_time 500 30 p) = Err e ->
        returned (cli sb query_cmd w) = Ok (CliError (errorMessage e) cmd)).
Proof.
  intros cmd.
  pose proof (cli_run sb query_cmd w) as H. cbn zeta in H. fold cmd in H.
  split; [intros [-> | ->]; reflexivity|].
  split; [intros c s ->; reflexivity|].
  rewrite H. clear H. unfold cli_of.
  destruct (sb_startProcess sb (started w) cmd) as [p|e]; [split; [|split]|split; [|split]].
  - destruct (check_rounds 500 (proc_status p) 30 0) as [rounds busy].
    destruct (proc_getLogs p (check_fetch_time 500 30 p)) as [logs|e];
      cbn [returned fst snd trace app]; do 2 eexists; split; reflexivity.
  - intros e E. discriminate E.
  - intros p' e E Hlogs. injection E as <-.
    destruct (check_rounds 500 (proc_status p) 30 0) as [rounds busy].
    rewrite Hlogs. reflexivity.
  - cbn [returned fst snd trace]. do 2 eexists. split; reflexivity.
  - intros e' E. injection E as <-. reflexivity.
  - intros p e' E. discriminate E.
Qed.

(** One call of /debug/version. *)
Lemma version_run (sb : Sandbox) (w : World) :
  version sb w
  = let '(response, ms, n, evs) :=
        version_of (sb_startProcess sb (started w) (Js.lit "clawdbot --version"))
                   (sb_startProcess sb (S (started w)) (Js.lit "node --version")) in
    (Ok response,
     {| clock := (clock w + ms)%Z; started := (started w + n)%nat;
        trace := trace w ++ evs |}).
Proof.
  unfold version, version_of, try_catch.
  unfold bind at 1. unfold startProcess at 1.
  destruct (sb_startProcess sb (started w) (Js.lit "clawdbot --version")) as [p1|e].
  2:{ unfold ret. f_equal. apply world_eq; [lia | lia | reflexivity]. }
  unfold bind at 1. unfold sleep at 1.
  unfold bind at 1. unfold getLogs at 1. unfold elapsed at 1.
  cbn [clock started trace h_born h_proc].
  replace (clock w + 500 - clock w)%Z with 500%Z by lia.
  destruct (proc_getLogs p1 500) as [versionLogs|e].
  2:{ unfold ret. f_equal. apply world_eq; [lia | lia |].
      rewrite <- !app_assoc. reflexivity. }
  unfold bind at 1. unfold startProcess at 1. cbn [clock started trace].
  destruct (sb_startProcess sb (S (started w)) (Js.lit "node --version")) as [p2|e].
  2:{ unfold ret. f_equal. apply world_eq; [lia | lia |].
      rewrite <- !app_assoc. reflexivity. }
  unfold bind at 1. unfold sleep at 1.
  unfold bind at 1. unfold getLogs at 1. unfold elapsed at 1.
  cbn [clock started trace h_born h_proc].
  replace (clock w + 500 + 500 - (clock w + 500))%Z with 500%Z by lia.
  destruct (proc_getLogs p2 500) as [nodeLogs|e];
    unfold ret; f_equal; (apply world_eq; [lia | lia |]);
    rewrite <- !app_assoc; reflexivity.
Qed.

(** X13.  /debug/version never throws and never polls: it reads no
    status, starts at most two processes, and waits a flat 500 ms
    before each log fetch it makes; an answer with the two versions has
    always taken two waits, 1000 ms. *)
Theorem version_waits_flat (sb : Sandbox) (w : World) :
  exists response evs,
    returned (version sb w) = Ok response
    /\ trace (snd (version sb w)) = trace w ++ evs
    /\ count is_status_read evs = 0%nat
    /\ (count is_start evs <= 2)%nat
    /\ count_waits evs = count is_fetch evs
    /\ clock (snd (version sb w)) = (clock w + 500 * Z.of_nat (count_waits evs))%Z
    /\ forall v n, response = VersionInfo v n -> count_waits evs = 2%nat.
Proof.
  rewrite version_run. unfold version_of.
  destruct (sb_startProcess sb (started w) (Js.lit "clawdbot --version")) as [p1|e].
  2:{ do 2 eexists. cbn [returned fst snd trace clock].
      split; [reflexivity|]. split; [reflexivity|].
      unfold count, count_waits. cbn. repeat split; try lia. discriminate. }
  destruct (proc_getLogs p1 500) as [versionLogs|e].
  2:{ do 2 eexists. cbn [returned fst snd trace clock].
      split; [reflexivity|]. split; [reflexivity|].
      unfold count, count_waits. cbn. repeat split; try lia. discriminate. }
  destruct (sb_startProcess sb (S (started w)) (Js.lit "node --version")) as [p2|e].
  2:{ do 2 eexists. cbn [returned fst snd trace clock].
      split; [reflexivity|]. split; [reflexivity|].
      unfold count, count_waits. cbn. repeat split; try lia. discriminate. }
  destruct (proc_getLogs p2 500) as [nodeLogs|e];
    do 2 eexists; cbn [returned fst snd trace clock];
    (split; [reflexivity|]); (split; [reflexivity|]);
    unfold count, count_waits; cbn; repeat split; try lia; discriminate.
Qed.

(** X14.  /debug/version answers all or nothing.  A rejection at any of
    its four steps gives the error body [Failed to get version info: ]
    followed by the message, also when the clawdbot version was already
    read; and when the first command cannot be started, the second is
    not started either. *)
Theorem version_fails_as_a_whole
    (sb : Sandbox) (w : World) (e : Exn) :
  let failure := VersionError (Js.lit "Failed to get version info: "
                                 ++ errorMessage e) in
  let first := sb_startProcess sb (started w) (Js.lit "clawdbot --version") in
  let second := sb_startProcess sb (S (started w)) (Js.lit "node --version") in
  (first = Err e ->
   returned (version sb w) = Ok failure
   /\ trace (snd (version sb w))
      = trace w ++ [EvStartProcess (Js.lit "clawdbot --version")])
  /\ (forall p1, first = Ok p1 -> proc_getLogs p1 500 = Err e ->
        returned (version sb w) = Ok failure
        /\ started (snd (version sb w)) = S (started w))
  /\ (forall p1 versionLogs,
        first = Ok p1 -> proc_getLogs p1 500 = Ok versionLogs ->
        (second = Err e -> returned (version sb w) = Ok failure)
        /\ (forall p2, second = Ok p2 -> proc_getLogs p2 500 = Err e ->
              returned (version sb w) = Ok failure)).
Proof.
  intros failure first second. rewrite version_run. fold first second.
  unfold version_of. split; [|split].
  - intros ->. split; reflexivity.
  - intros p1 -> ->. split; [reflexivity|]. cbn [snd started]. lia.
  - intros p1 versionLogs -> ->. split.
    + intros ->. reflexivity.
    + intros p2 -> ->. reflexivity.
Qed.

Lemma trimStart_blank (s : Js.str) : blank s -> Js.trimStart s = [].
Proof.
  induction 1 as [|c s Hc _ IH]; cbn [Js.trimStart]; [reflexivity|].
  rewrite Hc. exact IH.
Qed.

Lemma trim_blank (s : Js.str) : blank s -> Js.trim s = [].
Proof.
  intros H. unfold Js.trim. rewrite (trimStart_blank s H). reflexivity.
Qed.

(** X15.  Neither version string begins or ends with white space.  A
    stdout made of white space only (a lone line feed, say) counts as
    non-empty: both version strings are then empty, and the stderr of
    [clawdbot --version] is not consulted. *)
Theorem version_strings_are_trimmed (logs : Logs) :
  (forall c t, clawdbotVersion_of logs = c :: t -> Js.isWhiteSpace c = false)
  /\ (forall t c, clawdbotVersion_of logs = t ++ [c] -> Js.isWhiteSpace c = false)
  /\ (forall c t, nodeVersion_of logs = c :: t -> Js.isWhiteSpace c = false)
  /\ (forall t c, nodeVersion_of logs = t ++ [c] -> Js.isWhiteSpace c = false)
  /\ (forall s, stdout logs = Some s -> s <> [] -> blank s ->
        clawdbotVersion_of logs = [] /\ nodeVersion_of logs = []).
Proof.
  unfold clawdbotVersion_of, nodeVersion_of.
  split; [|split; [|split; [|split]]].
  - intros c t E. exact (proj1 (proj2 (trim_spec _)) c t E).
  - intros t c E. exact (proj2 (proj2 (trim_spec _)) t c E).
  - intros c t E. exact (proj1 (proj2 (trim_spec _)) c t E).
  - intros t c E. exact (proj2 (proj2 (trim_spec _)) t c E).
  - intros s Hout Hne Hblank. rewrite Hout.
    destruct s as [|c s]; [contradiction|].
    cbn [Js.or_else Js.truthy]. split; apply trim_blank; exact Hblank.
Qed.

(** ** More on the process listing *)

Lemma includeLogs_of_true (query_logs : option Js.str) :
  includeLogs_of query_logs = true <-> query_logs = Some (Js.lit "true").
Proof.
  unfold includeLogs_of. destruct query_logs as [s|].
  - rewrite Js_eqb_eq. split; [intros ->; reflexivity | intros E; injection E; auto].
  - split; discriminate.
Qed.

(** One call of /debug/processes. *)
Lemma processes_run_full (localeCompare : Js.str -> Js.str -> Z)
      (sb : Sandbox) (query_logs : option Js.str) (w : World) :
  processes localeCompare sb query_logs w
  = match sb_listProcesses sb with
    | Ok ps =>
        (Ok (ProcessList (List.length ps)
               (sort (compareProcesses localeCompare)
                     (map (describe_of (includeLogs_of query_logs)) ps))),
         advance w 0 (EvListProcesses
                        :: flat_map (describe_events (includeLogs_of query_logs)) ps))
    | Err e =>
        (Ok (ProcessesError (errorMessage e)), advance w 0 [EvListProcesses])
    end.
Proof.
  unfold processes, try_catch.
  unfold bind at 1. unfold listProcesses at 1.
  destruct (sb_listProcesses sb) as [ps|e].
  - unfold bind at 1.
    match goal with |- context [promise_all_map _ _ ?w1] =>
      pose proof (promise_all_map_describe (includeLogs_of query_logs) ps w1)
        as Hall
    end.
    cbn [clock] in Hall. unfold listed in Hall. rewrite Hall.
    unfold ret, advance. cbn [clock started trace].
    rewrite length_map. f_equal.
    apply world_eq; [lia | reflexivity |].
    rewrite <- app_assoc. reflexivity.
  - unfold ret, advance. f_equal.
    apply world_eq; [lia | reflexivity | reflexivity].
Qed.

Lemma describe_events_counts (b : bool) (ps : list Process) :
  count is_start (flat_map (describe_events b) ps) = 0%nat
  /\ count_waits (flat_map (describe_events b) ps) = 0%nat
  /\ count is_fetch (flat_map (describe_events b) ps)
     = (if b then List.length ps else 0%nat)
  /\ count is_listing (flat_map (describe_events b) ps) = 0%nat.
Proof.
  unfold count, count_waits.
  induction ps as [|p ps [H1 [H2 [H3 H4]]]]; cbn [flat_map].
  - destruct b; repeat split.
  - unfold describe_events at 1 3 5 7. destruct b;
      cbn [app filter is_start timed_wait is_fetch is_listing List.length];
      rewrite H1, H2, H3, H4; repeat split.
Qed.

Lemma describe_of_plain (p : Process) :
  d_stdout (describe_of false p) = None
  /\ d_stderr (describe_of false p) = None
  /\ d_logs_error (describe_of false p) = None.
Proof. repeat split. Qed.

(** X16.  Logs are fetched only on request: unless the [logs] query
    parameter is exactly [true], the listing makes no log fetch and no
    record carries [stdout], [stderr] or [logs_error]. *)
Theorem listing_without_logs
    (localeCompare : Js.str -> Js.str -> Z)
    (sb : Sandbox) (query_logs : option Js.str) (w : World) (ps : list Process) :
  query_logs <> Some (Js.lit "true") ->
  sb_listProcesses sb = Ok ps ->
  exists records evs,
    processes localeCompare sb query_logs w
    = (Ok (ProcessList (List.length ps) records), advance w 0 evs)
    /\ count is_fetch evs = 0%nat
    /\ Forall (fun r => d_stdout r = None /\ d_stderr r = None
                        /\ d_logs_error r = None) records.
Proof.
  intros Hq Hlist.
  assert (Hb : includeLogs_of query_logs = false).
  { destruct (includeLogs_of query_logs) eqn:E; [|reflexivity].
    apply includeLogs_of_true in E. contradiction. }
  rewrite processes_run_full, Hlist, Hb. do 2 eexists.
  split; [reflexivity|]. split.
  - change (EvListProcesses :: ?l) with ([EvListProcesses] ++ l).
    rewrite count_app. destruct (describe_events_counts false ps) as [_ [_ [H _]]].
    rewrite H. reflexivity.
  - rewrite Forall_forall. intros r Hr.
    eapply Permutation_in in Hr; [|apply Permutation_sym, sort_perm].
    apply in_map_iff in Hr. destruct Hr as [p [<- _]].
    apply describe_of_plain.
Qed.

(** X17.  /debug/processes only observes.  It never throws, asks the
    sandbox for the list once, starts no process, never waits, and
    fetches logs once per listed process when logs are requested; a
    rejected [listProcesses] is answered with the message of the
    error. *)
Theorem listing_only_observes
    (localeCompare : Js.str -> Js.str -> Z)
    (sb : Sandbox) (query_logs : option Js.str) (w : World) :
  exists response evs,
    processes localeCompare sb query_logs w = (Ok response, advance w 0 evs)
    /\ count is_start evs = 0%nat
    /\ count_waits evs = 0%nat
    /\ count is_listing evs = 1%nat
    /\ (forall ps, sb_listProcesses sb = Ok ps ->
          count is_fetch evs
          = if includeLogs_of query_logs then List.length ps else 0%nat)
    /\ (forall e, sb_listProcesses sb = Err e ->
          response = ProcessesError (errorMessage e) /\ evs = [EvListProcesses]).
Proof.
  rewrite processes_run_full.
  destruct (sb_listProcesses sb) as [ps|e]; do 2 eexists;
    (split; [reflexivity|]).
  - destruct (describe_events_counts (includeLogs_of query_logs) ps)
      as [H1 [H2 [H3 H4]]].
    change (EvListProcesses :: ?l) with ([EvListProcesses] ++ l).
    rewrite !count_app, count_waits_app, H1, H2, H3, H4.
    split; [reflexivity|]. split; [reflexivity|]. split; [reflexivity|].
    split.
    + intros ps' E. injection E as <-. reflexivity.
    + intros e E. discriminate E.
  - split; [reflexivity|]. split; [reflexivity|]. split; [reflexivity|].
    split.
    + intros ps E. discriminate E.
    + intros e' E. injection E as <-. split; reflexivity.
Qed.

Lemma sort_insert_map {A B} (f : A -> B) (cmpB : B -> B -> Z) (cmpA : A -> A -> Z)
      (x : A) (l : list A) :
  (forall a b, cmpB (f a) (f b) = cmpA a b) ->
  sort_insert cmpB (f x) (map f l) = map f (sort_insert cmpA x l).
Proof.
  intros H. induction l as [|y l IH]; cbn [map sort_insert]; [reflexivity|].
  rewrite H. destruct (cmpA x y <=? 0)%Z; cbn [map]; [reflexivity|].
  rewrite IH. reflexivity.
Qed.

(** Sorting commutes with a map that keeps the comparisons. *)
Lemma sort_map {A B} (f : A -> B) (cmpB : B -> B -> Z) (cmpA : A -> A -> Z)
      (l : list A) :
  (forall a b, cmpB (f a) (f b) = cmpA a b) ->
  sort cmpB (map f l) = map f (sort cmpA l).
Proof.
  intros H. induction l as [|x l IH]; cbn [map sort]; [reflexivity|].
  rewrite IH. apply sort_insert_map, H.
Qed.

Lemma describe_of_status (includeLogs : bool) (p : Process) :
  d_status (describe_of includeLogs p) = proc_status p 0.
Proof.
  unfold describe_of. destruct includeLogs; [|reflexivity].
  destruct (proc_getLogs p 0); reflexivity.
Qed.

Lemma compareProcesses_describe_of (localeCompare : Js.str -> Js.str -> Z)
      (includeLogs : bool) (p q : Process) :
  compareProcesses localeCompare (describe_of includeLogs p)
                   (describe_of includeLogs q)
  = compareListed localeCompare p q.
Proof.
  unfold compareListed, compareProcesses, comparator.
  rewrite !describe_of_status, !describe_of_startTime. reflexivity.
Qed.

(** X18.  Asking for logs does not change the order of the listing:
    there is one arrangement of the listed processes that the response
    follows with and without logs, the comparator reading the status
    and the start time only. *)
Theorem listing_order_ignores_logs
    (localeCompare : Js.str -> Js.str -> Z)
    (sb : Sandbox) (w1 w2 : World) (ps : list Process) :
  sb_listProcesses sb = Ok ps ->
  exists order,
    Permutation ps order
    /\ returned (processes localeCompare sb (Some (Js.lit "true")) w1)
       = Ok (ProcessList (List.length ps) (map (describe_of true) order))
    /\ forall query_logs,
        query_logs <> Some (Js.lit "true") ->
        returned (processes localeCompare sb query_logs w2)
        = Ok (ProcessList (List.length ps) (map (describe_of false) order)).
Proof.
  intros Hlist. exists (sort (compareListed localeCompare) ps).
  split; [apply sort_perm|]. split.
  - rewrite (processes_run localeCompare sb _ w1 ps Hlist).
    replace (includeLogs_of (Some (Js.lit "true"))) with true by reflexivity.
    rewrite (sort_map (describe_of true) (compareProcesses localeCompare)
                      (compareListed localeCompare)); [reflexivity|].
    apply compareProcesses_describe_of.
  - intros query_logs Hq.
    assert (Hb : includeLogs_of query_logs = false).
    { destruct (includeLogs_of query_logs) eqn:E; [|reflexivity].
      apply includeLogs_of_true in E. contradiction. }
    rewrite (processes_run localeCompare sb _ w2 ps Hlist), Hb.
    rewrite (sort_map (describe_of false) (compareProcesses localeCompare)
                      (compareListed localeCompare)); [reflexivity|].
    apply compareProcesses_describe_of.
Qed.

Section ListingEnds.

Variable localeCompare : Js.str -> Js.str -> Z.

Hypothesis localeCompare_flip :
  forall a b, Z.sgn (localeCompare a b) = (- Z.sgn (localeCompare b a))%Z.
Hypothesis localeCompare_trans :
  forall a b c, (localeCompare a b <= 0)%Z -> (localeCompare b c <= 0)%Z ->
                (localeCompare a c <= 0)%Z.

(** X19.  The two ends of a listing none of whose statuses names a
    member of [Object.prototype]: whatever precedes a [running] record
    is [running] too, and whatever follows a record whose status is
    none of the four known ones has such a status too. *)
Theorem listing_running_first_unknown_last
    (sb : Sandbox) (query_logs : option Js.str) (w : World)
    (ps : list Process) (records l1 l2 l3 : list ProcessData)
    (a b : ProcessData) :
  sb_listProcesses sb = Ok ps ->
  returned (processes localeCompare sb query_logs w)
  = Ok (ProcessList (List.length ps) records) ->
  Forall plain records ->
  records = l1 ++ a :: l2 ++ b :: l3 ->
  (d_status b = running -> d_status a = running)
  /\ (rank_key a = VNumber 99 -> rank_key b = VNumber 99)
  /\ ((d_status b = Js.lit "running" \/ d_status b = Js.lit "starting"
       \/ d_status b = Js.lit "completed" \/ d_status b = Js.lit "failed") ->
      (d_status a = Js.lit "running" \/ d_status a = Js.lit "starting"
       \/ d_status a = Js.lit "completed" \/ d_status a = Js.lit "failed")).
Proof.
  intros Hlist Hret Hplain Hsplit.
  rewrite (processes_run localeCompare sb query_logs w ps Hlist) in Hret.
  injection Hret as Hrec.
  assert (Hinput : Forall plain (map (describe_of (includeLogs_of query_logs)) ps)).
  { refine (Permutation_Forall (Permutation_sym (sort_perm _ _)) _).
    rewrite Hrec. exact Hplain. }
  pose proof (listing_sorted localeCompare localeCompare_flip
                localeCompare_trans _ Hinput) as Hs.
  rewrite Hrec, Hsplit in Hs. apply StronglySorted_pair in Hs.
  rewrite Hsplit, Forall_forall in Hplain.
  assert (Pa : plain a) by (apply Hplain, in_elt).
  assert (Pb : plain b)
    by (apply Hplain, in_or_app; right; right; apply in_elt).
  unfold listed_before, rank_key in *.
  destruct (statusRank_number _ Pa) as [x [Hx [Hx0 _]]].
  destruct (statusRank_number _ Pb) as [y [Hy [_ Hy99]]].
  assert (Hle : (x <= y)%Z).
  { rewrite Hx, Hy in Hs. cbn [rank_below] in Hs.
    destruct Hs as [H | [H _]]; [lia | injection H as ->; lia]. }
  split; [|split].
  - intros Hb. rewrite Hb in Hy. injection Hy as <-.
    apply statusRank_zero. rewrite Hx. f_equal. lia.
  - rewrite Hx, Hy. intros Ha. injection Ha as ->. f_equal. lia.
  - intros Hb. apply (statusRank_known _ x Hx).
    assert (y < 99)%Z; [|lia].
    destruct Hb as [Hb | [Hb | [Hb | Hb]]]; rewrite Hb in Hy;
      injection Hy as <-; lia.
Qed.

(** X20.  When is the function handed to [sort] a comparator?  It
    returns NaN exactly for two records of different statuses one of
    which names a member of [Object.prototype].  On the other records
    it is a consistent comparator whenever [localeCompare] is one:
    swapping its arguments flips the sign of the result, the order it
    induces is transitive, and it returns zero exactly for two records
    of equal rank whose start times [localeCompare] ties. *)
Theorem compareProcesses_is_consistent (a b c : ProcessData) :
  (comparator localeCompare a b = NaN
   <-> d_status a <> d_status b
       /\ (inherited (d_status a) = true \/ inherited (d_status b) = true))
  /\ (plain a -> plain b -> plain c ->
      Z.sgn (compareProcesses localeCompare a b)
      = (- Z.sgn (compareProcesses localeCompare b a))%Z
      /\ ((compareProcesses localeCompare a b <= 0)%Z ->
          (compareProcesses localeCompare b c <= 0)%Z ->
          (compareProcesses localeCompare a c <= 0)%Z)
      /\ (compareProcesses localeCompare a b = 0%Z
          <-> rank_key a = rank_key b
              /\ localeCompare (time_key b) (time_key a) = 0%Z)).
Proof.
  split.
  - unfold comparator.
    destruct (inherited (d_status a)) eqn:Ia, (inherited (d_status b)) eqn:Ib.
    + rewrite (statusRank_inherited _ Ia), (statusRank_inherited _ Ib).
      cbn [strict_neq minus].
      destruct (Js.eqb (d_status a) (d_status b)) eqn:E; cbn [negb].
      * apply Js_eqb_eq in E. split; [discriminate | intros [H _]; contradiction].
      * split; [intros _ | reflexivity].
        split; [|left; reflexivity].
        intros H. apply Js_eqb_eq in H. congruence.
    + rewrite (statusRank_inherited _ Ia).
      destruct (statusRank_number _ Ib) as [y [-> _]]. cbn [strict_neq minus].
      split; [intros _ | reflexivity].
      split; [congruence | left; reflexivity].
    + rewrite (statusRank_inherited _ Ib).
      destruct (statusRank_number _ Ia) as [x [-> _]]. cbn [strict_neq minus].
      split; [intros _ | reflexivity].
      split; [congruence | right; reflexivity].
    + destruct (statusRank_number _ Ia) as [x [-> _]].
      destruct (statusRank_number _ Ib) as [y [-> _]]. cbn [strict_neq minus].
      split; [| intros [_ [H | H]]; discriminate H].
      destruct (negb (x =? y)%Z); discriminate.
  - intros Pa Pb Pc.
    split; [apply compareProcesses_flip, localeCompare_flip|].
    split; [apply compareProcesses_trans; assumption|].
    destruct (compareProcesses_plain localeCompare a b Pa Pb)
      as [x [y [Hx [Hy Hc]]]].
    unfold compareProcesses. rewrite Hc, Hx, Hy. cbn [sortOrder].
    destruct (x =? y)%Z eqn:E; cbn [negb].
    + apply Z.eqb_eq in E. subst y.
      split; [intros H; split; [reflexivity | exact H] | intros [_ H]; exact H].
    + apply Z.eqb_neq in E. split; [lia | intros [H _]; congruence].
Qed.

End ListingEnds.

(** ** /debug/logs *)

Lemma respond_with_logs_run (h : Handle) (w : World) :
  respond_with_logs h w
  = match proc_getLogs (h_proc h) (elapsed h w) with
    | Ok logs =>
        (Ok (LogsOk (proc_id (h_proc h)) (proc_status (h_proc h) (elapsed h w))
                    (Js.or_else (stdout logs) []) (Js.or_else (stderr logs) [])),
         advance w 0 [EvGetLogs (proc_id (h_proc h)); EvStatus (proc_id (h_proc h))])
    | Err e => (Err e, advance w 0 [EvGetLogs (proc_id (h_proc h))])
    end.
Proof.
  unfold respond_with_logs. unfold bind at 1. unfold getLogs at 1.
  destruct (proc_getLogs (h_proc h) (elapsed h w)) as [logs|e].
  - unfold bind, status, ret, advance, elapsed. cbn [clock started trace].
    f_equal. apply world_eq; [lia | reflexivity |].
    rewrite <- app_assoc. reflexivity.
  - unfold advance. f_equal. apply world_eq; [lia | reflexivity | reflexivity].
Qed.

Lemma find_by_id_none (c : Z) (id : Js.str) (ps : list Process) :
  (forall p, In p ps -> proc_id p <> id) ->
  find_by_id id (map (listed c) ps) = None.
Proof.
  unfold find_by_id. induction ps as [|p ps IH]; intros H; cbn [map find];
    [reflexivity|].
  cbn [listed h_proc]. destruct (Js.eqb (proc_id p) id) eqn:E.
  - apply Js_eqb_eq in E. exfalso. exact (H p (or_introl eq_refl) E).
  - apply IH. intros q Hq. apply H. right. exact Hq.
Qed.

Lemma find_by_id_first (c : Z) (id : Js.str) (before after : list Process)
      (p : Process) :
  (forall q, In q before -> proc_id q <> id) ->
  proc_id p = id ->
  find_by_id id (map (listed c) (before ++ p :: after)) = Some (listed c p).
Proof.
  unfold find_by_id. intros Hbefore Hp.
  induction before as [|q before IH]; cbn [app map find listed h_proc].
  - rewrite Hp, Js_eqb_refl. reflexivity.
  - destruct (Js.eqb (proc_id q) id) eqn:E.
    + apply Js_eqb_eq in E. exfalso. exact (Hbefore q (or_introl eq_refl) E).
    + apply IH. intros r Hr. apply Hbefore. right. exact Hr.
Qed.

Section LogsRouteFacts.

Variable findExistingClawdbotProcess : Sandbox -> M (option Handle).

(** X21.  /debug/logs by id.  With a non-empty [id], the process is
    looked up in the sandbox's list and the locator is left alone.  An
    id that no listed process has is answered [not_found] with the id
    in the message, without any log fetch.  Otherwise the first listed
    process with that id is the one whose logs and status are
    returned, whatever its status; when its log fetch is rejected the
    answer is the error body carrying the message. *)
Theorem logs_by_id
    (sb : Sandbox) (id : Js.str) (w : World) (ps : list Process) :
  id <> [] ->
  sb_listProcesses sb = Ok ps ->
  ((forall p, In p ps -> proc_id p <> id) ->
   debug_logs findExistingClawdbotProcess sb (Some id) w
   = (Ok (LogsNotFound (Js.lit "Process " ++ id ++ Js.lit " not found")),
      advance w 0 [EvListProcesses]))
  /\ (forall before p after,
        ps = before ++ p :: after ->
        (forall q, In q before -> proc_id q <> id) ->
        proc_id p = id ->
        (forall logs, proc_getLogs p 0 = Ok logs ->
           debug_logs findExistingClawdbotProcess sb (Some id) w
           = (Ok (LogsOk id (proc_status p 0)
                         (Js.or_else (stdout logs) [])
                         (Js.or_else (stderr logs) [])),
              advance w 0 [EvListProcesses; EvGetLogs id; EvStatus id]))
        /\ (forall e, proc_getLogs p 0 = Err e ->
              returned (debug_logs findExistingClawdbotProcess sb (Some id) w)
              = Ok (LogsError (Js.lit "Failed to get logs: "
                                 ++ errorMessage e)))).
Proof.
  intros Hid Hlist.
  assert (Htruthy : Js.truthy_opt (Some id) = true)
    by (destruct id; [contradiction | reflexivity]).
  assert (Hor : Js.or_else (Some id) [] = id)
    by (destruct id; reflexivity).
  assert (Hhead : forall k : list Handle -> M LogsResponse,
             bind (listProcesses sb) k w
             = k (map (listed (clock w)) ps) (advance w 0 [EvListProcesses])).
  { intros k. unfold bind, listProcesses. rewrite Hlist. unfold advance, listed.
    f_equal. apply world_eq; [lia | reflexivity | reflexivity]. }
  split.
  - intros Hnone. unfold debug_logs, try_catch. rewrite Htruthy, Hor, Hhead.
    rewrite (find_by_id_none (clock w) id ps Hnone). reflexivity.
  - intros before p after Hps Hbefore Hp.
    assert (Hrun : debug_logs findExistingClawdbotProcess sb (Some id) w
                   = match respond_with_logs (listed (clock w) p)
                             (advance w 0 [EvListProcesses]) with
                     | (Ok a, w') => (Ok a, w')
                     | (Err e, w') =>
                         (Ok (LogsError (Js.lit "Failed to get logs: "
                                           ++ errorMessage e)), w')
                     end).
    { unfold debug_logs, try_catch. rewrite Htruthy, Hor, Hhead, Hps.
      rewrite (find_by_id_first (clock w) id before after p Hbefore Hp).
      destruct (respond_with_logs _ _) as [[a|e] w']; reflexivity. }
    rewrite Hrun, respond_with_logs_run.
    unfold elapsed, listed, advance. cbn [clock h_born h_proc started trace].
    replace (clock w + 0 - clock w)%Z with 0%Z by lia. rewrite Hp.
    split.
    + intros logs Hlogs. rewrite Hlogs. f_equal.
      apply world_eq; [lia | reflexivity |]. rewrite <- app_assoc. reflexivity.
    + intros e He. rewrite He. reflexivity.
Qed.

(** X22.  /debug/logs without id.  When the [id] parameter is absent or
    empty the handler asks the locator and never lists the processes
    itself.  A locator that finds nothing is answered [no_process], not
    an error, and no log is fetched; a handle it finds is the one whose
    logs and status are returned; what the locator throws comes back as
    the error body.  The handler itself never throws. *)
Theorem logs_of_located_process
    (sb : Sandbox) (query_id : option Js.str) (w : World) :
  (exists response,
      returned (debug_logs findExistingClawdbotProcess sb query_id w)
      = Ok response)
  /\ (query_id = None \/ query_id = Some [] ->
      (forall w',
          findExistingClawdbotProcess sb w = (Ok None, w') ->
          debug_logs findExistingClawdbotProcess sb query_id w
          = (Ok LogsNoProcess, w'))
      /\ (forall h w' logs,
            findExistingClawdbotProcess sb w = (Ok (Some h), w') ->
            proc_getLogs (h_proc h) (elapsed h w') = Ok logs ->
            debug_logs findExistingClawdbotProcess sb query_id w
            = (Ok (LogsOk (proc_id (h_proc h))
                          (proc_status (h_proc h) (elapsed h w'))
                          (Js.or_else (stdout logs) [])
                          (Js.or_else (stderr logs) [])),
               advance w' 0 [EvGetLogs (proc_id (h_proc h));
                             EvStatus (proc_id (h_proc h))]))
      /\ (forall e w',
            findExistingClawdbotProcess sb w = (Err e, w') ->
            debug_logs findExistingClawdbotProcess sb query_id w
            = (Ok (LogsError (Js.lit "Failed to get logs: "
                                ++ errorMessage e)), w'))).
Proof.
  split.
  - unfold debug_logs, try_catch.
    match goal with |- context [match ?m w with _ => _ end] =>
      destruct (m w) as [[a|e] w']
    end; eexists; reflexivity.
  - intros Hq.
    assert (Hfalsy : Js.truthy_opt query_id = false)
      by (destruct Hq as [-> | ->]; reflexivity).
    split; [|split].
    + intros w' Hloc. unfold debug_logs, try_catch. rewrite Hfalsy.
      unfold bind at 1. rewrite Hloc. reflexivity.
    + intros h w' logs Hloc Hlogs. unfold debug_logs, try_catch.
      rewrite Hfalsy. unfold bind at 1. rewrite Hloc.
      rewrite respond_with_logs_run, Hlogs. reflexivity.
    + intros e w' Hloc. unfold debug_logs, try_catch. rewrite Hfalsy.
      unfold bind at 1. rewrite Hloc. reflexivity.
Qed.

End LogsRouteFacts.

(** ** /debug/env *)

Section EnvFacts.

Variable R2_MOUNT_PATH : Js.str.
Variable waitForProcess : (Z -> Js.str) -> Z -> Z * Result unit.

(** X23.  /debug/env tells what the mount check will do: its three R2
    flags are all true exactly when the credential guard of
    [mountR2Storage] and [syncToR2] lets the check through, so that
    with all three true [syncToR2] starts the mount command, and with
    one false it answers [R2 storage is not configured] without
    touching the sandbox. *)
Theorem env_flags_tell_the_guard
    (env : Bindings) (sb : Sandbox) (w : World) :
  let flags := debug_env env in
  let all_set := has_r2_access_key flags && has_r2_secret_key flags
                 && has_cf_account_id flags in
  all_set = negb (not_configured (r2_bindings env))
  /\ (all_set = true ->
      exists rest,
        trace (snd (syncToR2 R2_MOUNT_PATH waitForProcess sb (r2_bindings env) w))
        = trace w ++ EvStartProcess (mount_command R2_MOUNT_PATH) :: rest)
  /\ (all_set = false ->
      syncToR2 R2_MOUNT_PATH waitForProcess sb (r2_bindings env) w
      = (Ok sync_not_configured, w)
      /\ returned (mountR2Storage R2_MOUNT_PATH sb (r2_bindings env) w) = Ok false).
Proof.
  cbn zeta. unfold debug_env.
  cbn [has_r2_access_key has_r2_secret_key has_cf_account_id].
  assert (Hguard : Js.truthy_opt (R2_ACCESS_KEY_ID (r2_bindings env))
                   && Js.truthy_opt (R2_SECRET_ACCESS_KEY (r2_bindings env))
                   && Js.truthy_opt (CF_ACCOUNT_ID (r2_bindings env))
                   = negb (not_configured (r2_bindings env))).
  { unfold not_configured.
    destruct (Js.truthy_opt (R2_ACCESS_KEY_ID (r2_bindings env))),
             (Js.truthy_opt (R2_SECRET_ACCESS_KEY (r2_bindings env))),
             (Js.truthy_opt (CF_ACCOUNT_ID (r2_bindings env))); reflexivity. }
  rewrite Hguard. split; [reflexivity|].
  destruct (not_configured (r2_bindings env)) eqn:Hcfg; cbn [negb]; split;
    try discriminate.
  - intros _. unfold syncToR2, mountR2Storage. rewrite Hcfg. split; reflexivity.
  - intros _. rewrite syncToR2_run by exact Hcfg. unfold syncToR2_of.
    destruct (sb_startProcess sb (started w) (mount_command R2_MOUNT_PATH))
      as [p|e].
    + destruct (waitForProcess (proc_status p) 5000) as [waited [[]|e]];
        [destruct (proc_getLogs p waited) as [logs|e]|];
        cbn [snd trace app]; eexists; reflexivity.
    + cbn [snd trace]. eexists. reflexivity.
Qed.

End EnvFacts.

(** X24.  /debug/env gives away of a secret binding only whether it is
    set: two environments that agree on the plain settings and on which
    of the seven secrets are set get the same response, whatever the
    secrets are. *)
Theorem env_reveals_presence_only (env1 env2 : Bindings) :
  DEV_MODE env1 = DEV_MODE env2 ->
  DEBUG_ROUTES env1 = DEBUG_ROUTES env2 ->
  CLAWDBOT_BIND_MODE env1 = CLAWDBOT_BIND_MODE env2 ->
  CF_ACCESS_TEAM_DOMAIN env1 = CF_ACCESS_TEAM_DOMAIN env2 ->
  Js.truthy_opt (ANTHROPIC_API_KEY env1) = Js.truthy_opt (ANTHROPIC_API_KEY env2) ->
  Js.truthy_opt (OPENAI_API_KEY env1) = Js.truthy_opt (OPENAI_API_KEY env2) ->
  Js.truthy_opt (CLAWDBOT_GATEWAY_TOKEN env1)
  = Js.truthy_opt (CLAWDBOT_GATEWAY_TOKEN env2) ->
  Js.truthy_opt (R2_ACCESS_KEY_ID (r2_bindings env1))
  = Js.truthy_opt (R2_ACCESS_KEY_ID (r2_bindings env2)) ->
  Js.truthy_opt (R2_SECRET_ACCESS_KEY (r2_bindings env1))
  = Js.truthy_opt (R2_SECRET_ACCESS_KEY (r2_bindings env2)) ->
  Js.truthy_opt (CF_ACCOUNT_ID (r2_bindings env1))
  = Js.truthy_opt (CF_ACCOUNT_ID (r2_bindings env2)) ->
  Js.truthy_opt (CF_ACCESS_AUD env1) = Js.truthy_opt (CF_ACCESS_AUD env2) ->
  debug_env env1 = debug_env env2.
Proof.
  intros H1 H2 H3 H4 H5 H6 H7 H8 H9 H10 H11. unfold debug_env.
  rewrite H1, H2, H3, H4, H5, H6, H7, H8, H9, H10, H11. reflexivity.
Qed.

(** ** /debug/gateway-api *)

Section GatewayApiFacts.

Variable containerFetch : Js.str -> Z -> Result FetchResponse.

(** X25.  /debug/gateway-api never throws and echoes the path ([/] when
    the parameter is absent or empty) in every answer.  It fetches
    [http://localhost:18789] followed by the path on port 18789; the
    body is read as JSON exactly when the content type of the response
    contains [application/json], and as text otherwise, a missing
    header counting as the empty content type; whatever the fetch or
    the reading of the body throws is answered with its message. *)
Theorem gateway_api_reads_body_by_content_type
    (query_path : option Js.str) (w : World) :
  let path := Js.or_else query_path (Js.lit "/") in
  let url := Js.lit "http://localhost:18789" ++ path in
  let failure e := (Ok (GatewayApiError (errorMessage e) path), w) in
  (query_path = None \/ query_path = Some [] -> path = Js.lit "/")
  /\ (exists response, gateway_api containerFetch query_path w = (Ok response, w))
  /\ (forall e, containerFetch url 18789 = Err e ->
        gateway_api containerFetch query_path w = failure e)
  /\ (forall r, containerFetch url 18789 = Ok r ->
        let contentType := Js.or_else (resp_content_type r) [] in
        (contains contentType (Js.lit "application/json") ->
         gateway_api containerFetch query_path w
         = match resp_json r with
           | Ok v => (Ok (GatewayApiResult path (resp_status r) contentType
                                           (BodyJson v)), w)
           | Err e => failure e
           end)
        /\ (~ contains contentType (Js.lit "application/json") ->
            gateway_api containerFetch query_path w
            = match resp_text r with
              | Ok s => (Ok (GatewayApiResult path (resp_status r) contentType
                                              (BodyText s)), w)
              | Err e => failure e
              end)).
Proof.
  intros path url failure.
  assert (Hurl : gateway_url path = url) by reflexivity.
  split; [intros [E | E]; unfold path; rewrite E; reflexivity|].
  unfold gateway_api, try_catch, bind, settle, ret. fold path.
  rewrite Hurl. change CLAWDBOT_PORT with 18789%Z.
  split; [|split].
  - destruct (containerFetch url 18789) as [r|e]; [|eexists; reflexivity].
    destruct (Js.includes (Js.or_else (resp_content_type r) [])
                          (Js.lit "application/json")).
    + destruct (resp_json r); eexists; reflexivity.
    + destruct (resp_text r); eexists; reflexivity.
  - intros e ->. reflexivity.
  - intros r ->. split.
    + intros Hc. apply includes_spec in Hc. rewrite Hc.
      destruct (resp_json r); reflexivity.
    + intros Hc.
      destruct (Js.includes (Js.or_else (resp_content_type r) [])
                            (Js.lit "application/json")) eqn:E.
      * apply includes_spec in E. contradiction.
      * destruct (resp_text r); reflexivity.
Qed.

End GatewayApiFacts.

(* ================================================================== *)
(** * The further properties on concrete sandboxes *)
(* ================================================================== *)

Lemma isR2Mounted_fetches_at_first_stop_witness :
  let p := stops_at 500 (Js.lit "proc-1") (mount_command data_moltbot)
                    tigrisfs_line in
  (forall j, (j < 3)%nat -> proc_status p (200 * Z.of_nat j) = running)
  /\ proc_status p (200 * Z.of_nat 3) <> running
  /\ returned (isR2Mounted data_moltbot (sandbox_busy_until 500 tigrisfs_line)
                           initial) = Ok true
  /\ clock (snd (isR2Mounted data_moltbot (sandbox_busy_until 500 tigrisfs_line)
                             initial)) = 600%Z.
Proof.
  intros p.
  assert (Hrun : forall j, (j < 3)%nat -> proc_status p (200 * Z.of_nat j) = running).
  { intros j Hj. destruct j as [|[|[|j]]]; [reflexivity | reflexivity | reflexivity | lia]. }
  assert (Hstop : proc_status p (200 * Z.of_nat 3) <> running).
  { intros H. vm_compute in H. discriminate H. }
  split; [exact Hrun|]. split; [exact Hstop|].
  destruct (isR2Mounted_fetches_at_first_stop data_moltbot
              (sandbox_busy_until 500 tigrisfs_line) initial p 3
              eq_refl ltac:(lia) Hrun (or_intror Hstop)) as [Hclock Hret].
  split; [exact Hret | exact Hclock].
Defined.

Lemma isR2Mounted_never_throws_witness :
  let p := without_logs (Js.lit "proc-1") (mount_command data_moltbot) timed_out in
  proc_getLogs p (isR2Mounted_fetch_time p) = Err timed_out
  /\ returned (isR2Mounted data_moltbot (sandbox_without_logs timed_out) initial)
     = Ok false.
Proof.
  intros p. split; [reflexivity|].
  exact (proj1 (proj2 (proj2 (isR2Mounted_never_throws data_moltbot
                                (sandbox_without_logs timed_out) env_with_r2
                                initial))
                      p timed_out eq_refl eq_refl)).
Defined.

Lemma mountR2Storage_is_isR2Mounted_and_a_line_witness :
  not_configured env_with_r2 = false
  /\ returned (mountR2Storage data_moltbot (sandbox_printing tigrisfs_line)
                              env_with_r2 initial)
     = returned (isR2Mounted data_moltbot (sandbox_printing tigrisfs_line) initial).
Proof.
  split; [reflexivity|].
  exact (proj1 (mountR2Storage_is_isR2Mounted_and_a_line data_moltbot
                  (sandbox_printing tigrisfs_line) env_with_r2 initial eq_refl)).
Defined.

Lemma mount_check_runs_iff_credentials_set_witness :
  ~ credentials_set env_empty_secret
  /\ syncToR2 data_moltbot boundedPoller (sandbox_printing tigrisfs_line)
              env_empty_secret initial
     = (Ok sync_not_configured, initial).
Proof.
  assert (H : ~ credentials_set env_empty_secret).
  { intros [a [b [c [_ [_ [Hb [Hne _]]]]]]]. cbn in Hb. injection Hb as <-.
    apply Hne. reflexivity. }
  split; [exact H|].
  exact (proj2 (proj2 (proj2 (mount_check_runs_iff_credentials_set data_moltbot
                                boundedPoller (sandbox_printing tigrisfs_line)
                                env_empty_secret initial) H))).
Defined.

Lemma syncToR2_reports_check_failure_witness :
  let p := finished (Js.lit "proc-1") (mount_command data_moltbot) tigrisfs_line in
  not_configured env_with_r2 = false
  /\ throwingPoller (proc_status p) 5000 = (5000%Z, Err timed_out)
  /\ exists r,
      returned (syncToR2 data_moltbot throwingPoller
                         (sandbox_printing tigrisfs_line) env_with_r2 initial)
      = Ok r
      /\ details r = Some (Js.lit "Process timed out").
Proof.
  intros p. split; [reflexivity|]. split; [reflexivity|].
  destruct (proj1 (syncToR2_reports_check_failure data_moltbot throwingPoller
                     (sandbox_printing tigrisfs_line) env_with_r2 initial
                     p 5000%Z timed_out eq_refl eq_refl) eq_refl)
    as [[r [E [_ [_ D]]]] _].
  exists r. split; [exact E | exact D].
Defined.

Lemma detectors_agree_witness :
  let p := finished (Js.lit "proc-1") (mount_command data_moltbot) s3fs_line in
  (forall t, proc_getLogs p t = Ok {| stdout := Some s3fs_line; stderr := Some [] |})
  /\ snd (boundedPoller (proc_status p) 5000) = Ok tt
  /\ exists mounted r,
      returned (isR2Mounted data_moltbot (sandbox_printing s3fs_line) initial)
      = Ok mounted
      /\ returned (syncToR2 data_moltbot boundedPoller
                            (sandbox_printing s3fs_line) env_with_r2 initial)
         = Ok r
      /\ success r = mounted.
Proof.
  intros p. split; [reflexivity|]. split; [reflexivity|].
  exact (detectors_agree data_moltbot boundedPoller (sandbox_printing s3fs_line)
           env_with_r2 initial initial p
           (Ok {| stdout := Some s3fs_line; stderr := Some [] |})
           eq_refl eq_refl (fun _ => eq_refl) eq_refl eq_refl).
Defined.

Lemma cli_reports_first_stop_witness :
  let p := stops_at 1200 (Js.lit "proc-1") (Js.lit "clawdbot --help")
                    (Js.lit "usage") in
  (forall j, (1 <= j <= 2)%nat -> proc_status p (500 * Z.of_nat j) = running)
  /\ proc_status p (500 * Z.of_nat 3) <> running
  /\ returned (cli (sandbox_busy_until 1200 (Js.lit "usage")) None initial)
     = Ok (CliResult (Js.lit "clawdbot --help") (Js.lit "completed") (Some 0%Z) 2
                     (Js.lit "usage") []).
Proof.
  intros p.
  assert (Hrun : forall j, (1 <= j <= 2)%nat ->
                           proc_status p (500 * Z.of_nat j) = running).
  { intros j Hj. destruct j as [|[|[|j]]]; [lia | reflexivity | reflexivity | lia]. }
  assert (Hstop : proc_status p (500 * Z.of_nat 3) <> running).
  { intros H. vm_compute in H. discriminate H. }
  split; [exact Hrun|]. split; [exact Hstop|].
  exact (proj1 (cli_reports_first_stop (sandbox_busy_until 1200 (Js.lit "usage"))
                  None initial p 2
                  {| stdout := Some (Js.lit "usage"); stderr := Some [] |}
                  eq_refl ltac:(lia) Hrun Hstop eq_refl)).
Defined.

Lemma debug_polls_time_out_quietly_witness :
  let p := never_ending (Js.lit "proc-1") (Js.lit "clawdbot --help")
                        (Js.lit "partial") in
  (forall j, (1 <= j <= 30)%nat -> proc_status p (500 * Z.of_nat j) = running)
  /\ returned (cli (sandbox_hanging (Js.lit "partial")) None initial)
     = Ok (CliResult (Js.lit "clawdbot --help") running None 30
                     (Js.lit "partial") []).
Proof.
  intros p.
  assert (Hrun : forall j, (1 <= j <= 30)%nat ->
                           proc_status p (500 * Z.of_nat j) = running)
    by (intros j _; reflexivity).
  split; [exact Hrun|].
  exact (proj1 (proj1 (debug_polls_time_out_quietly parse_literal_names
                         (sandbox_hanging (Js.lit "partial")) initial p
                         {| stdout := Some (Js.lit "partial"); stderr := Some [] |})
                      None eq_refl Hrun eq_refl)).
Defined.

Lemma cli_echoes_command_on_failure_witness :
  sb_startProcess (sandbox_rejecting command_failed) (started initial)
                  (Js.lit "clawdbot --help") = Err command_failed
  /\ returned (cli (sandbox_rejecting command_failed) (Some []) initial)
     = Ok (CliError (Js.lit "Command failed") (Js.lit "clawdbot --help")).
Proof.
  split; [reflexivity|].
  exact (proj1 (proj2 (proj2 (proj2 (cli_echoes_command_on_failure
                                       (sandbox_rejecting command_failed)
                                       (Some []) initial))))
               command_failed eq_refl).
Defined.

Lemma version_fails_as_a_whole_witness :
  sb_startProcess (sandbox_rejecting command_failed) (started initial)
                  (Js.lit "clawdbot --version") = Err command_failed
  /\ returned (version (sandbox_rejecting command_failed) initial)
     = Ok (VersionError (Js.lit "Failed to get version info: Command failed")).
Proof.
  split; [reflexivity|].
  exact (proj1 (proj1 (version_fails_as_a_whole (sandbox_rejecting command_failed)
                         initial command_failed) eq_refl)).
Defined.

Lemma version_strings_are_trimmed_witness :
  stdout blank_stdout = Some [10%N]
  /\ blank [10%N]
  /\ clawdbotVersion_of blank_stdout = []
  /\ nodeVersion_of blank_stdout = [].
Proof.
  assert (Hblank : blank [10%N]) by (repeat constructor).
  split; [reflexivity|]. split; [exact Hblank|].
  apply (proj2 (proj2 (proj2 (proj2 (version_strings_are_trimmed blank_stdout))))
               [10%N] eq_refl).
  - discriminate.
  - exact Hblank.
Defined.

Lemma listing_without_logs_witness :
  Some (Js.lit "TRUE") <> Some (Js.lit "true")
  /\ sb_listProcesses (sandbox_listing mixed_listing) = Ok mixed_listing
  /\ exists records evs,
      processes codeUnitCompare (sandbox_listing mixed_listing)
                (Some (Js.lit "TRUE")) initial
      = (Ok (ProcessList 8 records), advance initial 0 evs)
      /\ count is_fetch evs = 0%nat.
Proof.
  assert (H : Some (Js.lit "TRUE") <> Some (Js.lit "true"))
    by (intros E; vm_compute in E; discriminate E).
  split; [exact H|]. split; [reflexivity|].
  destruct (listing_without_logs codeUnitCompare (sandbox_listing mixed_listing)
              (Some (Js.lit "TRUE")) initial mixed_listing H eq_refl)
    as [records [evs [E [F _]]]].
  exists records, evs. split; [exact E | exact F].
Defined.

Lemma listing_order_ignores_logs_witness :
  sb_listProcesses (sandbox_listing mixed_listing) = Ok mixed_listing
  /\ exists order,
      Permutation mixed_listing order
      /\ returned (processes codeUnitCompare (sandbox_listing mixed_listing)
                             (Some (Js.lit "true")) initial)
         = Ok (ProcessList 8 (map (describe_of true) order))
      /\ returned (processes codeUnitCompare (sandbox_listing mixed_listing)
                             None initial)
         = Ok (ProcessList 8 (map (describe_of false) order)).
Proof.
  split; [reflexivity|].
  destruct (listing_order_ignores_logs codeUnitCompare
              (sandbox_listing mixed_listing) initial initial mixed_listing
              eq_refl) as [order [P [E1 E2]]].
  exists order. split; [exact P|]. split; [exact E1|].
  apply E2. discriminate.
Defined.

Lemma listing_running_first_unknown_last_witness :
  let records := sort (compareProcesses codeUnitCompare)
                      (map (describe_of false) mixed_listing) in
  let a := nth 1 records (describe_of false (finished [] [] [])) in
  let b := nth 4 records (describe_of false (finished [] [] [])) in
  Forall plain records
  /\ records = firstn 1 records ++ a :: firstn 2 (skipn 2 records)
                 ++ b :: skipn 5 records
  /\ d_status b = running
  /\ d_status a = running.
Proof.
  intros records a b.
  assert (Hplain : Forall plain records)
    by exact (sort_dom _ _ plain _ mixed_listing_plain).
  assert (Hsplit : records = firstn 1 records ++ a :: firstn 2 (skipn 2 records)
                             ++ b :: skipn 5 records)
    by (vm_compute; reflexivity).
  assert (Hb : d_status b = running) by (vm_compute; reflexivity).
  split; [exact Hplain|]. split; [exact Hsplit|]. split; [exact Hb|].
  exact (proj1 (listing_running_first_unknown_last codeUnitCompare
                  codeUnitCompare_flip codeUnitCompare_trans
                  (sandbox_listing mixed_listing) None initial mixed_listing
                  records (firstn 1 records) (firstn 2 (skipn 2 records))
                  (skipn 5 records) a b
                  eq_refl eq_refl Hplain Hsplit) Hb).
Defined.

Lemma compareProcesses_is_consistent_witness :
  let a := describe_of false (unreadable (Js.lit "p1") (Js.lit "failed") (jan "01")) in
  let b := describe_of false (unreadable (Js.lit "p2") running None) in
  plain a /\ plain b
  /\ Z.sgn (compareProcesses codeUnitCompare a b)
     = (- Z.sgn (compareProcesses codeUnitCompare b a))%Z
  /\ compareProcesses codeUnitCompare a b = 3%Z.
Proof.
  intros a b.
  split; [reflexivity|]. split; [reflexivity|].
  split; [|vm_compute; reflexivity].
  exact (proj1 (proj2 (compareProcesses_is_consistent codeUnitCompare
                         codeUnitCompare_flip codeUnitCompare_trans a b a)
                      eq_refl eq_refl eq_refl)).
Defined.

Lemma logs_by_id_witness :
  let second := readable (Js.lit "p2") (Js.lit "failed") None (Js.lit "second") in
  Js.lit "p2" <> []
  /\ sb_listProcesses (sandbox_listing two_with_one_id) = Ok two_with_one_id
  /\ returned (debug_logs (locate_by_command (Js.lit "clawdbot gateway"))
                          (sandbox_listing two_with_one_id)
                          (Some (Js.lit "p2")) initial)
     = Ok (LogsOk (Js.lit "p2") (Js.lit "failed") (Js.lit "second") [])
  /\ returned (debug_logs (locate_by_command (Js.lit "clawdbot gateway"))
                          (sandbox_listing two_with_one_id)
                          (Some (Js.lit "p9")) initial)
     = Ok (LogsNotFound (Js.lit "Process p9 not found")).
Proof.
  intros second.
  assert (H2 : Js.lit "p2" <> []) by discriminate.
  assert (H9 : Js.lit "p9" <> []) by discriminate.
  split; [exact H2|]. split; [reflexivity|]. split.
  - destruct (logs_by_id (locate_by_command (Js.lit "clawdbot gateway"))
                (sandbox_listing two_with_one_id) (Js.lit "p2") initial
                two_with_one_id H2 eq_refl) as [_ Hfound].
    destruct (Hfound [readable (Js.lit "p1") (Js.lit "completed") None
                               (Js.lit "first")]
                     second
                     [readable (Js.lit "p2") (Js.lit "running") None
                               (Js.lit "third")]
                     eq_refl) as [Hok _].
    + intros q [<- | []]. intros E. vm_compute in E. discriminate E.
    + reflexivity.
    + rewrite (Hok {| stdout := Some (Js.lit "second"); stderr := None |} eq_refl).
      reflexivity.
  - destruct (logs_by_id (locate_by_command (Js.lit "clawdbot gateway"))
                (sandbox_listing two_with_one_id) (Js.lit "p9") initial
                two_with_one_id H9 eq_refl) as [Hnone _].
    rewrite Hnone; [reflexivity|].
    intros p [<- | [<- | [<- | []]]] E; vm_compute in E; discriminate E.
Defined.

Lemma logs_of_located_process_witness :
  returned (debug_logs (locate_by_command (Js.lit "clawdbot gateway"))
                       (sandbox_listing mixed_listing) None initial)
  = Ok LogsNoProcess
  /\ returned (debug_logs (locate_by_command (Js.lit "clawdbot gateway"))
                          (sandbox_listing two_with_one_id) (Some []) initial)
     = Ok (LogsOk (Js.lit "p1") (Js.lit "completed") (Js.lit "first") []).
Proof.
  split.
  - destruct (proj2 (logs_of_located_process
                       (locate_by_command (Js.lit "clawdbot gateway"))
                       (sandbox_listing mixed_listing) None initial)
                    (or_introl eq_refl)) as [Hnone _].
    rewrite (Hnone _ eq_refl). reflexivity.
  - destruct (proj2 (logs_of_located_process
                       (locate_by_command (Js.lit "clawdbot gateway"))
                       (sandbox_listing two_with_one_id) (Some []) initial)
                    (or_intror eq_refl)) as [_ [Hsome _]].
    rewrite (Hsome _ _ {| stdout := Some (Js.lit "first"); stderr := None |}
                   eq_refl eq_refl).
    reflexivity.
Defined.

Lemma env_flags_tell_the_guard_witness :
  has_r2_secret_key (debug_env bindings_without_secret) = false
  /\ syncToR2 data_moltbot boundedPoller (sandbox_printing tigrisfs_line)
              (r2_bindings bindings_without_secret) initial
     = (Ok sync_not_configured, initial).
Proof.
  split; [reflexivity|].
  exact (proj1 (proj2 (proj2 (env_flags_tell_the_guard data_moltbot boundedPoller
                                bindings_without_secret
                                (sandbox_printing tigrisfs_line) initial))
                      eq_refl)).
Defined.

Lemma env_reveals_presence_only_witness :
  bindings_with (Js.lit "sk-ant-1") <> bindings_with (Js.lit "hunter2")
  /\ debug_env (bindings_with (Js.lit "sk-ant-1"))
     = debug_env (bindings_with (Js.lit "hunter2")).
Proof.
  split.
  - intros E. vm_compute in E. discriminate E.
  - exact (env_reveals_presence_only (bindings_with (Js.lit "sk-ant-1"))
             (bindings_with (Js.lit "hunter2"))
             eq_refl eq_refl eq_refl eq_refl eq_refl eq_refl eq_refl
             eq_refl eq_refl eq_refl eq_refl).
Defined.

Lemma gateway_api_reads_body_by_content_type_witness :
  contains (Js.lit "application/json; charset=utf-8") (Js.lit "application/json")
  /\ gateway_api fetch_true None initial
     = (Ok (GatewayApiResult (Js.lit "/") 200
                             (Js.lit "application/json; charset=utf-8")
                             (BodyJson (JBool true))), initial).
Proof.
  assert (H : contains (Js.lit "application/json; charset=utf-8")
                       (Js.lit "application/json")).
  { exists [], (Js.lit "; charset=utf-8"). reflexivity. }
  split; [exact H|].
  destruct (proj2 (proj2 (proj2 (gateway_api_reads_body_by_content_type fetch_true
                                   None initial)))
                  _ eq_refl) as [Hjson _].
  exact (Hjson H).
Defined.
